(** * Storage gateway and crash-safe move protocol

    A shallow embedding of [server/src/repositories/storage.repository.ts]
    (class [StorageRepository]) and [server/src/cores/storage.core.ts]
    (class [StorageCore], method [moveFile]).

    Strings are byte strings; the separators the code looks for ([/] and [.])
    are ASCII, so splitting and searching behave as on the JavaScript string.
    Asynchronous calls are sequenced as the [await]s sequence them: a method
    is a finite tree of calls to its collaborators, each call answered by the
    environment, and a rejected promise is a [Throw] result. *)

From Stdlib Require Import ZArith Lia Ascii String.
From stdpp Require Import base strings list gmap pretty.

Local Open Scope string_scope.
Local Open Scope Z_scope.

(** ** JavaScript string primitives used by the code *)

Module Js.

(** [s.startsWith(pre)] *)
Definition startsWith (pre s : string) : bool := String.prefix pre s.

(** [s.endsWith(suf)] *)
Definition endsWith (suf s : string) : bool :=
  String.prefix (String.rev suf) (String.rev s).

(** [s.includes(c)] for a one-character needle *)
Fixpoint includes (c : ascii) (s : string) : bool :=
  match s with
  | EmptyString => false
  | String d s' => if Ascii.eqb d c then true else includes c s'
  end.

(** [s.split(c)] for a one-character separator: empty segments are kept and
    the empty string splits into one empty segment. *)
Fixpoint split (c : ascii) (s : string) : list string :=
  match s with
  | EmptyString => [EmptyString]
  | String d s' =>
      if Ascii.eqb d c then EmptyString :: split c s'
      else match split c s' with
           | [] => [String d EmptyString]
           | seg :: segs => String d seg :: segs
           end
  end.

(** [parts.join(sep)] *)
Definition join (sep : string) (parts : list string) : string :=
  String.concat sep parts.

(** [parts[i]] on an array of strings ([undefined] is not needed: every use
    in the code is behind a length test). *)
Definition at_ (parts : list string) (i : nat) : string := nth i parts "".

(** [parts.slice(n)] *)
Definition slice_from {A} (n : nat) (parts : list A) : list A := drop n parts.

(** [!s] for a value of type [string | undefined | null] *)
Definition falsy (o : option string) : bool :=
  match o with
  | None => true
  | Some s => if decide (s = "") then true else false
  end.

End Js.

(** ** Errors and results *)

(** A thrown JavaScript error: [error.code] (absent on a plain [new Error])
    and [error.message]. *)
Record JsError := mkError { err_code : option string; err_message : string }.

Definition new_Error (msg : string) : JsError := mkError None msg.

Inductive result (A : Type) : Type :=
| Ok (a : A)
| Throw (e : JsError).
Arguments Ok {A} a.
Arguments Throw {A} e.

Definition is_ok {A} (r : result A) : bool :=
  match r with Ok _ => true | Throw _ => false end.

(** ** PathClassifier: the pure part of [StorageRepository] *)

Record ParsedCloudPath := mkParsed { host : string; bucket : string; key : string }.

Inductive CloudProvider := S3 | Azure | GCS | Unknown.

Definition CloudProvider_eqb (a b : CloudProvider) : bool :=
  match a, b with
  | S3, S3 | Azure, Azure | GCS, GCS | Unknown, Unknown => true
  | _, _ => false
  end.

Definition parseCloudPath (filepath : string) : result ParsedCloudPath :=
  let parts := Js.split "/" filepath in
  if (length parts <? 3)%nat then
    Throw (new_Error ("Invalid cloud storage path format: " +:+ filepath))
  else
    let host := Js.at_ parts 0 in
    let bucket := Js.at_ parts 1 in
    let key := Js.join "/" (Js.slice_from 2 parts) in
    Ok (mkParsed host bucket key).

Definition detectCloudProvider (host : string) : CloudProvider :=
  if Js.endsWith ".amazonaws.com" host then S3
  else if Js.endsWith ".blob.core.windows.net" host then Azure
  else if decide (host = "storage.googleapis.com") then GCS
  else S3.

Definition isCloudPath (filepath : option string) : bool :=
  match filepath with
  | None => false
  | Some p =>
      if Js.falsy (Some p) then false
      else if Js.startsWith "/" p then false
      else
        let parts := Js.split "/" p in
        if (3 <=? length parts)%nat && Js.includes "." (Js.at_ parts 0) then true
        else false
  end.

Definition isRemote (filepath : option string) : bool :=
  match filepath with
  | None => false
  | Some p =>
      if Js.falsy filepath || negb (isCloudPath filepath) then false
      else
        match parseCloudPath p with
        | Ok parsed => CloudProvider_eqb (detectCloudProvider (host parsed)) S3
        | Throw _ => false
        end
  end.

Definition getS3BucketAndKey (filepath : string) : result (string * string) :=
  match parseCloudPath filepath with
  | Ok parsed => Ok (bucket parsed, key parsed)
  | Throw e => Throw e
  end.

(** ** Programs

    A method body is a finite tree: it returns, or it calls a collaborator
    and continues with the answer. *)

Inductive prog (E : Type → Type) (A : Type) : Type :=
| Ret (a : A)
| Vis (X : Type) (e : E X) (k : X → prog E A).
Arguments Ret {E A} a.
Arguments Vis {E A X} e k.

Fixpoint pbind {E A B} (p : prog E A) (k : A → prog E B) : prog E B :=
  match p with
  | Ret a => k a
  | Vis e f => Vis e (λ x, pbind (f x) k)
  end.

(** A method of an object with instance state [S]: the state is threaded
    through, also when the method throws. *)
Definition M (S : Type) (E : Type → Type) (A : Type) : Type :=
  S → prog E (result A * S).

#[global] Instance M_ret {S E} : MRet (M S E) :=
  λ A a s, Ret (Ok a, s).

#[global] Instance M_bind {S E} : MBind (M S E) :=
  λ A B k m s,
    pbind (m s) (λ rs, match rs.1 with
                       | Ok a => k a rs.2
                       | Throw e => Ret (Throw e, rs.2)
                       end).

(** [throw e] *)
Definition throw {S E A} (e : JsError) : M S E A := λ s, Ret (Throw e, s).

(** [try { m } catch (error) { h error }] *)
Definition catch {S E A} (m : M S E A) (h : JsError → M S E A) : M S E A :=
  λ s, pbind (m s) (λ rs, match rs.1 with
                          | Ok a => Ret (Ok a, rs.2)
                          | Throw e => h e rs.2
                          end).

(** [try { m } finally { f }], for a block [f] that does not throw. *)
Definition finally {S E A} (m : M S E A) (f : M S E unit) : M S E A :=
  λ s, pbind (m s) (λ rs, pbind (f rs.2) (λ us, Ret (rs.1, us.2))).

(** A call that may throw (or whose promise may reject). *)
Definition call {S E X} (e : E (result X)) : M S E X :=
  λ s, Vis e (λ r, Ret (r, s)).

(** A call that always answers. *)
Definition ask {S E X} (e : E X) : M S E X :=
  λ s, Vis e (λ x, Ret (Ok x, s)).

Definition lift_result {S E A} (r : result A) : M S E A :=
  match r with Ok a => mret a | Throw e => throw e end.

Definition gets {S E A} (f : S → A) : M S E A := λ s, Ret (Ok (f s), s).
Definition modify {S E} (f : S → S) : M S E unit := λ s, Ret (Ok tt, f s).

(** Running a program against an environment [h] that answers every call
    and may change its own state [W]; the answered calls are recorded in
    order. *)
Definition handler (E : Type → Type) (W : Type) : Type :=
  ∀ X, E X → W → X * W.

Fixpoint run {E W O A} (observe : ∀ X, E X → X → O) (h : handler E W)
    (p : prog E A) (w : W) : A * W * list O :=
  match p with
  | Ret a => (a, w, [])
  | Vis e k =>
      let xw := h _ e w in
      let res := run observe h (k xw.1) xw.2 in
      (res.1.1, res.1.2, observe _ e xw.1 :: res.2)
  end.

(** ** Node and AWS SDK data *)

Inductive JsDate := ValidDate (ms : Z) | InvalidDate.

(** [fs.Stats], the fields this code reads. The object that [stat] builds
    for a remote path also carries [mtimeMs], [atimeMs], [birthtimeMs],
    [isFile] and [isDirectory], which nothing here reads. *)
Record Stats := mkStats {
  size : Z;
  mtime : JsDate;
  atime : JsDate;
  birthtime : JsDate
}.

Definition Buffer := list Byte.byte.

(** [a.equals(b)] on buffers *)
Fixpoint Buffer_equals (a b : Buffer) : bool :=
  match a, b with
  | [], [] => true
  | x :: a', y :: b' => Byte.eqb x y && Buffer_equals a' b'
  | _, _ => false
  end.

Inductive LogLevel := Debug | Log | Warn | Error | Fatal.

Record S3Client := mkS3Client {
  client_region : string;
  client_accessKeyId : string;
  client_secretAccessKey : string;
  client_endpoint : string
}.

Inductive S3Command :=
| GetObjectCommand (Bucket Key : string)
| HeadObjectCommand (Bucket Key : string)
| PutObjectCommand (Bucket Key : string) (Body : Buffer)
| CopyObjectCommand (Bucket CopySource Key : string)
    (Metadata : option (gmap string string)) (MetadataDirective : option string)
| DeleteObjectCommand (Bucket Key : string).

Record S3Response := mkS3Response {
  Body : option Buffer;
  ContentLength : option Z;
  ContentType : option string;
  LastModified : option JsDate;
  Metadata : option (gmap string string)
}.

(** ** What [StorageRepository] calls: [node:fs], [process.env], the clock,
    the S3 client and the logger *)

Inductive ioE : Type → Type :=
| FsAccess (p : string) (mode : Z) : ioE (result unit)
| FsStat (p : string) : ioE (result Stats)
| FsRename (src dst : string) : ioE (result unit)
| FsCopyFile (src dst : string) : ioE (result unit)
| FsUtimes (p : string) (at_ mt : JsDate) : ioE (result unit)
| FsUnlink (p : string) : ioE (result unit)
| FsReadFile (p : string) : ioE (result Buffer)
| FsWriteStream (p : string) (data : Buffer) : ioE (result unit)
| FsExistsSync (p : string) : ioE bool
| FsMkdirSync (p : string) (recursive : bool) : ioE (result unit)
| EnvGet (name : string) : ioE (option string)
| DateNow : ioE Z
| NewDate : ioE JsDate
| Tmpdir : ioE string
| S3Send (client : S3Client) (cmd : S3Command) : ioE (result S3Response)
| Logger (lvl : LogLevel) (msg : string) : ioE unit.

Inductive ioObs :=
| IoAccess (p : string) (mode : Z) (r : result unit)
| IoStat (p : string) (r : result Stats)
| IoRename (src dst : string) (r : result unit)
| IoCopyFile (src dst : string) (r : result unit)
| IoUtimes (p : string) (at_ mt : JsDate) (r : result unit)
| IoUnlink (p : string) (r : result unit)
| IoReadFile (p : string) (r : result Buffer)
| IoWriteStream (p : string) (data : Buffer) (r : result unit)
| IoExistsSync (p : string) (r : bool)
| IoMkdirSync (p : string) (recursive : bool) (r : result unit)
| IoEnvGet (name : string) (r : option string)
| IoDateNow (r : Z)
| IoNewDate (r : JsDate)
| IoTmpdir (r : string)
| IoS3Send (client : S3Client) (cmd : S3Command) (r : result S3Response)
| IoLogger (lvl : LogLevel) (msg : string).

Definition io_observe (X : Type) (e : ioE X) : X → ioObs :=
  match e in ioE X return X → ioObs with
  | FsAccess p mode => IoAccess p mode
  | FsStat p => IoStat p
  | FsRename a b => IoRename a b
  | FsCopyFile a b => IoCopyFile a b
  | FsUtimes p a m => IoUtimes p a m
  | FsUnlink p => IoUnlink p
  | FsReadFile p => IoReadFile p
  | FsWriteStream p d => IoWriteStream p d
  | FsExistsSync p => IoExistsSync p
  | FsMkdirSync p r => IoMkdirSync p r
  | EnvGet n => IoEnvGet n
  | DateNow => IoDateNow
  | NewDate => IoNewDate
  | Tmpdir => IoTmpdir
  | S3Send c cmd => IoS3Send c cmd
  | Logger lvl msg => λ _, IoLogger lvl msg
  end.

(** A call to the object store *)
Definition is_network_call (o : ioObs) : bool :=
  match o with IoS3Send _ _ _ => true | _ => false end.

(** Library functions of Node that the code calls and that are pure:
    [path.dirname], [path.basename], [path.join] (on two arguments),
    the parser behind [new Date(string)] and the printer behind
    [toISOString] on a valid date. They are parameters of the development. *)
Record NodeLib := mkNodeLib {
  path_dirname : string → string;
  path_basename : string → string;
  path_join : string → string → string;
  Date_parse : string → JsDate;
  iso_of_ms : Z → string
}.

(** [d.toISOString()]: a [RangeError] on an invalid date *)
Definition toISOString (node : NodeLib) (d : JsDate) : result string :=
  match d with
  | ValidDate ms => Ok (iso_of_ms node ms)
  | InvalidDate => Throw (new_Error "Invalid time value")
  end.

(** [endpoint.match(/^s3\.([^.]+)\.<suffix>$/)], group 1; [suffix] is given
    with its leading dot. *)
Definition match_s3_region (suffix endpoint : string) : option string :=
  if Js.startsWith "s3." endpoint && Js.endsWith suffix endpoint
     && (3 + String.length suffix <? String.length endpoint)%nat
  then
    let mid := substring 3 (String.length endpoint - 3 - String.length suffix) endpoint in
    if Js.includes "." mid then None else Some mid
  else None.

(** [constants.F_OK] *)
Definition F_OK : Z := 0.

(** ** More JavaScript primitives, for the methods that read, write and
    list files and for the path helpers of [StorageCore] *)

Module JsMore.

(** [s.slice(n)] on a string, for [n] not negative *)
Fixpoint slice (n : nat) (s : string) : string :=
  match n, s with
  | O, _ => s
  | S n', String _ s' => slice n' s'
  | S _, EmptyString => EmptyString
  end.

(** [s.replaceAll(c, by)] for a one-character pattern *)
Fixpoint replaceAll (c : ascii) (by_ : string) (s : string) : string :=
  match s with
  | EmptyString => EmptyString
  | String d s' =>
      if Ascii.eqb d c then by_ +:+ replaceAll c by_ s'
      else String d (replaceAll c by_ s')
  end.

(** [buffer.subarray(start, end)]: an index below zero counts from the end,
    both indices are clamped to the buffer, and an end before the start
    gives the empty buffer; [end] is [None] for [undefined]. *)
Definition subarray (buffer : Buffer) (start : Z) (end_ : option Z) : Buffer :=
  let len := Z.of_nat (length buffer) in
  let clamp := λ i : Z, if i <? 0 then Z.max (len + i) 0 else Z.min i len in
  let s := clamp start in
  let e := match end_ with Some e => clamp e | None => len end in
  take (Z.to_nat (e - s)) (drop (Z.to_nat s) buffer).

End JsMore.

(** [try { m } finally { f }] for a block [f] that may throw: its error
    replaces the outcome of [m]. *)
Definition try_finally {S E A} (m : M S E A) (f : M S E unit) : M S E A :=
  λ s, pbind (m s) (λ rs, pbind (f rs.2)
                            (λ us, match us.1 with
                                   | Ok _ => Ret (rs.1, us.2)
                                   | Throw e => Ret (Throw e, us.2)
                                   end)).

(** ** More of what [StorageRepository] calls: writing and reading a file
    through a handle, and [fast-glob] *)

(** The options of [filehandle.read] that [readFile] reads itself; a
    [position] of [null] is read as an absent one, which [readFile] does not
    tell apart. *)
Record ReadOptions := mkReadOptions { ro_position : option Z; ro_length : option Z }.

(** The options given to [glob] and [globStream] *)
Record GlobOptions := mkGlobOptions {
  glob_absolute : bool;
  glob_caseSensitiveMatch : bool;
  glob_onlyFiles : bool;
  glob_dot : bool;
  glob_ignore : list string
}.

Record CrawlOptionsDto := mkCrawlOptions {
  pathsToCrawl : list string;
  exclusionPatterns : list string;
  includeHidden : bool
}.

Record WalkOptionsDto := mkWalkOptions {
  walk_crawl : CrawlOptionsDto;
  walk_take : Z
}.

(** [escapePath] of [fast-glob] and the list of supported file extensions of
    [src/utils/mime-types] are parameters of the development. *)
Record GlobLib := mkGlobLib {
  escapePath : string → string;
  getSupportedFileExtensions : list string
}.

(** The calls of [ioE], and: [fs.writeFile] with a flag, [fs.open],
    [filehandle.read], [filehandle.close], [glob] and [globStream]. A glob
    stream delivers its values and then ends, normally or with an error. *)
Inductive fileE : Type → Type :=
| Io {X : Type} (e : ioE X) : fileE X
| FsWriteFile (p : string) (data : Buffer) (flag : string) : fileE (result unit)
| FsOpen (p : string) : fileE (result Z)
| FileRead (fd : Z) (options : option ReadOptions) : fileE (result Buffer)
| FileClose (fd : Z) : fileE (result unit)
| GlobStream (patterns : list string) (options : GlobOptions)
  : fileE (list string * option JsError).

Inductive fileObs :=
| FIo (o : ioObs)
| FWriteFile (p : string) (data : Buffer) (flag : string) (r : result unit)
| FOpen (p : string) (r : result Z)
| FRead (fd : Z) (options : option ReadOptions) (r : result Buffer)
| FClose (fd : Z) (r : result unit)
| FGlobStream (patterns : list string) (options : GlobOptions)
    (r : list string * option JsError).

Definition file_observe (X : Type) (e : fileE X) : X → fileObs :=
  match e in fileE X return X → fileObs with
  | Io e => λ x, FIo (io_observe _ e x)
  | FsWriteFile p d f => FWriteFile p d f
  | FsOpen p => FOpen p
  | FileRead fd o => FRead fd o
  | FileClose fd => FClose fd
  | GlobStream ps o => FGlobStream ps o
  end.

(** A program over [ioE] as one over [fileE] *)
Fixpoint plift {A} (p : prog ioE A) : prog fileE A :=
  match p with
  | Ret a => Ret a
  | Vis e k => Vis (Io e) (λ x, plift (k x))
  end.

Definition lift {S A} (m : M S ioE A) : M S fileE A := λ s, plift (m s).

(** An environment for [fileE] answers the calls of [ioE] too. *)
Definition base {W} (h : handler fileE W) : handler ioE W := λ X e, h X (Io e).

(** ** [StorageRepository] *)

Module StorageRepository.

(** [this.s3Clients] is the instance state. *)
Abbreviation repo := (M (gmap string S3Client) ioE).

Definition logger (lvl : LogLevel) (msg : string) : repo unit :=
  ask (Logger lvl msg).

Definition getS3Credentials (endpoint : string) : repo (string * string * string) :=
  '(accessKeyId, secretAccessKey, region, provider) ←
    (if bool_decide (endpoint = "fly.storage.tigris.dev")
        || bool_decide (endpoint = "t3.storage.dev")
     then
       a ← ask (EnvGet "TIGRIS_ACCESS_KEY_ID");
       s ← ask (EnvGet "TIGRIS_SECRET_ACCESS_KEY");
       mret (a, s, "auto", "Tigris")
     else if Js.endsWith ".wasabisys.com" endpoint then
       a ← ask (EnvGet "WASABI_ACCESS_KEY_ID");
       s ← ask (EnvGet "WASABI_SECRET_ACCESS_KEY");
       mret (a, s, default "us-east-1" (match_s3_region ".wasabisys.com" endpoint), "Wasabi")
     else if Js.endsWith ".amazonaws.com" endpoint then
       a ← ask (EnvGet "AWS_ACCESS_KEY_ID");
       s ← ask (EnvGet "AWS_SECRET_ACCESS_KEY");
       mret (a, s, default "us-east-1" (match_s3_region ".amazonaws.com" endpoint), "AWS")
     else
       throw (new_Error ("Unsupported S3 endpoint: " +:+ endpoint +:+ ". "
                         +:+ "Supported providers: Tigris (fly.storage.tigris.dev, t3.storage.dev), Wasabi (*.wasabisys.com), AWS S3 (*.amazonaws.com)")));
  if Js.falsy accessKeyId || Js.falsy secretAccessKey then
    throw (new_Error (provider +:+ " credentials not found for endpoint: " +:+ endpoint
                      +:+ ". "
                      +:+ "Please set the appropriate environment variables for this storage provider."))
  else
    mret (default "" accessKeyId, default "" secretAccessKey, region).

(** The last line is [this.s3Clients.get(endpoint)!]; the entry is there by
    then, and a missing one would fail at the first use of the client. *)
Definition getS3Client (endpoint : string) : repo S3Client :=
  has ← gets (λ clients : gmap string S3Client, bool_decide (is_Some (clients !! endpoint)));
  (if negb has then
     '(accessKeyId, secretAccessKey, region) ← getS3Credentials endpoint;
     let client := mkS3Client region accessKeyId secretAccessKey ("https://" +:+ endpoint) in
     modify (λ clients : gmap string S3Client, <[endpoint := client]> clients);;
     logger Log ("S3 client created for endpoint: " +:+ endpoint
                 +:+ " (region: " +:+ region +:+ ")")
   else mret tt);;
  found ← gets (λ clients : gmap string S3Client, clients !! endpoint);
  match found with
  | Some client => mret client
  | None => throw (new_Error "Cannot read properties of undefined")
  end.

Definition unlink (file : string) : repo unit :=
  if negb (isRemote (Some file)) then
    catch (call (FsUnlink file))
      (λ error,
         if bool_decide (err_code error = Some "ENOENT")
         then logger Warn ("File " +:+ file +:+ " does not exist.")
         else throw error)
  else
    catch
      (parsed ← lift_result (parseCloudPath file);
       client ← getS3Client (host parsed);
       call (S3Send client (DeleteObjectCommand (bucket parsed) (key parsed)));;
       mret tt)
      (λ error,
         logger Warn ("Failed to delete S3 object " +:+ file);;
         throw error).

Definition copyFile (source target : string) : repo unit :=
  let sourceIsRemote := isRemote (Some source) in
  let targetIsRemote := isRemote (Some target) in
  if negb sourceIsRemote && negb targetIsRemote then
    call (FsCopyFile source target)
  else if sourceIsRemote && targetIsRemote then
    '(sourceBucket, sourceKey) ← lift_result (getS3BucketAndKey source);
    '(targetBucket, targetKey) ← lift_result (getS3BucketAndKey target);
    if negb (bool_decide (sourceBucket = targetBucket)) then
      throw (new_Error ("Cannot copy between different remote storage buckets: "
                        +:+ sourceBucket +:+ " -> " +:+ targetBucket))
    else
      parsed ← lift_result (parseCloudPath target);
      client ← getS3Client (host parsed);
      call (S3Send client
              (CopyObjectCommand targetBucket (sourceBucket +:+ "/" +:+ sourceKey) targetKey
                 None None));;
      mret tt
  else
    throw (new_Error ("Cannot copy between different storage backends: "
                      +:+ source +:+ " -> " +:+ target)).

Definition rename (source target : string) : repo unit :=
  let sourceIsRemote := isRemote (Some source) in
  let targetIsRemote := isRemote (Some target) in
  if negb sourceIsRemote && negb targetIsRemote then
    call (FsRename source target)
  else if sourceIsRemote && targetIsRemote then
    '(sourceBucket, sourceKey) ← lift_result (getS3BucketAndKey source);
    '(targetBucket, targetKey) ← lift_result (getS3BucketAndKey target);
    if negb (bool_decide (sourceBucket = targetBucket)) then
      throw (new_Error ("Cannot rename between different remote storage buckets: "
                        +:+ sourceBucket +:+ " -> " +:+ targetBucket))
    else
      parsed ← lift_result (parseCloudPath target);
      client ← getS3Client (host parsed);
      call (S3Send client
              (CopyObjectCommand targetBucket (sourceBucket +:+ "/" +:+ sourceKey) targetKey
                 None None));;
      unlink source
  else
    throw (new_Error ("Cannot rename between different storage backends: "
                      +:+ source +:+ " -> " +:+ target)).

(** [x || new Date()] *)
Definition or_now (d : option JsDate) : repo JsDate :=
  match d with
  | Some d => mret d
  | None => ask NewDate
  end.

(** [metadata[name]] when it is truthy *)
Definition metadata_get (metadata : gmap string string) (name : string) : option string :=
  match metadata !! name with
  | Some v => if Js.falsy (Some v) then None else Some v
  | None => None
  end.

Definition stat (node : NodeLib) (filepath : string) : repo Stats :=
  if negb (isRemote (Some filepath)) then
    call (FsStat filepath)
  else
    parsed ← lift_result (parseCloudPath filepath);
    client ← getS3Client (host parsed);
    response ← call (S3Send client (HeadObjectCommand (bucket parsed) (key parsed)));
    let metadata := default ∅ (Metadata response) in
    mtime0 ← or_now (LastModified response);
    atime0 ← or_now (LastModified response);
    let mtime :=
      match metadata_get metadata "immich-last-modified" with
      | Some v => Date_parse node v
      | None => mtime0
      end in
    let atime :=
      match metadata_get metadata "immich-last-accessed" with
      | Some v => Date_parse node v
      | None => atime0
      end in
    birthtime ← or_now (LastModified response);
    mret (mkStats (default 0 (ContentLength response)) mtime atime birthtime).

Definition utimes (node : NodeLib) (filepath : string) (atime mtime : JsDate) : repo unit :=
  if negb (isRemote (Some filepath)) then
    call (FsUtimes filepath atime mtime)
  else
    parsed ← lift_result (parseCloudPath filepath);
    client ← getS3Client (host parsed);
    headResponse ← call (S3Send client (HeadObjectCommand (bucket parsed) (key parsed)));
    lastAccessed ← lift_result (toISOString node atime);
    lastModified ← lift_result (toISOString node mtime);
    call (S3Send client
            (CopyObjectCommand (bucket parsed) (bucket parsed +:+ "/" +:+ key parsed)
               (key parsed)
               (Some (<["immich-last-modified" := lastModified]>
                        (<["immich-last-accessed" := lastAccessed]>
                           (default ∅ (Metadata headResponse)))))
               (Some "REPLACE")));;
    mret tt.

Definition checkFileExists (filepath : string) (mode : Z) : repo bool :=
  if negb (isRemote (Some filepath)) then
    catch (call (FsAccess filepath mode);; mret true)
          (λ _, mret false)
  else
    catch
      (parsed ← lift_result (parseCloudPath filepath);
       client ← getS3Client (host parsed);
       call (S3Send client (HeadObjectCommand (bucket parsed) (key parsed)));;
       mret true)
      (λ _, mret false).

Definition mkdirSync (filepath : string) : repo unit :=
  exists_ ← ask (FsExistsSync filepath);
  if negb exists_ then call (FsMkdirSync filepath true) else mret tt.

(** The temporary file of [writeFile]:
    [path.join(tmpdir(), `immich-write-${Date.now()}-${path.basename(filepath)}`)] *)
Definition writeFile_tempFile (node : NodeLib) (tmp : string) (now : Z)
    (filepath : string) : string :=
  path_join node tmp
    ("immich-write-" +:+ pretty now +:+ "-" +:+ path_basename node filepath).

(** The temporary file of [withLocalPath]:
    [path.join(tmpdir(), `immich-${Date.now()}-${path.basename(filepath)}`)] *)
Definition withLocalPath_tempFile (node : NodeLib) (tmp : string) (now : Z)
    (filepath : string) : string :=
  path_join node tmp
    ("immich-" +:+ pretty now +:+ "-" +:+ path_basename node filepath).

(** The [finally] block of both methods *)
Definition cleanup (tempFile : string) : repo unit :=
  catch (call (FsUnlink tempFile);;
         logger Debug ("Cleaned up temp file: " +:+ tempFile))
        (λ _, mret tt).

Definition writeFile {T} (node : NodeLib) (filepath : string)
    (callback : string → repo T) : repo T :=
  if negb (isRemote (Some filepath)) then
    callback filepath
  else
    parsed ← lift_result (parseCloudPath filepath);
    client ← getS3Client (host parsed);
    tmp ← ask Tmpdir;
    now ← ask DateNow;
    let tempFile := writeFile_tempFile node tmp now filepath in
    logger Debug ("Writing to temporary file for S3 upload: " +:+ tempFile);;
    finally
      (catch
         (result ← callback tempFile;
          logger Debug ("Uploading temporary file to S3: bucket=" +:+ bucket parsed
                        +:+ ", key=" +:+ key parsed);;
          buffer ← call (FsReadFile tempFile);
          call (S3Send client (PutObjectCommand (bucket parsed) (key parsed) buffer));;
          logger Debug ("Successfully uploaded to S3: key=" +:+ key parsed);;
          mret result)
         (λ error,
            logger Error ("Failed to write file to S3: key=" +:+ key parsed);;
            throw error))
      (cleanup tempFile).

Definition withLocalPath {T} (node : NodeLib) (filepath : string)
    (callback : string → repo T) : repo T :=
  if negb (isRemote (Some filepath)) then
    callback filepath
  else
    parsed ← lift_result (parseCloudPath filepath);
    client ← getS3Client (host parsed);
    tmp ← ask Tmpdir;
    now ← ask DateNow;
    let tempFile := withLocalPath_tempFile node tmp now filepath in
    logger Debug ("Downloading file from S3: bucket=" +:+ bucket parsed
                  +:+ ", key=" +:+ key parsed);;
    finally
      (catch
         (response ← call (S3Send client (GetObjectCommand (bucket parsed) (key parsed)));
          match Body response with
          | None => throw (new_Error ("Failed to download file from S3: " +:+ filepath
                                      +:+ " (key: " +:+ key parsed +:+ ")"))
          | Some body =>
              call (FsWriteStream tempFile body);;
              logger Debug ("Successfully downloaded file from S3 to temp file: " +:+ tempFile);;
              callback tempFile
          end)
         (λ error,
            logger Error ("Failed to download file from S3: key=" +:+ key parsed);;
            throw error))
      (cleanup tempFile).


(** *** The methods that write and read whole files, and [walk] *)

Abbreviation files := (M (gmap string S3Client) fileE).

Definition createFile (filepath : string) (buffer : Buffer) : files unit :=
  if negb (isRemote (Some filepath)) then
    call (FsWriteFile filepath buffer "wx")
  else
    parsed ← lift_result (parseCloudPath filepath);
    client ← lift (getS3Client (host parsed));
    call (Io (S3Send client (PutObjectCommand (bucket parsed) (key parsed) buffer)));;
    mret tt.

Definition createOrOverwriteFile (filepath : string) (buffer : Buffer) : files unit :=
  if negb (isRemote (Some filepath)) then
    call (FsWriteFile filepath buffer "w")
  else
    parsed ← lift_result (parseCloudPath filepath);
    client ← lift (getS3Client (host parsed));
    call (Io (S3Send client (PutObjectCommand (bucket parsed) (key parsed) buffer)));;
    mret tt.

Definition overwriteFile (filepath : string) (buffer : Buffer) : files unit :=
  if negb (isRemote (Some filepath)) then
    call (FsWriteFile filepath buffer "r+")
  else
    parsed ← lift_result (parseCloudPath filepath);
    client ← lift (getS3Client (host parsed));
    call (Io (S3Send client (PutObjectCommand (bucket parsed) (key parsed) buffer)));;
    mret tt.

(** The body of a response is held whole, so the loop that collects its
    chunks and [Buffer.concat] answer it as it is. *)
Definition readFile (filepath : string) (options : option ReadOptions) : files Buffer :=
  if negb (isRemote (Some filepath)) then
    file ← call (FsOpen filepath);
    try_finally (call (FileRead file options)) (call (FileClose file))
  else
    parsed ← lift_result (parseCloudPath filepath);
    client ← lift (getS3Client (host parsed));
    response ← call (Io (S3Send client (GetObjectCommand (bucket parsed) (key parsed))));
    match Body response with
    | None => throw (new_Error ("Failed to read file from S3: " +:+ filepath))
    | Some buffer =>
        let position := options ≫= ro_position in
        let length := options ≫= ro_length in
        if bool_decide (is_Some position) || bool_decide (is_Some length) then
          let start := default 0 position in
          let end_ :=
            match length with
            | Some l => if l =? 0 then None else Some (start + l)
            | None => None
            end in
          mret (JsMore.subarray buffer start end_)
        else mret buffer
    end.

Definition asGlob (lib : GlobLib) (pathToCrawl : string) : string :=
  let escapedPath :=
    JsMore.replaceAll "`" "[`]"
      (JsMore.replaceAll "'" "[']"
         (JsMore.replaceAll "034" (String "[" (String "034" "]"))
            (escapePath lib pathToCrawl))) in
  let extensions := "*{" +:+ Js.join "," (getSupportedFileExtensions lib) +:+ "}" in
  escapedPath +:+ "/**/" +:+ extensions.

Definition globOptions (options : CrawlOptionsDto) : GlobOptions :=
  mkGlobOptions true false true (includeHidden options) (exclusionPatterns options).

(** The loop of [walk] over the values of the stream: the batches yielded
    and the batch at hand when the stream ends. *)
Fixpoint walk_loop (take : Z) (stream : list string) (batch : list string)
  : list (list string) * list string :=
  match stream with
  | [] => ([], batch)
  | value :: stream' =>
      let batch := (batch ++ [value])%list in
      if Z.of_nat (length batch) =? take then
        let rest := walk_loop take stream' [] in
        (batch :: rest.1, rest.2)
      else walk_loop take stream' batch
  end.

(** [walk], run to its end: the batches it yields, in order, and the error
    it ends with when the stream fails. *)
Definition walk (lib : GlobLib) (walkOptions : WalkOptionsDto)
  : files (list (list string) * option JsError) :=
  let options := walk_crawl walkOptions in
  if bool_decide (length (pathsToCrawl options) = 0%nat) then mret ([], None)
  else
    let globbedPaths := List.map (asGlob lib) (pathsToCrawl options) in
    stream ← ask (GlobStream globbedPaths (globOptions options));
    let loop := walk_loop (walk_take walkOptions) stream.1 [] in
    match stream.2 with
    | Some error => mret (loop.1, Some error)
    | None =>
        if (0 <? length loop.2)%nat then mret ((loop.1 ++ [loop.2])%list, None)
        else mret (loop.1, None)
    end.

End StorageRepository.

(** ** [StorageCore] *)

Inductive PathType :=
| Original | FullSize | Preview | Thumbnail | EncodedVideo | Sidecar | Face.

Definition PathType_eqb (a b : PathType) : bool :=
  match a, b with
  | Original, Original | FullSize, FullSize | Preview, Preview
  | Thumbnail, Thumbnail | EncodedVideo, EncodedVideo | Sidecar, Sidecar
  | Face, Face => true
  | _, _ => false
  end.

Inductive AssetFileType := FileFullSize | FilePreview | FileThumbnail.

Inductive AssetField := originalPath | encodedVideoPath | sidecarPath.

Record AssetInfo := mkAssetInfo { sizeInBytes : Z; checksum : Buffer }.

Module MoveRequest.
Record t := mk {
  entityId : string;
  pathType : PathType;
  oldPath : option string;
  newPath : string;
  assetInfo : option AssetInfo
}.
End MoveRequest.

(** A row of the move table *)
Module Move.
Record t := mk {
  id : string;
  entityId : string;
  pathType : PathType;
  oldPath : string;
  newPath : string
}.
End Move.

Record SystemConfig := mkConfig { hashVerificationEnabled : bool }.

(** The collaborators of [StorageCore.moveFile]: the storage repository, the
    move repository, the configuration, the crypto repository, the asset and
    person repositories and the logger. *)
Inductive coreE : Type → Type :=
| CheckFileExists (p : string) : coreE (result bool)
| Stat (p : string) : coreE (result Stats)
| Rename (src dst : string) : coreE (result unit)
| CopyFile (src dst : string) : coreE (result unit)
| Utimes (p : string) (at_ mt : JsDate) : coreE (result unit)
| Unlink (p : string) : coreE (result unit)
| MkdirSync (p : string) : coreE (result unit)
| MoveGetByEntity (entityId : string) (pathType : PathType) : coreE (result (option Move.t))
| MoveCreate (entityId : string) (pathType : PathType) (oldPath newPath : string)
  : coreE (result Move.t)
| MoveUpdate (id : string) (oldPath newPath : string) : coreE (result Move.t)
| MoveDelete (id : string) : coreE (result unit)
| GetConfig : coreE (result SystemConfig)
| HashFile (p : string) : coreE (result Buffer)
| AssetUpdate (id : string) (field : AssetField) (path : string) : coreE (result unit)
| AssetUpsertFile (assetId : string) (type : AssetFileType) (path : string) : coreE (result unit)
| PersonUpdate (id : string) (thumbnailPath : string) : coreE (result unit)
| CoreLogger (lvl : LogLevel) (msg : string) : coreE unit.

Inductive coreObs :=
| OCheckFileExists (p : string) (r : result bool)
| OStat (p : string) (r : result Stats)
| ORename (src dst : string) (r : result unit)
| OCopyFile (src dst : string) (r : result unit)
| OUtimes (p : string) (at_ mt : JsDate) (r : result unit)
| OUnlink (p : string) (r : result unit)
| OMkdirSync (p : string) (r : result unit)
| OMoveGetByEntity (entityId : string) (pathType : PathType) (r : result (option Move.t))
| OMoveCreate (entityId : string) (pathType : PathType) (oldPath newPath : string)
    (r : result Move.t)
| OMoveUpdate (id : string) (oldPath newPath : string) (r : result Move.t)
| OMoveDelete (id : string) (r : result unit)
| OGetConfig (r : result SystemConfig)
| OHashFile (p : string) (r : result Buffer)
| OAssetUpdate (id : string) (field : AssetField) (path : string) (r : result unit)
| OAssetUpsertFile (assetId : string) (type : AssetFileType) (path : string) (r : result unit)
| OPersonUpdate (id : string) (thumbnailPath : string) (r : result unit)
| OLogger (lvl : LogLevel) (msg : string).

Definition core_observe (X : Type) (e : coreE X) : X → coreObs :=
  match e in coreE X return X → coreObs with
  | CheckFileExists p => OCheckFileExists p
  | Stat p => OStat p
  | Rename a b => ORename a b
  | CopyFile a b => OCopyFile a b
  | Utimes p a m => OUtimes p a m
  | Unlink p => OUnlink p
  | MkdirSync p => OMkdirSync p
  | MoveGetByEntity i t => OMoveGetByEntity i t
  | MoveCreate i t o n => OMoveCreate i t o n
  | MoveUpdate i o n => OMoveUpdate i o n
  | MoveDelete i => OMoveDelete i
  | GetConfig => OGetConfig
  | HashFile p => OHashFile p
  | AssetUpdate i f p => OAssetUpdate i f p
  | AssetUpsertFile i t p => OAssetUpsertFile i t p
  | PersonUpdate i p => OPersonUpdate i p
  | CoreLogger lvl msg => λ _, OLogger lvl msg
  end.

Module StorageCore.

(** [StorageCore] keeps no state of its own between the calls of [moveFile]. *)
Abbreviation core := (M unit coreE).

Definition logger (lvl : LogLevel) (msg : string) : core unit :=
  ask (CoreLogger lvl msg).

(** The two messages about the checksum are logged without the base64
    renderings of the checksums. *)
Definition verifyNewPathContentsMatchesExpected (oldPath newPath : string)
    (assetInfo : option AssetInfo) : core bool :=
  oldStat ← call (Stat oldPath);
  newStat ← call (Stat newPath);
  let oldPathSize :=
    match assetInfo with
    | Some info => sizeInBytes info
    | None => size oldStat
    end in
  let newPathSize := size newStat in
  logger Debug ("File size check: " +:+ pretty newPathSize +:+ " === "
                +:+ pretty oldPathSize);;
  if negb (newPathSize =? oldPathSize) then
    logger Warn ("Unable to complete move. File size mismatch: " +:+ pretty newPathSize
                 +:+ " !== " +:+ pretty oldPathSize);;
    mret false
  else
    config ← call GetConfig;
    match assetInfo with
    | Some info =>
        if hashVerificationEnabled config then
          newChecksum ← call (HashFile newPath);
          if negb (Buffer_equals newChecksum (checksum info)) then
            logger Warn "Unable to complete move. File checksum mismatch";;
            mret false
          else
            logger Debug "File checksum check";;
            mret true
        else mret true
    | None => mret true
    end.

Definition ensureFolders (node : NodeLib) (input : string) : core unit :=
  let isCloudPath :=
    negb (Js.startsWith "/" input)
    && (3 <=? length (Js.split "/" input))%nat
    && Js.includes "." (Js.at_ (Js.split "/" input) 0) in
  if negb isCloudPath then call (MkdirSync (path_dirname node input))
  else mret tt.

Definition savePath (pathType : PathType) (id : string) (newPath : string) : core unit :=
  match pathType with
  | Original => call (AssetUpdate id originalPath newPath)
  | FullSize => call (AssetUpsertFile id FileFullSize newPath)
  | Preview => call (AssetUpsertFile id FilePreview newPath)
  | Thumbnail => call (AssetUpsertFile id FileThumbnail newPath)
  | EncodedVideo => call (AssetUpdate id encodedVideoPath newPath)
  | Sidecar => call (AssetUpdate id sidecarPath newPath)
  | Face => call (PersonUpdate id newPath)
  end.

(** The branch [if (move) { ... }] of [moveFile]: an earlier move of this
    entity was left unfinished. The answer is [None] where the source
    returns from [moveFile], and the updated row otherwise. *)
Definition moveFile_resume (move : Move.t) (newPath : string)
    (assetInfo : option AssetInfo) : core (option Move.t) :=
  logger Log ("Attempting to finish incomplete move: "
              +:+ Move.oldPath move +:+ " => " +:+ Move.newPath move);;
  oldPathExists ← call (CheckFileExists (Move.oldPath move));
  newPathExists ← call (CheckFileExists (Move.newPath move));
  let newPathCheck := if (newPathExists : bool) then Some (Move.newPath move) else None in
  let actualPath := if (oldPathExists : bool) then Some (Move.oldPath move) else newPathCheck in
  if Js.falsy actualPath then
    logger Warn "Unable to complete move. File does not exist at either location.";;
    mret None
  else
    let actual := default "" actualPath in
    let fileAtNewLocation := bool_decide (actual = Move.newPath move) in
    logger Log ("Found file at " +:+ (if fileAtNewLocation then "new" else "old")
                +:+ " location");;
    verified ←
      (if fileAtNewLocation then
         verifyNewPathContentsMatchesExpected (Move.oldPath move) (Move.newPath move)
           assetInfo
       else mret true);
    if negb verified then
      logger Fatal "Skipping move as file verification failed, old file is missing and new file is different to what was expected";;
      mret None
    else
      updated ← call (MoveUpdate (Move.id move) actual newPath);
      mret (Some updated).

(** The block [if (move.oldPath !== newPath) { ... }] of [moveFile]. The
    answer is [false] where the source returns from [moveFile], and [true]
    where it goes on to save the new path. *)
Definition moveFile_relocate (move : Move.t) (newPath : string)
    (assetInfo : option AssetInfo) : core bool :=
  if negb (bool_decide (Move.oldPath move = newPath)) then
    catch
      (logger Debug ("Attempting to rename file: " +:+ Move.oldPath move
                     +:+ " => " +:+ newPath);;
       call (Rename (Move.oldPath move) newPath);;
       mret true)
      (λ error,
         if negb (bool_decide (err_code error = Some "EXDEV")) then
           logger Warn ("Unable to complete move. Error renaming file with code "
                        +:+ default "undefined" (err_code error)
                        +:+ " and message: " +:+ err_message error);;
           mret false
         else
           logger Debug "Unable to rename file. Falling back to copy, verify and delete";;
           call (CopyFile (Move.oldPath move) newPath);;
           verified ← verifyNewPathContentsMatchesExpected (Move.oldPath move) newPath
                        assetInfo;
           if negb verified then
             logger Warn "Skipping move due to file size mismatch";;
             call (Unlink newPath);;
             mret false
           else
             stats ← call (Stat (Move.oldPath move));
             call (Utimes newPath (atime stats) (mtime stats));;
             catch (call (Unlink (Move.oldPath move)))
               (λ error,
                  logger Warn ("Unable to delete old file, it will now no longer be tracked by Immich: "
                               +:+ err_message error));;
             mret true)
  else mret true.

(** The rest of [moveFile] once the row [move] is at hand: the check for the
    asset info of an original, the relocation, [savePath] and the removal of
    the row. *)
Definition moveFile_finish (pathType : PathType) (entityId newPath : string)
    (assetInfo : option AssetInfo) (move : Move.t) : core unit :=
  if PathType_eqb pathType Original && negb (bool_decide (is_Some assetInfo)) then
    logger Warn ("Unable to complete move. Missing asset info for " +:+ entityId);;
    mret tt
  else
    proceed ← moveFile_relocate move newPath assetInfo;
    if (proceed : bool) then
      savePath pathType entityId newPath;;
      call (MoveDelete (Move.id move))
    else mret tt.

Definition moveFile (node : NodeLib) (request : MoveRequest.t) : core unit :=
  let entityId := MoveRequest.entityId request in
  let pathType := MoveRequest.pathType request in
  let newPath := MoveRequest.newPath request in
  let assetInfo := MoveRequest.assetInfo request in
  if Js.falsy (MoveRequest.oldPath request)
     || bool_decide (MoveRequest.oldPath request = Some newPath)
  then mret tt
  else
    let oldPath := default "" (MoveRequest.oldPath request) in
    ensureFolders node newPath;;
    found ← call (MoveGetByEntity entityId pathType);
    current ←
      match found with
      | Some move => moveFile_resume move newPath assetInfo
      | None =>
          created ← call (MoveCreate entityId pathType oldPath newPath);
          mret (Some created)
      end;
    match current with
    | None => mret tt
    | Some move => moveFile_finish pathType entityId newPath assetInfo move
    end.


(** *** The path helpers. The module variable [mediaLocation] is an
    argument. *)

Definition getMediaLocation (mediaLocation : option string) : result string :=
  match mediaLocation with
  | None => Throw (new_Error "Media location is not set.")
  | Some location => Ok location
  end.

Definition addStoragePrefix (mediaLocation : option string) (localPath : string)
  : result string :=
  match getMediaLocation mediaLocation with
  | Throw e => Throw e
  | Ok mediaLocation =>
      if negb (Js.startsWith "/" mediaLocation) then
        let path := if Js.startsWith "/" localPath then JsMore.slice 1 localPath
                    else localPath in
        Ok (mediaLocation +:+ "/" +:+ path)
      else Ok localPath
  end.

(** [resolve] of [node:path] is an argument. *)
Definition isImmichPath (resolve : string → string) (mediaLocation : option string)
    (path : string) : result bool :=
  if negb (Js.startsWith "/" path) then
    let parts := Js.split "/" path in
    if (3 <=? length parts)%nat && Js.includes "." (Js.at_ parts 0) then Ok true
    else Ok false
  else
    let resolvedPath := resolve path in
    match getMediaLocation mediaLocation with
    | Throw e => Throw e
    | Ok resolvedAppMediaLocation =>
        let normalizedPath :=
          if Js.endsWith "/" resolvedPath then resolvedPath
          else resolvedPath +:+ "/" in
        let normalizedAppMediaLocation :=
          if Js.endsWith "/" resolvedAppMediaLocation then resolvedAppMediaLocation
          else resolvedAppMediaLocation +:+ "/" in
        Ok (Js.startsWith normalizedAppMediaLocation normalizedPath)
    end.

End StorageCore.

(** ** [server/src/utils/file.ts] *)

Module FileUtil.

Definition isCloudPath (filepath : string) : bool :=
  if Js.startsWith "/" filepath then false
  else
    let parts := Js.split "/" filepath in
    if (3 <=? length parts)%nat && Js.includes "." (Js.at_ parts 0) then true
    else false.

End FileUtil.

(** ** Reading the outcome and the calls of a run *)

Definition exec {E : Type → Type} {W O S A : Type} (observe : ∀ X, E X → X → O)
    (h : handler E W) (m : M S E A) (s : S) (w : W) : result A * S * W * list O :=
  run observe h (m s) w.

Definition result_of {A S W O} (r : result A * S * W * list O) : result A := r.1.1.1.
Definition state_of {A S W O} (r : result A * S * W * list O) : S := r.1.1.2.
Definition world_of {A S W O} (r : result A * S * W * list O) : W := r.1.2.
Definition trace_of {A S W O} (r : result A * S * W * list O) : list O := r.2.

(** ** A model environment

    A small file system, object store and move table against which the two
    classes can be run together. It fixes what Node's [fs] answers on a
    path that is there and on one that is not; the theorems about all
    environments do not depend on it. *)

Module Model.

Record File := mkFile {
  f_size : Z;
  f_content : Buffer;
  f_atime : JsDate;
  f_mtime : JsDate
}.

Record Node := mkNode {
  files : gmap string File;
  dirs : gset string;
  mounts : list string;          (* mount points other than the root *)
  copy_as : File → File;         (* what a copy writes: the identity on a healthy disk *)
  objects : gmap string File;    (* object store, keyed by host/bucket/key *)
  s3_down : bool;                (* the object store rejects every request *)
  env : gmap string string;
  clock : Z
}.

Definition ENOENT : JsError := mkError (Some "ENOENT") "no such file or directory".
Definition EXDEV : JsError := mkError (Some "EXDEV") "cross-device link not permitted".
Definition NotFound : JsError := mkError None "NotFound".
Definition ServiceUnavailable : JsError := mkError None "ServiceUnavailable".

(** The mount point a path lives under, [None] for the root file system *)
Definition device (w : Node) (p : string) : option string :=
  List.find (λ m, Js.startsWith m p) (mounts w).

Definition set_files (f : gmap string File → gmap string File) (w : Node) : Node :=
  mkNode (f (files w)) (dirs w) (mounts w) (copy_as w) (objects w) (s3_down w)
    (env w) (clock w).

Definition set_dirs (f : gset string → gset string) (w : Node) : Node :=
  mkNode (files w) (f (dirs w)) (mounts w) (copy_as w) (objects w) (s3_down w)
    (env w) (clock w).

Definition set_objects (f : gmap string File → gmap string File) (w : Node) : Node :=
  mkNode (files w) (dirs w) (mounts w) (copy_as w) (f (objects w)) (s3_down w)
    (env w) (clock w).

Definition stats_of (f : File) : Stats :=
  mkStats (f_size f) (f_mtime f) (f_atime f) (f_mtime f).

(** Two faulty copies: one loses the last byte, one keeps the length and
    changes every byte. *)
Definition truncated (f : File) : File :=
  mkFile (f_size f - 1) (removelast (f_content f)) (f_atime f) (f_mtime f).

Definition zeroed (f : File) : File :=
  mkFile (f_size f) (List.map (λ _, Byte.x00) (f_content f)) (f_atime f) (f_mtime f).

Definition endpoint_host (client : S3Client) : string :=
  substring 8 (String.length (client_endpoint client) - 8) (client_endpoint client).

Definition object_name (client : S3Client) (bucket key : string) : string :=
  endpoint_host client +:+ "/" +:+ bucket +:+ "/" +:+ key.

Definition empty_response : S3Response := mkS3Response None None None None None.

Definition s3 (client : S3Client) (cmd : S3Command) (w : Node)
  : result S3Response * Node :=
  if s3_down w then (Throw ServiceUnavailable, w) else
  match cmd with
  | HeadObjectCommand b k =>
      match objects w !! object_name client b k with
      | Some f => (Ok (mkS3Response None (Some (f_size f)) None (Some (f_mtime f)) None), w)
      | None => (Throw NotFound, w)
      end
  | GetObjectCommand b k =>
      match objects w !! object_name client b k with
      | Some f => (Ok (mkS3Response (Some (f_content f)) (Some (f_size f)) None
                         (Some (f_mtime f)) None), w)
      | None => (Throw NotFound, w)
      end
  | PutObjectCommand b k body =>
      (Ok empty_response,
       set_objects (insert (object_name client b k)
                      (mkFile (Z.of_nat (length body)) body (ValidDate (clock w))
                         (ValidDate (clock w)))) w)
  | CopyObjectCommand b src k _ _ =>
      match objects w !! (endpoint_host client +:+ "/" +:+ src) with
      | Some f => (Ok empty_response, set_objects (insert (object_name client b k) f) w)
      | None => (Throw NotFound, w)
      end
  | DeleteObjectCommand b k =>
      (Ok empty_response, set_objects (delete (object_name client b k)) w)
  end.

Definition fs : handler ioE Node :=
  λ X e,
    match e in ioE X return Node → X * Node with
    | FsAccess p _ => λ w,
        if bool_decide (is_Some (files w !! p)) || bool_decide (p ∈ dirs w)
        then (Ok tt, w) else (Throw ENOENT, w)
    | FsStat p => λ w,
        match files w !! p with
        | Some f => (Ok (stats_of f), w)
        | None => (Throw ENOENT, w)
        end
    | FsRename src dst => λ w,
        match files w !! src with
        | None => (Throw ENOENT, w)
        | Some f =>
            if bool_decide (device w src = device w dst)
            then (Ok tt, set_files (λ m, <[dst := f]> (delete src m)) w)
            else (Throw EXDEV, w)
        end
    | FsCopyFile src dst => λ w,
        match files w !! src with
        | None => (Throw ENOENT, w)
        | Some f =>
            (Ok tt, set_files (insert dst (copy_as w f)) w)
        end
    | FsUtimes p a m => λ w,
        match files w !! p with
        | None => (Throw ENOENT, w)
        | Some f =>
            (Ok tt, set_files (insert p (mkFile (f_size f) (f_content f) a m)) w)
        end
    | FsUnlink p => λ w,
        match files w !! p with
        | None => (Throw ENOENT, w)
        | Some _ => (Ok tt, set_files (delete p) w)
        end
    | FsReadFile p => λ w,
        match files w !! p with
        | None => (Throw ENOENT, w)
        | Some f => (Ok (f_content f), w)
        end
    | FsWriteStream p data => λ w,
        (Ok tt,
         set_files (insert p (mkFile (Z.of_nat (length data)) data (ValidDate (clock w))
                                (ValidDate (clock w)))) w)
    | FsExistsSync p => λ w,
        (bool_decide (is_Some (files w !! p)) || bool_decide (p ∈ dirs w), w)
    | FsMkdirSync p _ => λ w, (Ok tt, set_dirs (λ d, {[p]} ∪ d) w)
    | EnvGet name => λ w, (env w !! name, w)
    | DateNow => λ w, (clock w, w)
    | NewDate => λ w, (ValidDate (clock w), w)
    | Tmpdir => λ w, ("/tmp", w)
    | S3Send client cmd => s3 client cmd
    | Logger _ _ => λ w, (tt, w)
    end.

(** [path.dirname], [path.basename] and [path.join] on the normalised
    paths of the examples; dates are not parsed. *)
Definition dirname (p : string) : string :=
  match removelast (Js.split "/" p) with
  | [] => "."
  | [""] => "/"
  | parts => Js.join "/" parts
  end.

Definition basename (p : string) : string := List.last (Js.split "/" p) "".

Definition posix : NodeLib :=
  mkNodeLib dirname basename (λ a b, a +:+ "/" +:+ b) (λ _, InvalidDate) (λ ms, pretty ms).

(** The whole system: Node, the storage repository's client cache, the move
    table, the configuration and the paths saved on the owning entities. *)
Record System := mkSystem {
  node : Node;
  s3Clients : gmap string S3Client;
  moves : list Move.t;
  next_move : nat;
  config : SystemConfig;
  saved : list (string * string)
}.

Definition with_node (s : System) (w : Node) (c : gmap string S3Client) : System :=
  mkSystem w c (moves s) (next_move s) (config s) (saved s).

Definition with_moves (s : System) (m : list Move.t) (n : nat) : System :=
  mkSystem (node s) (s3Clients s) m n (config s) (saved s).

Definition with_saved (s : System) (id path : string) : System :=
  mkSystem (node s) (s3Clients s) (moves s) (next_move s) (config s)
    ((id, path) :: saved s).

(** A method of [StorageRepository], run on the model of Node *)
Definition storage {A} (m : StorageRepository.repo A) (s : System) : result A * System :=
  let res := exec io_observe fs m (s3Clients s) (node s) in
  (result_of res, with_node s (world_of res) (state_of res)).

Definition same_key (entityId : string) (pathType : PathType) (m : Move.t) : bool :=
  bool_decide (Move.entityId m = entityId) && PathType_eqb (Move.pathType m) pathType.

(** Modelled from the spec: the move repository, whose code is not part of
    the sources at hand; "a durable record store exposing
    create/getByKey/update/delete for MoveIntent", with at most one row per
    entity and path kind. [update] answers the row as updated. *)
Definition move_getByEntity (i : string) (t : PathType) (s : System)
  : result (option Move.t) * System :=
  (Ok (List.find (same_key i t) (moves s)), s).

(** Modelled from the spec: [create] of the move repository; the row gets a
    fresh id. *)
Definition move_create (i : string) (t : PathType) (o n : string) (s : System)
  : result Move.t * System :=
  let row := Move.mk ("move-" +:+ pretty (next_move s)) i t o n in
  (Ok row, with_moves s (row :: moves s) (S (next_move s))).

(** Modelled from the spec: [update] of the move repository, by row id. *)
Definition move_update (i o n : string) (s : System) : result Move.t * System :=
  match List.find (λ m, bool_decide (Move.id m = i)) (moves s) with
  | Some m =>
      let row := Move.mk i (Move.entityId m) (Move.pathType m) o n in
      (Ok row,
       with_moves s
         (row :: List.filter (λ m, negb (bool_decide (Move.id m = i))) (moves s))
         (next_move s))
  | None => (Throw (new_Error "no such move"), s)
  end.

(** Modelled from the spec: [delete] of the move repository, by row id. *)
Definition move_delete (i : string) (s : System) : result unit * System :=
  (Ok tt,
   with_moves s (List.filter (λ m, negb (bool_decide (Move.id m = i))) (moves s))
     (next_move s)).

(** Modelled from the spec: the collaborators of [StorageCore] other than
    the storage repository, whose code is not part of the sources at hand.
    The configuration is a stored value, the content hash of a file is its
    content, and the asset and person repositories record the path saved
    for an entity. The storage repository is the code above, run on the
    model of Node. *)
Definition system : handler coreE System :=
  λ X e,
    match e in coreE X return System → X * System with
    | CheckFileExists p => storage (StorageRepository.checkFileExists p F_OK)
    | Stat p => storage (StorageRepository.stat posix p)
    | Rename a b => storage (StorageRepository.rename a b)
    | CopyFile a b => storage (StorageRepository.copyFile a b)
    | Utimes p a m => storage (StorageRepository.utimes posix p a m)
    | Unlink p => storage (StorageRepository.unlink p)
    | MkdirSync p => storage (StorageRepository.mkdirSync p)
    | MoveGetByEntity i t => move_getByEntity i t
    | MoveCreate i t o n => move_create i t o n
    | MoveUpdate i o n => move_update i o n
    | MoveDelete i => move_delete i
    | GetConfig => λ s, (Ok (config s), s)
    | HashFile p => λ s,
        match files (node s) !! p with
        | Some f => (Ok (f_content f), s)
        | None => (Throw ENOENT, s)
        end
    | AssetUpdate i _ p => λ s, (Ok tt, with_saved s i p)
    | AssetUpsertFile i _ p => λ s, (Ok tt, with_saved s i p)
    | PersonUpdate i p => λ s, (Ok tt, with_saved s i p)
    | CoreLogger _ _ => λ s, (tt, s)
    end.

(** [await core.moveFile(request)] on the model: the outcome, the system
    afterwards and the calls made. *)
Definition moveFile (request : MoveRequest.t) (s : System)
  : result unit * unit * System * list coreObs :=
  exec core_observe system (StorageCore.moveFile posix request) tt s.

(** A method of the storage repository on the model of Node, from an empty
    client cache *)
Definition repository {A} (m : StorageRepository.repo A) (w : Node)
  : result A * gmap string S3Client * Node * list ioObs :=
  exec io_observe fs m ∅ w.


(** *** The calls of [fileE] on the model

    [fs.writeFile] obeys its flag: [wx] refuses a file that is there, [r+]
    one that is not. A file handle is the path it was opened on, numbered
    from 3 in the order of opening; [filehandle.read] answers the bytes from
    the position on, as many as asked for. What [glob] finds is given with
    the disk. *)
Record Disk := mkDisk {
  disk_node : Node;
  disk_found : list string;
  disk_open : list string
}.

Definition EEXIST : JsError := mkError (Some "EEXIST") "file already exists".
Definition EBADF : JsError := mkError (Some "EBADF") "bad file descriptor".

Definition on_node (f : Node → Node) (d : Disk) : Disk :=
  mkDisk (f (disk_node d)) (disk_found d) (disk_open d).

Definition written (data : Buffer) (w : Node) : File :=
  mkFile (Z.of_nat (length data)) data (ValidDate (clock w)) (ValidDate (clock w)).

Definition write_flagged (p : string) (data : Buffer) (flag : string) (d : Disk)
  : result unit * Disk :=
  let w := disk_node d in
  let there := bool_decide (is_Some (files w !! p)) in
  if bool_decide (flag = "wx") && there then (Throw EEXIST, d)
  else if bool_decide (flag = "r+") && negb there then (Throw ENOENT, d)
  else (Ok tt, on_node (set_files (insert p (written data w))) d).

Definition read_handle (fd : Z) (options : option ReadOptions) (d : Disk)
  : result Buffer * Disk :=
  match disk_open d !! Z.to_nat (fd - 3) with
  | Some p =>
      match files (disk_node d) !! p with
      | Some f =>
          let from := drop (Z.to_nat (default 0 (options ≫= ro_position))) (f_content f) in
          (Ok match options ≫= ro_length with
              | Some n => take (Z.to_nat n) from
              | None => from
              end, d)
      | None => (Throw ENOENT, d)
      end
  | None => (Throw EBADF, d)
  end.

Definition fs_files : handler fileE Disk :=
  λ X e,
    match e in fileE X return Disk → X * Disk with
    | Io e => λ d, let r := fs _ e (disk_node d) in (r.1, on_node (λ _, r.2) d)
    | FsWriteFile p data flag => write_flagged p data flag
    | FsOpen p => λ d,
        if bool_decide (is_Some (files (disk_node d) !! p))
        then (Ok (3 + Z.of_nat (length (disk_open d))),
              mkDisk (disk_node d) (disk_found d) (disk_open d ++ [p]))
        else (Throw ENOENT, d)
    | FileRead fd options => read_handle fd options
    | FileClose fd => λ d, (Ok tt, d)
    | GlobStream _ _ => λ d, ((disk_found d, None), d)
    end.

(** *** An object store that keeps metadata

    The model of Node and, for each object, the metadata it was last copied
    with. A copy with the directive [REPLACE] sets the metadata given with
    it, any other copy carries those of the source over; Head and Get answer
    them. *)
Definition Tagged : Type := Node * gmap string (gmap string string).

Definition with_metadata (md : option (gmap string string)) (r : result S3Response)
  : result S3Response :=
  match r with
  | Ok response =>
      Ok (mkS3Response (Body response) (ContentLength response) (ContentType response)
            (LastModified response) md)
  | Throw e => Throw e
  end.

Definition s3_tagged (client : S3Client) (cmd : S3Command) (t : Tagged)
  : result S3Response * Tagged :=
  let answer := s3 client cmd t.1 in
  match cmd with
  | HeadObjectCommand b k | GetObjectCommand b k =>
      (with_metadata (t.2 !! object_name client b k) answer.1, (answer.2, t.2))
  | CopyObjectCommand b src k md directive =>
      match answer.1 with
      | Ok _ =>
          let kept := if bool_decide (directive = Some "REPLACE") then md
                      else t.2 !! (endpoint_host client +:+ "/" +:+ src) in
          (answer.1,
           (answer.2,
            match kept with
            | Some m => <[object_name client b k := m]> t.2
            | None => delete (object_name client b k) t.2
            end))
      | Throw _ => (answer.1, (answer.2, t.2))
      end
  | PutObjectCommand b k _ | DeleteObjectCommand b k =>
      (answer.1, (answer.2, delete (object_name client b k) t.2))
  end.

Definition untagged {X} (e : ioE X) (t : Tagged) : X * Tagged :=
  let r := fs X e t.1 in (r.1, (r.2, t.2)).

Definition fs_tagged : handler ioE Tagged :=
  λ X e,
    match e in ioE X return Tagged → X * Tagged with
    | S3Send client cmd => s3_tagged client cmd
    | FsAccess p mode => untagged (FsAccess p mode)
    | FsStat p => untagged (FsStat p)
    | FsRename src dst => untagged (FsRename src dst)
    | FsCopyFile src dst => untagged (FsCopyFile src dst)
    | FsUtimes p a m => untagged (FsUtimes p a m)
    | FsUnlink p => untagged (FsUnlink p)
    | FsReadFile p => untagged (FsReadFile p)
    | FsWriteStream p data => untagged (FsWriteStream p data)
    | FsExistsSync p => untagged (FsExistsSync p)
    | FsMkdirSync p r => untagged (FsMkdirSync p r)
    | EnvGet name => untagged (EnvGet name)
    | DateNow => untagged DateNow
    | NewDate => untagged NewDate
    | Tmpdir => untagged Tmpdir
    | Logger lvl msg => untagged (Logger lvl msg)
    end.

End Model.


(** ** Reading traces *)

(** A property of every position of a trace: of what came before, the call
    there and what came after. *)
Definition each_split {O} (P : list O → O → list O → Prop) (tr : list O) : Prop :=
  ∀ pre x post, tr = (pre ++ x :: post)%list → P pre x post.

Definition is_logger (x : coreObs) : bool :=
  match x with OLogger _ _ => true | _ => false end.

(** The calls of a run other than those to the logger *)
Definition calls (tr : list coreObs) : list coreObs :=
  List.filter (λ x, negb (is_logger x)) tr.

(** A call that persists the new path on the owning entity or removes the
    row of the move table *)
Definition commits (x : coreObs) : bool :=
  match x with
  | OAssetUpdate _ _ _ _ | OAssetUpsertFile _ _ _ _ | OPersonUpdate _ _ _
  | OMoveDelete _ _ => true
  | _ => false
  end.


(** A call that deletes, moves or overwrites a file *)
Definition destructive (x : coreObs) : bool :=
  match x with
  | OUnlink _ _ | OCopyFile _ _ _ | OUtimes _ _ _ _ => true
  | ORename _ _ (Ok _) => true
  | _ => false
  end.

(** The size the destination must have: the caller's, else the source's *)
Definition expected_size (assetInfo : option AssetInfo) (oldStat : Stats) : Z :=
  match assetInfo with
  | Some info => sizeInBytes info
  | None => size oldStat
  end.

(** What precedes a deletion of the source [src]: the rename to [dst] failed
    across devices, the copy was made, the sizes were read and agree, the
    configuration was read and, where it enables the checksum and the caller
    gave one, the destination was hashed to that checksum; in this order. *)
Definition verified_copy (assetInfo : option AssetInfo) (src dst : string)
    (pre : list coreObs) : Prop :=
  ∃ error oldStat newStat config,
    err_code error = Some "EXDEV" ∧
    [ORename src dst (Throw error); OCopyFile src dst (Ok tt);
     OStat src (Ok oldStat); OStat dst (Ok newStat); OGetConfig (Ok config)]
      `sublist_of` pre ∧
    size newStat = expected_size assetInfo oldStat ∧
    ∀ info, assetInfo = Some info → hashVerificationEnabled config = true →
      ∃ newChecksum,
        [ORename src dst (Throw error); OCopyFile src dst (Ok tt);
         OStat src (Ok oldStat); OStat dst (Ok newStat); OGetConfig (Ok config);
         OHashFile dst (Ok newChecksum)] `sublist_of` pre ∧
        newChecksum = checksum info.

(** The same as the claim words it: the destination is hashed whenever the
    configuration enables the checksum, whether the caller gave one or not. *)
Definition verified_copy_as_claimed (assetInfo : option AssetInfo) (src dst : string)
    (pre : list coreObs) : Prop :=
  ∃ error oldStat newStat config,
    err_code error = Some "EXDEV" ∧
    [ORename src dst (Throw error); OCopyFile src dst (Ok tt);
     OStat src (Ok oldStat); OStat dst (Ok newStat); OGetConfig (Ok config)]
      `sublist_of` pre ∧
    size newStat = expected_size assetInfo oldStat ∧
    (hashVerificationEnabled config = true →
     ∃ newChecksum,
       [ORename src dst (Throw error); OCopyFile src dst (Ok tt);
        OStat src (Ok oldStat); OStat dst (Ok newStat); OGetConfig (Ok config);
        OHashFile dst (Ok newChecksum)] `sublist_of` pre).


Definition is_fs_call (o : ioObs) : bool :=
  match o with
  | IoAccess _ _ _ | IoStat _ _ | IoRename _ _ _ | IoCopyFile _ _ _ | IoUtimes _ _ _ _
  | IoUnlink _ _ | IoReadFile _ _ | IoWriteStream _ _ _ | IoExistsSync _ _
  | IoMkdirSync _ _ _ => true
  | _ => false
  end.

(** The calls to the object store, in order *)
Definition network (tr : list ioObs) : list ioObs := List.filter is_network_call tr.

(** A call that touches neither the file system nor the object store *)
Definition local_call (x : ioObs) : Prop :=
  is_fs_call x = false ∧ is_network_call x = false.

(** The outcome of a method whose last call is the request answered [a] *)
Definition settle (a : result S3Response) : result unit :=
  match a with Ok _ => Ok tt | Throw e => Throw e end.

Definition is_io_logger (x : ioObs) : bool :=
  match x with IoLogger _ _ => true | _ => false end.

(** The calls of a run of the storage repository other than those to the
    logger *)
Definition io_calls (tr : list ioObs) : list ioObs :=
  List.filter (λ x, negb (is_io_logger x)) tr.

(** The two variables of the environment that hold the credentials for an
    endpoint, and the region of the client made for it; [None] for an
    endpoint of no provider that [getS3Credentials] knows. *)
Definition provider_of (endpoint : string) : option (string * string * string) :=
  if bool_decide (endpoint = "fly.storage.tigris.dev")
     || bool_decide (endpoint = "t3.storage.dev")
  then Some ("TIGRIS_ACCESS_KEY_ID", "TIGRIS_SECRET_ACCESS_KEY", "auto")
  else if Js.endsWith ".wasabisys.com" endpoint
  then Some ("WASABI_ACCESS_KEY_ID", "WASABI_SECRET_ACCESS_KEY",
             default "us-east-1" (match_s3_region ".wasabisys.com" endpoint))
  else if Js.endsWith ".amazonaws.com" endpoint
  then Some ("AWS_ACCESS_KEY_ID", "AWS_SECRET_ACCESS_KEY",
             default "us-east-1" (match_s3_region ".amazonaws.com" endpoint))
  else None.

(** How the client for [endpoint] is had, the cache being [clients]: [env]
    are the reads of the environment made for it and [client] is the client
    had, if any. The client in the cache is had without a read. With none in
    the cache, a client is made for [https://endpoint] of the two credentials
    read, when the provider is known and both are set; no client is had for
    an unknown provider (nothing is read) or when a credential is missing. *)
Definition client_had (endpoint : string) (clients : gmap string S3Client)
    (env : list ioObs) (client : option S3Client) : Prop :=
  match clients !! endpoint with
  | Some cached => env = [] ∧ client = Some cached
  | None =>
      match provider_of endpoint with
      | None => env = [] ∧ client = None
      | Some (id_name, secret_name, region) =>
          ∃ a s,
            env = [IoEnvGet id_name a; IoEnvGet secret_name s] ∧
            client =
              if Js.falsy a || Js.falsy s then None
              else Some (mkS3Client region (default "" a) (default "" s)
                           ("https://" +:+ endpoint))
      end
  end.

(** The cache once the client for [endpoint] was had, or was not *)
Definition cache_after (endpoint : string) (clients : gmap string S3Client)
    (client : option S3Client) : gmap string S3Client :=
  match client with
  | Some c => <[endpoint := c]> clients
  | None => clients
  end.

(** What [unlink] does on the object [s], [calls] being its calls other than
    to the logger: the client for the host of [s] is had and the Delete of
    the key is sent through it, whose outcome is the outcome; when no client
    is had nothing is sent and an error is thrown. *)
Definition delete_object (s : ParsedCloudPath) (clients : gmap string S3Client)
    (res : result unit) (calls : list ioObs) : Prop :=
  ∃ env client,
    client_had (host s) clients env client ∧
    match client with
    | None => calls = env ∧ is_ok res = false
    | Some client =>
        ∃ a, calls = (env ++ [IoS3Send client
                                (DeleteObjectCommand (bucket s) (key s)) a])%list ∧
             res = settle a
    end.

(** What [rename] does from the object [s] to the object [t] when their
    bucket names are equal, [calls] being its calls other than to the logger:
    the client for the host of [t] is had and the Copy is sent through it,
    naming the source by bucket and key; after a Copy that succeeded the
    source is deleted as [unlink] does it, through the client for the host of
    [s]; a Copy that fails is the failure of [rename], and nothing is deleted.
    When no client is had for the host of [t] nothing is sent. *)
Definition copy_then_delete (s t : ParsedCloudPath) (clients : gmap string S3Client)
    (res : result unit) (calls : list ioObs) : Prop :=
  ∃ env client,
    client_had (host t) clients env client ∧
    match client with
    | None => calls = env ∧ is_ok res = false
    | Some client =>
        ∃ a rest,
          calls = (env ++ IoS3Send client
                            (CopyObjectCommand (bucket t) (bucket s +:+ "/" +:+ key s)
                               (key t) None None) a :: rest)%list ∧
          match a with
          | Throw e => rest = [] ∧ res = Throw e
          | Ok _ =>
              delete_object s (cache_after (host t) clients (Some client)) res rest
          end
    end.

(** What [checkFileExists] does on the object [s], [calls] being its calls
    other than to the logger: the client for the host of [s] is had and the
    Head of the key is sent through it; the answer is [true] exactly when the
    Head succeeds, and [false] when no client is had; nothing is thrown. *)
Definition probe_object (s : ParsedCloudPath) (clients : gmap string S3Client)
    (res : result bool) (calls : list ioObs) : Prop :=
  ∃ env client,
    client_had (host s) clients env client ∧
    match client with
    | None => calls = env ∧ res = Ok false
    | Some client =>
        ∃ a, calls = (env ++ [IoS3Send client
                                (HeadObjectCommand (bucket s) (key s)) a])%list ∧
             res = Ok (is_ok a)
    end.

(** A call that neither deletes, moves or overwrites a file, nor commits *)
Definition quiet (y : coreObs) : Prop := destructive y = false ∧ commits y = false.

(** Any call but the lookup of the row of the move *)
Definition resume_event (x : coreObs) : Prop :=
  match x with OMoveGetByEntity _ _ _ => False | _ => True end.

(** The guard on a deletion: a call that deletes something other than the
    destination comes after a verified copy of it. *)
Definition source_guard (assetInfo : option AssetInfo) (dst : string)
    (pre : list coreObs) (x : coreObs) (post : list coreObs) : Prop :=
  match x with
  | OUnlink p _ => p ≠ dst → verified_copy assetInfo p dst pre
  | _ => True
  end.

(** The guard as the claim words it *)
Definition source_guard_as_claimed (assetInfo : option AssetInfo) (dst : string)
    (pre : list coreObs) (x : coreObs) (post : list coreObs) : Prop :=
  match x with
  | OUnlink p _ => p ≠ dst → verified_copy_as_claimed assetInfo p dst pre
  | _ => True
  end.

(** A call that does not hash, and that does not read a configuration in
    which the checksum is disabled *)
Definition no_hash (x : coreObs) : Prop :=
  match x with
  | OGetConfig (Ok config) => hashVerificationEnabled config = true
  | OHashFile _ _ => False
  | _ => True
  end.


(** The error a call was answered with *)
Definition thrown (x : coreObs) : option JsError :=
  match x with
  | OCheckFileExists _ (Throw e) | OStat _ (Throw e) | ORename _ _ (Throw e)
  | OCopyFile _ _ (Throw e) | OUtimes _ _ _ (Throw e) | OUnlink _ (Throw e)
  | OMkdirSync _ (Throw e) | OMoveGetByEntity _ _ (Throw e)
  | OMoveCreate _ _ _ _ (Throw e) | OMoveUpdate _ _ _ (Throw e)
  | OMoveDelete _ (Throw e) | OGetConfig (Throw e) | OHashFile _ (Throw e)
  | OAssetUpdate _ _ _ (Throw e) | OAssetUpsertFile _ _ _ (Throw e)
  | OPersonUpdate _ _ (Throw e) => Some e
  | _ => None
  end.

(** The call that saves the path [newPath] on the entity [id], for a kind of
    path: on the asset, on a file of the asset, or on the person *)
Definition saves (pathType : PathType) (id newPath : string) (x : coreObs) : Prop :=
  match x with
  | OAssetUpdate i field p _ =>
      i = id ∧ p = newPath ∧
      match pathType, field with
      | Original, originalPath | EncodedVideo, encodedVideoPath
      | Sidecar, sidecarPath => True
      | _, _ => False
      end
  | OAssetUpsertFile i type p _ =>
      i = id ∧ p = newPath ∧
      match pathType, type with
      | FullSize, FileFullSize | Preview, FilePreview
      | Thumbnail, FileThumbnail => True
      | _, _ => False
      end
  | OPersonUpdate i p _ => i = id ∧ p = newPath ∧ pathType = Face
  | _ => False
  end.

(** How a verification of the copy ends *)
Inductive Verdict := Passed | Failed | Thrown (e : JsError).

(** The hashing of the destination once the sizes agree and the
    configuration [config] was read: one call where the configuration enables
    the checksum and the caller gave one, whose answer is compared to it; no
    call otherwise. *)
Definition hashing (assetInfo : option AssetInfo) (config : SystemConfig) (dst : string)
    (hs : list coreObs) (v : Verdict) : Prop :=
  match assetInfo with
  | Some info =>
      if hashVerificationEnabled config
      then ∃ answer,
             hs = [OHashFile dst answer] ∧
             v = match answer with
                 | Throw e => Thrown e
                 | Ok newChecksum =>
                     if Buffer_equals newChecksum (checksum info) then Passed else Failed
                 end
      else hs = [] ∧ v = Passed
  | None => hs = [] ∧ v = Passed
  end.

(** The calls [vs] of a verification of the copy of [src] at [dst] and how
    it ends: the size of the source is read, then that of the destination;
    sizes that differ fail it at once; when they agree the configuration is
    read and the destination is hashed as [hashing] says. A call that throws
    is the last one. *)
Definition verification (assetInfo : option AssetInfo) (src dst : string)
    (vs : list coreObs) (v : Verdict) : Prop :=
  (∃ e, vs = [OStat src (Throw e)] ∧ v = Thrown e)
  ∨ (∃ oldStat e,
       vs = [OStat src (Ok oldStat); OStat dst (Throw e)] ∧ v = Thrown e)
  ∨ (∃ oldStat newStat,
       vs = [OStat src (Ok oldStat); OStat dst (Ok newStat)] ∧
       size newStat ≠ expected_size assetInfo oldStat ∧ v = Failed)
  ∨ (∃ oldStat newStat e,
       vs = [OStat src (Ok oldStat); OStat dst (Ok newStat); OGetConfig (Throw e)] ∧
       size newStat = expected_size assetInfo oldStat ∧ v = Thrown e)
  ∨ (∃ oldStat newStat config hs,
       vs = ([OStat src (Ok oldStat); OStat dst (Ok newStat); OGetConfig (Ok config)]
             ++ hs)%list ∧
       size newStat = expected_size assetInfo oldStat ∧
       hashing assetInfo config dst hs v).

(** The commit, the outcome of the run being [res]: the new path is saved on
    the entity, by the kind of the path; a save that threw is the last call;
    after a save that succeeded the row of the move is deleted, and the
    outcome is that of the deletion. *)
Definition commit_calls (pathType : PathType) (id newPath : string) (res : result unit)
    (commit : list coreObs) : Prop :=
  ∃ x, saves pathType id newPath x ∧
       match thrown x with
       | Some e => commit = [x] ∧ res = Throw e
       | None => ∃ row answer, commit = [x; OMoveDelete row answer] ∧ res = answer
       end.

(** What follows a verification that passed: the times of the source are
    read and set on the destination, the source is deleted and, whatever the
    deletion answers, the move is committed. A [stat] or [utimes] that throws
    is the last call. *)
Definition times_then_delete (res : result unit) (pathType : PathType)
    (id src dst : string) (tail : list coreObs) : Prop :=
  (∃ e, tail = [OStat src (Throw e)] ∧ res = Throw e)
  ∨ (∃ stats e,
       tail = [OStat src (Ok stats);
               OUtimes dst (atime stats) (mtime stats) (Throw e)] ∧
       res = Throw e)
  ∨ (∃ stats answer commit,
       tail = ([OStat src (Ok stats);
                OUtimes dst (atime stats) (mtime stats) (Ok tt);
                OUnlink src answer] ++ commit)%list ∧
       commit_calls pathType id dst res commit).

(** The calls that follow a rename of [src] to [dst] that failed across
    devices, the outcome of the run being [res]: the copy first, whose
    failure ends the run; then the verification; after a verification that
    threw, nothing; after one that failed, the deletion of the destination
    and nothing else; after one that passed, the times, the deletion of the
    source and the commit. *)
Definition fallback (res : result unit) (pathType : PathType) (id : string)
    (assetInfo : option AssetInfo) (src dst : string) (post : list coreObs) : Prop :=
  (∃ e, post = [OCopyFile src dst (Throw e)] ∧ res = Throw e)
  ∨ (∃ vs v tail,
       post = (OCopyFile src dst (Ok tt) :: vs ++ tail)%list ∧
       verification assetInfo src dst vs v ∧
       match v with
       | Thrown e => tail = [] ∧ res = Throw e
       | Failed => ∃ answer, tail = [OUnlink dst answer] ∧ res = answer
       | Passed => times_then_delete res pathType id src dst tail
       end).

(** What follows a rename that failed, by the code of the error *)
Definition on_rename_failure (res : result unit) (pathType : PathType) (id : string)
    (assetInfo : option AssetInfo) (dst : string) (pre : list coreObs) (x : coreObs)
    (post : list coreObs) : Prop :=
  match x with
  | ORename src _ (Throw error) =>
      if bool_decide (err_code error = Some "EXDEV")
      then fallback res pathType id assetInfo src dst post
      else post = [] ∧ res = Ok tt ∧
           Forall (λ y, destructive y = false ∧ commits y = false) pre
  | _ => True
  end.

(** Resuming a move of which only the new file is there: the next call is
    the [stat] of the old path, and its failure is the failure of the run. *)
Definition resume_only_new (res : result unit) (pre : list coreObs) (x : coreObs)
    (post : list coreObs) : Prop :=
  match x with
  | OMoveGetByEntity _ _ (Ok (Some move)) =>
      ∀ rest,
        post = OCheckFileExists (Move.oldPath move) (Ok false)
               :: OCheckFileExists (Move.newPath move) (Ok true) :: rest →
        Move.newPath move ≠ "" →
        ∃ rs rest', rest = OStat (Move.oldPath move) rs :: rest' ∧
                    ∀ e, rs = Throw e → rest' = [] ∧ res = Throw e
  | _ => True
  end.

(** ** Reading the runs of the other methods *)

(** The endpoints [getS3Credentials] has credentials for *)
Definition supported_endpoint (endpoint : string) : bool :=
  bool_decide (endpoint = "fly.storage.tigris.dev")
  || bool_decide (endpoint = "t3.storage.dev")
  || Js.endsWith ".wasabisys.com" endpoint
  || Js.endsWith ".amazonaws.com" endpoint.

(** The two reads of the environment that [getS3Credentials] makes for a
    provider, and its outcome on an endpoint of region [region] *)
Definition reads_credentials {W} (id_name secret_name region : string)
    (r : result (string * string * string) * gmap string S3Client * W * list ioObs)
  : Prop :=
  ∃ a s,
    trace_of r = [IoEnvGet id_name a; IoEnvGet secret_name s] ∧
    match result_of r with
    | Ok credentials =>
        a = Some credentials.1.1 ∧ s = Some credentials.1.2 ∧
        credentials.1.1 ≠ "" ∧ credentials.1.2 ≠ "" ∧ credentials.2 = region
    | Throw _ => Js.falsy a || Js.falsy s = true
    end.

(** What [copyFile] does from the object [s] to the object [t] when their
    bucket names are equal, [calls] being its calls other than to the logger:
    the client for the host of [t] is had and one Copy is sent through it,
    naming the source by bucket and key; the outcome of the Copy is the
    outcome. When no client is had nothing is sent. *)
Definition copy_object (s t : ParsedCloudPath) (clients : gmap string S3Client)
    (res : result unit) (calls : list ioObs) : Prop :=
  ∃ env client,
    client_had (host t) clients env client ∧
    match client with
    | None => calls = env ∧ is_ok res = false
    | Some client =>
        ∃ a, calls = (env ++ [IoS3Send client
                                (CopyObjectCommand (bucket t)
                                   (bucket s +:+ "/" +:+ key s) (key t) None None)
                                a])%list ∧
             res = settle a
    end.

(** The metadata [utimes] writes on an object whose metadata was [old] *)
Definition touched_metadata (lastAccessed lastModified : string)
    (old : option (gmap string string)) : gmap string string :=
  <["immich-last-modified" := lastModified]>
    (<["immich-last-accessed" := lastAccessed]> (default ∅ old)).

(** What [utimes] does on the object [s], [calls] being its calls other
    than to the logger: the client for the host of [s] is had and a Head is
    sent through it; after a Head that succeeded and with two valid dates, a
    Copy of the object onto itself that replaces its metadata by those the
    Head answered and the two times; its outcome is the outcome. A Head that
    fails, and an invalid date, are thrown, the latter after the Head. When
    no client is had nothing is sent. *)
Definition touch_object (node : NodeLib) (s : ParsedCloudPath) (atime mtime : JsDate)
    (clients : gmap string S3Client) (res : result unit) (calls : list ioObs) : Prop :=
  ∃ env client,
    client_had (host s) clients env client ∧
    match client with
    | None => calls = env ∧ is_ok res = false
    | Some client =>
        ∃ head_answer,
          let head := IoS3Send client (HeadObjectCommand (bucket s) (key s))
                        head_answer in
          match head_answer, atime, mtime with
          | Throw e, _, _ => calls = (env ++ [head])%list ∧ res = Throw e
          | Ok response, ValidDate a, ValidDate m =>
              ∃ answer,
                calls =
                  (env ++ [head;
                           IoS3Send client
                             (CopyObjectCommand (bucket s) (bucket s +:+ "/" +:+ key s)
                                (key s)
                                (Some (touched_metadata (iso_of_ms node a)
                                         (iso_of_ms node m) (Metadata response)))
                                (Some "REPLACE"))
                             answer])%list ∧
                res = settle answer
          | Ok _, _, _ => calls = (env ++ [head])%list ∧ is_ok res = false
          end
    end.

(** What follows the callback of [writeFile] on a Remote path, by the
    outcome [called] of the callback: the temporary file is read and
    uploaded after a callback that succeeded, and it is deleted in every
    case; [res] is the outcome of [writeFile] and [ops] are the calls. *)
Definition upload_and_cleanup {T} (client : S3Client) (s : ParsedCloudPath)
    (tempFile : string) (called : result T) (res : result T) (ops : list ioObs)
  : Prop :=
  ∃ ru,
    match called with
    | Throw e => ops = [IoUnlink tempFile ru] ∧ res = Throw e
    | Ok v =>
        (∃ e, ops = [IoReadFile tempFile (Throw e); IoUnlink tempFile ru] ∧
              res = Throw e)
        ∨ (∃ buffer answer,
             ops = [IoReadFile tempFile (Ok buffer);
                    IoS3Send client (PutObjectCommand (bucket s) (key s) buffer) answer;
                    IoUnlink tempFile ru] ∧
             res = match answer with Ok _ => Ok v | Throw e => Throw e end)
    end.

(** What [withLocalPath] does on a Remote path once it has a client: the
    object is downloaded and written to the temporary file, the callback is
    run on that file, and the file is deleted in every case. [rest] are the
    calls after the temporary name was made, [called] is the run of the
    callback from a world and with a cache of clients; [res] and [state] are
    the outcome of [withLocalPath] and the cache it leaves. *)
Definition download_and_cleanup {T W} (client : S3Client) (s : ParsedCloudPath)
    (filepath tempFile : string) (clients : gmap string S3Client)
    (called : gmap string S3Client → W
              → result T * gmap string S3Client * W * list ioObs)
    (res : result T) (state : gmap string S3Client) (rest : list ioObs) : Prop :=
  let get := GetObjectCommand (bucket s) (key s) in
  ∃ ru,
    (∃ e, io_calls rest = [IoS3Send client get (Throw e); IoUnlink tempFile ru] ∧
          res = Throw e ∧ state = clients)
    ∨ (∃ response,
         Body response = None ∧
         io_calls rest = [IoS3Send client get (Ok response); IoUnlink tempFile ru] ∧
         res = Throw (new_Error ("Failed to download file from S3: " +:+ filepath
                                 +:+ " (key: " +:+ key s +:+ ")")) ∧
         state = clients)
    ∨ (∃ response body e,
         Body response = Some body ∧
         io_calls rest = [IoS3Send client get (Ok response);
                          IoWriteStream tempFile body (Throw e);
                          IoUnlink tempFile ru] ∧
         res = Throw e ∧ state = clients)
    ∨ (∃ response body w1 post,
         Body response = Some body ∧
         let cb := called clients w1 in
         rest = ([IoS3Send client get (Ok response);
                  IoWriteStream tempFile body (Ok tt);
                  IoLogger Debug ("Successfully downloaded file from S3 to temp file: "
                                  +:+ tempFile)]
                 ++ trace_of cb ++ post)%list ∧
         io_calls post = [IoUnlink tempFile ru] ∧
         res = result_of cb ∧ state = state_of cb).

(** What [createFile], [createOrOverwriteFile] and [overwriteFile] do on the
    object [s]: every call is one of [ioE]; the client for the host of [s] is
    had and one Put of the buffer is sent through it, whose outcome is the
    outcome. When no client is had nothing is sent. *)
Definition put_object (s : ParsedCloudPath) (buffer : Buffer)
    (clients : gmap string S3Client) (res : result unit) (tr : list fileObs) : Prop :=
  ∃ io env client,
    tr = List.map FIo io ∧
    client_had (host s) clients env client ∧
    match client with
    | None => io_calls io = env ∧ is_ok res = false
    | Some client =>
        ∃ a, io_calls io
             = (env ++ [IoS3Send client
                          (PutObjectCommand (bucket s) (key s) buffer) a])%list ∧
             res = settle a
    end.

(** The bytes [readFile] answers from the body of a Remote object: from
    [position] on, and [length] of them when [length] is given and not
    zero *)
Definition requested_range (options : option ReadOptions) (body : Buffer) : Buffer :=
  let position := default 0 (options ≫= ro_position) in
  let length := default 0 (options ≫= ro_length) in
  if bool_decide (0 < length)
  then take (Z.to_nat length) (drop (Z.to_nat position) body)
  else drop (Z.to_nat position) body.

(** ** Reading the runs of [moveFile], continued *)

(** The commit of a run: nothing; or the save alone, which threw; or the
    save, which succeeded, and then the deletion of the row [row] of the
    move, whose outcome is the outcome [res] of the run. [committed] are the
    calls of the run that commit. *)
Definition commit_shape (pathType : PathType) (id newPath row : string)
    (res : result unit) (committed : list coreObs) : Prop :=
  committed = []
  ∨ (∃ x e, committed = [x] ∧ saves pathType id newPath x ∧
            thrown x = Some e ∧ res = Throw e)
  ∨ (∃ x rd, committed = [x; OMoveDelete row rd] ∧ saves pathType id newPath x ∧
             thrown x = None ∧ res = rd).

(** The row of the move table that a run created or updated *)
Definition row_of (move : Move.t) (tr : list coreObs) : Prop :=
  ∃ x, In x tr ∧
       match x with
       | OMoveCreate _ _ _ _ (Ok m) | OMoveUpdate _ _ _ (Ok m) => m = move
       | _ => False
       end.


(** After the row [move] of an unfinished move was found and the two paths
    were probed: with the old file there, the row is updated to lead from the
    old path to the new path asked for, with no verification before; with
    neither file there, nothing more is called and the run returns. *)
Definition resume_dispatch (res : result unit) (newPath : string)
    (pre : list coreObs) (x : coreObs) (post : list coreObs) : Prop :=
  match x with
  | OMoveGetByEntity _ _ (Ok (Some move)) =>
      ∀ o n rest,
        post = OCheckFileExists (Move.oldPath move) (Ok o)
               :: OCheckFileExists (Move.newPath move) (Ok n) :: rest →
        (o = false → n = false → rest = [] ∧ res = Ok tt) ∧
        (o = true → Move.oldPath move ≠ "" → Move.oldPath move ≠ Move.newPath move →
           ∃ ru rest', rest = OMoveUpdate (Move.id move) (Move.oldPath move) newPath ru
                              :: rest')
  | _ => True
  end.

(** After a rename that succeeded the commit follows and nothing else, and
    nothing before the rename deleted, moved or overwrote a file; [res] is
    the outcome of the run. *)
Definition after_rename (res : result unit) (pathType : PathType) (id dst : string)
    (pre : list coreObs) (x : coreObs) (post : list coreObs) : Prop :=
  match x with
  | ORename _ d (Ok _) =>
      d = dst ∧ Forall quiet pre ∧ commit_calls pathType id dst res (calls post)
  | _ => True
  end.

Definition is_mkdir (x : coreObs) : bool :=
  match x with OMkdirSync _ _ => true | _ => false end.
(** ** Scenarios on the model *)

Module Scenario.

Definition a1 : Model.File :=
  Model.mkFile 3 [Byte.x01; Byte.x02; Byte.x03] (ValidDate 10) (ValidDate 20).

Definition a1_info : AssetInfo := mkAssetInfo 3 [Byte.x01; Byte.x02; Byte.x03].

Definition old_path : string := "/data/lib/u1/2023/a1.jpg".
Definition new_path : string := "/data/lib/u1/2024/a1.jpg".
Definition far_path : string := "/mnt/vol2/lib/u1/2024/a1.jpg".

Definition disk (files : gmap string Model.File) (copy_as : Model.File → Model.File)
  : Model.Node :=
  Model.mkNode files ∅ ["/mnt/vol2"] copy_as ∅ false ∅ 1000.

Definition sys (files : gmap string Model.File) (copy_as : Model.File → Model.File)
    (moves : list Move.t) : Model.System :=
  Model.mkSystem (disk files copy_as) ∅ moves 0 (mkConfig true) [].

(** One file, at the old path; no move pending *)
Definition fresh : Model.System := sys {[ old_path := a1 ]} id [].
Definition fresh_truncating : Model.System := sys {[ old_path := a1 ]} Model.truncated [].
Definition fresh_corrupting : Model.System := sys {[ old_path := a1 ]} Model.zeroed [].

(** The file has reached the new path and the row of the move is still there:
    the process stopped between the rename and the commit. *)
Definition interrupted : Model.System :=
  sys {[ new_path := a1 ]} id [Move.mk "move-0" "a1" Original old_path new_path].

(** Nothing at the old path and no move pending *)
Definition missing : Model.System := sys ∅ id [].

Definition request (newPath : string) : MoveRequest.t :=
  MoveRequest.mk "a1" Original (Some old_path) newPath (Some a1_info).

(** The move whose old path is the path already recorded as new *)
Definition settled : MoveRequest.t :=
  MoveRequest.mk "a1" Original (Some new_path) new_path (Some a1_info).

(** An object store at an Amazon endpoint, with credentials in the
    environment, holding the file under two users *)
Definition u1_object : string := "s3.us-west-2.amazonaws.com/bucket/upload/u1/a.jpg".
Definition u2_object : string := "s3.us-west-2.amazonaws.com/bucket/upload/u2/a.jpg".

Definition cloud : Model.Node :=
  Model.mkNode ∅ ∅ [] id {[ u1_object := a1; u2_object := a1 ]} false
    {[ "AWS_ACCESS_KEY_ID" := "id"; "AWS_SECRET_ACCESS_KEY" := "secret" ]} 1000.

(** A callback that writes one byte to the path it is given and answers
    that path, and one that only answers it *)
Definition write_one (localPath : string) : StorageRepository.repo string :=
  call (FsWriteStream localPath [Byte.x2a]);; mret localPath.

Definition tell (localPath : string) : StorageRepository.repo string := mret localPath.

(** A preview is moved across devices; the caller of [moveFile] gives
    neither size nor checksum, as [moveAssetImage] does. *)
Definition preview_request : MoveRequest.t :=
  MoveRequest.mk "a1" Preview (Some old_path) far_path None.

(** Two object stores with a bucket of the same name: an object at Tigris,
    and another object of the same key at Amazon. *)
Definition t1 : Model.File :=
  Model.mkFile 2 [Byte.x0a; Byte.x0b] (ValidDate 30) (ValidDate 40).

Definition tigris_object : string := "fly.storage.tigris.dev/bucket/upload/u1/a.jpg".
Definition amazon_target : string := "s3.us-west-2.amazonaws.com/bucket/upload/u9/a.jpg".

Definition two_stores : Model.Node :=
  Model.mkNode ∅ ∅ [] id {[ tigris_object := t1; u1_object := a1 ]} false
    {[ "AWS_ACCESS_KEY_ID" := "id"; "AWS_SECRET_ACCESS_KEY" := "secret";
       "TIGRIS_ACCESS_KEY_ID" := "tid"; "TIGRIS_SECRET_ACCESS_KEY" := "tsecret" ]} 1000.

(** The parts of the first object at Amazon, and the client [getS3Client]
    makes for its host *)
Definition u1_parsed : ParsedCloudPath :=
  mkParsed "s3.us-west-2.amazonaws.com" "bucket" "upload/u1/a.jpg".

Definition u1_client : S3Client :=
  mkS3Client "us-west-2" "id" "secret" "https://s3.us-west-2.amazonaws.com".

(** An object at an endpoint the repository has no credentials for *)
Definition minio_object : string := "minio.example.com/bucket/upload/u1/a.jpg".

Definition minio_parsed : ParsedCloudPath :=
  mkParsed "minio.example.com" "bucket" "upload/u1/a.jpg".

Definition tigris_client : S3Client :=
  mkS3Client "auto" "tid" "tsecret" "https://fly.storage.tigris.dev".

(** A path at Google Cloud Storage and one at Azure Blob Storage *)
Definition google_object : string := "storage.googleapis.com/bucket/u1/a.jpg".
Definition azure_object : string := "account.blob.core.windows.net/container/u1/a.jpg".


(** The object store with nothing on the disk, nothing to glob but five
    paths of a library, and no file open *)
Definition library : list string :=
  ["/lib/a.jpg"; "/lib/b.jpg"; "/lib/c.jpg"; "/lib/d.jpg"; "/lib/e.jpg"].

Definition cloud_disk : Model.Disk := Model.mkDisk cloud library [].

(** The disk that holds the file at the old path, with no file open *)
Definition local_disk : Model.Disk := Model.mkDisk (Model.node fresh) [] [].

Definition extensions : GlobLib := mkGlobLib id [".jpg"; ".png"].

Definition by_two : WalkOptionsDto := mkWalkOptions (mkCrawlOptions ["/lib"] [] false) 2.


(** The row of the move is there and the file is at neither path. *)
Definition lost : Model.System :=
  sys ∅ id [Move.mk "move-0" "a1" Original old_path new_path].

(** The row of the move is there and the file is still at the old path. *)
Definition pending : Model.System :=
  sys {[ old_path := a1 ]} id [Move.mk "move-0" "a1" Original old_path far_path].

(** The metadata [utimes] leaves on an object when the printer of dates is
    the one of [Model.posix], and the answer of a Head on the first object
    after it *)
Definition retimed : gmap string string := touched_metadata "10" "20" None.

Definition retimed_head : S3Response :=
  mkS3Response None (Some 3) None (Some (ValidDate 20)) (Some retimed).

(** The answer of a Get on the first object *)
Definition u1_body : S3Response :=
  mkS3Response (Some [Byte.x01; Byte.x02; Byte.x03]) (Some 3) None
    (Some (ValidDate 20)) None.

Definition second_byte : option ReadOptions := Some (mkReadOptions (Some 1) (Some 1)).

(** The calls of [ioE] among the calls of a run over [fileE] *)
Definition io_part (tr : list fileObs) : list ioObs :=
  omap (λ x, match x with FIo o => Some o | _ => None end) tr.

End Scenario.

(** * Theorems *)

(** ** The embedding on concrete inputs *)

Example split_abs : Js.split "/" "/data/a.jpg" = [""; "data"; "a.jpg"].
Proof. reflexivity. Qed.

Example split_empty : Js.split "/" "" = [""].
Proof. reflexivity. Qed.

Example split_trailing : Js.split "/" "a//b/" = ["a"; ""; "b"; ""].
Proof. reflexivity. Qed.

Example endsWith_aws : Js.endsWith ".amazonaws.com" "s3.eu-west-1.amazonaws.com" = true.
Proof. reflexivity. Qed.

Example isRemote_s3 : isRemote (Some "s3.example.com/bucket/u1/a.jpg") = true.
Proof. reflexivity. Qed.

Example isRemote_relative : isRemote (Some "upload/u1/a.jpg") = false.
Proof. reflexivity. Qed.

Example isRemote_azure : isRemote (Some "acct.blob.core.windows.net/container/a.jpg") = false.
Proof. reflexivity. Qed.

Example region_wasabi :
  match_s3_region ".wasabisys.com" "s3.ap-northeast-1.wasabisys.com" = Some "ap-northeast-1".
Proof. reflexivity. Qed.

Example region_missing : match_s3_region ".wasabisys.com" "s3.wasabisys.com" = None.
Proof. reflexivity. Qed.

(** Scenario 1 of the specification: a move within one file system is one
    rename, the new path is saved and the row is removed. *)
Example move_within_one_file_system :
  let r := Model.moveFile (Scenario.request Scenario.new_path) Scenario.fresh in
  result_of r = Ok tt ∧
  calls (trace_of r) =
    [OMkdirSync "/data/lib/u1/2024" (Ok tt);
     OMoveGetByEntity "a1" Original (Ok None);
     OMoveCreate "a1" Original Scenario.old_path Scenario.new_path
       (Ok (Move.mk "move-0" "a1" Original Scenario.old_path Scenario.new_path));
     ORename Scenario.old_path Scenario.new_path (Ok tt);
     OAssetUpdate "a1" originalPath Scenario.new_path (Ok tt);
     OMoveDelete "move-0" (Ok tt)] ∧
  Model.moves (world_of r) = [] ∧
  Model.saved (world_of r) = [("a1", Scenario.new_path)].
Proof. vm_compute. done. Qed.

(** Scenario 4: a rename between two objects of one bucket. *)
Example rename_within_one_bucket :
  let r := Model.repository
             (StorageRepository.rename Scenario.u1_object
                "s3.us-west-2.amazonaws.com/bucket/upload/u1/2024/a.jpg")
             Scenario.cloud in
  result_of r = Ok tt ∧
  List.map (λ x, match x with IoS3Send _ cmd _ => Some cmd | _ => None end)
    (network (trace_of r)) =
    [Some (CopyObjectCommand "bucket" "bucket/upload/u1/a.jpg" "upload/u1/2024/a.jpg"
             None None);
     Some (DeleteObjectCommand "bucket" "upload/u1/a.jpg")].
Proof. vm_compute. done. Qed.

(** ** Splitting and joining *)

Lemma split_nonempty c s : Js.split c s ≠ [].
Proof.
  destruct s as [|d s]; cbn; [done|].
  destruct (Ascii.eqb d c); [done|]. by destruct (Js.split c s).
Qed.

Lemma join_cons sep x y l :
  Js.join sep (x :: y :: l) = x +:+ sep +:+ Js.join sep (y :: l).
Proof. reflexivity. Qed.

Lemma join_split (c : ascii) (s : string) :
  Js.join (String c "") (Js.split c s) = s.
Proof.
  induction s as [|d s IH]; [done|]. cbn [Js.split].
  pose proof (split_nonempty c s) as Hs.
  destruct (Js.split c s) as [|y l]; [done|].
  destruct (Ascii.eqb_spec d c) as [->|Hne].
  - rewrite join_cons, IH. reflexivity.
  - destruct l as [|z l].
    + cbn in *. by rewrite IH.
    + rewrite join_cons in *. rewrite <- IH. reflexivity.
Qed.

Lemma split_segments c s : Forall (λ seg, Js.includes c seg = false) (Js.split c s).
Proof.
  induction s as [|d s IH]; cbn [Js.split].
  - by constructor.
  - destruct (Ascii.eqb d c) eqn:E.
    + by constructor.
    + pose proof (split_nonempty c s) as Hs.
      destruct (Js.split c s) as [|y l]; [done|].
      inversion IH; subst. constructor; [|done]. cbn. by rewrite E.
Qed.

(** ** PathClassifier *)

Lemma parseCloudPath_short (filepath : string) :
  (length (Js.split "/" filepath) < 3)%nat →
  parseCloudPath filepath
  = Throw (new_Error ("Invalid cloud storage path format: " +:+ filepath)).
Proof. unfold parseCloudPath. intros Hlen. apply Nat.ltb_lt in Hlen. by rewrite Hlen. Qed.

Lemma parseCloudPath_segments (filepath : string) :
  (3 ≤ length (Js.split "/" filepath))%nat →
  ∃ h b k ks,
    Js.split "/" filepath = h :: b :: k :: ks ∧
    parseCloudPath filepath = Ok (mkParsed h b (Js.join "/" (k :: ks))).
Proof.
  unfold parseCloudPath. intros Hlen.
  destruct (Js.split "/" filepath) as [|h [|b [|k ks]]] eqn:E; cbn in Hlen; try lia.
  exists h, b, k, ks. split; [done|]. reflexivity.
Qed.

(** C8: parsing a path into host, bucket and key fails whenever splitting on
    [/] yields fewer than 3 segments; for a path of at least 3 segments it
    answers the first segment as host, the second as bucket and the
    remaining segments joined with [/] as key. *)
Theorem parseCloudPath_spec (filepath : string) :
  ((length (Js.split "/" filepath) < 3)%nat →
     ∃ e, parseCloudPath filepath = Throw e) ∧
  ((3 ≤ length (Js.split "/" filepath))%nat →
     ∃ h b k ks,
       Js.split "/" filepath = h :: b :: k :: ks ∧
       parseCloudPath filepath = Ok (mkParsed h b (Js.join "/" (k :: ks)))).
Proof.
  split.
  - intros Hlen. eexists. by apply parseCloudPath_short.
  - apply parseCloudPath_segments.
Qed.

Lemma parseCloudPath_spec_witness :
  (∃ e, parseCloudPath "bucket/a.jpg" = Throw e) ∧
  (∃ h b k ks,
     Js.split "/" "s3.example.com/bucket/u1/a.jpg" = h :: b :: k :: ks ∧
     parseCloudPath "s3.example.com/bucket/u1/a.jpg"
     = Ok (mkParsed h b (Js.join "/" (k :: ks)))).
Proof.
  split.
  - apply (proj1 (parseCloudPath_spec "bucket/a.jpg")). simpl. lia.
  - apply (proj2 (parseCloudPath_spec "s3.example.com/bucket/u1/a.jpg")). simpl. lia.
Defined.

(** The three parts of a parsed path, joined again, are the path. *)
Lemma parseCloudPath_roundtrip filepath parsed :
  parseCloudPath filepath = Ok parsed →
  host parsed +:+ "/" +:+ bucket parsed +:+ "/" +:+ key parsed = filepath.
Proof.
  intros H. destruct (Nat.lt_ge_cases (length (Js.split "/" filepath)) 3) as [Hlt|Hge].
  - rewrite (parseCloudPath_short _ Hlt) in H. discriminate.
  - destruct (parseCloudPath_segments filepath Hge) as (h & b & k & ks & Hs & Hp).
    rewrite Hp in H. injection H as <-. cbn [host bucket key].
    transitivity (Js.join "/" (Js.split "/" filepath)); [|apply join_split].
    rewrite Hs. reflexivity.
Qed.

Lemma endsWith_last suf s c t :
  String.rev suf = String c t →
  Js.endsWith suf s = true → ∃ u, String.rev s = String c u.
Proof.
  unfold Js.endsWith. intros ->. destruct (String.rev s) as [|d u]; cbn; [done|].
  destruct (ascii_dec c d) as [->|]; [eauto|done].
Qed.

(** The hosts taken as S3: all but Azure Blob hosts and Google's. *)
Lemma detectCloudProvider_S3 (h : string) :
  CloudProvider_eqb (detectCloudProvider h) S3 =
  negb (Js.endsWith ".blob.core.windows.net" h)
  && negb (bool_decide (h = "storage.googleapis.com")).
Proof.
  unfold detectCloudProvider.
  destruct (Js.endsWith ".amazonaws.com" h) eqn:Haws.
  - destruct (endsWith_last ".amazonaws.com" h "m" "oc.swanozama." eq_refl Haws) as [u Hu].
    assert (Js.endsWith ".blob.core.windows.net" h = false) as ->.
    { unfold Js.endsWith. rewrite Hu. reflexivity. }
    case_bool_decide as Hg; [|done]. subst h. discriminate Haws.
  - destruct (Js.endsWith ".blob.core.windows.net" h); [done|].
    case_decide as Hg; case_bool_decide; done.
Qed.

(** What [isRemote] computes: a path is taken as Remote exactly when it does
    not start with [/], splitting it on [/] yields at least 3 segments, the
    first segment contains a dot, and the first segment is neither an Azure
    Blob host (one ending in [.blob.core.windows.net]) nor
    [storage.googleapis.com]. *)
Theorem isRemote_spec (p : string) :
  isRemote (Some p) =
    negb (Js.startsWith "/" p)
    && (3 <=? length (Js.split "/" p))%nat
    && Js.includes "." (Js.at_ (Js.split "/" p) 0)
    && negb (Js.endsWith ".blob.core.windows.net" (Js.at_ (Js.split "/" p) 0))
    && negb (bool_decide (Js.at_ (Js.split "/" p) 0 = "storage.googleapis.com")).
Proof.
  unfold isRemote, isCloudPath. cbn [Js.falsy].
  case_decide as Hp.
  { subst p. reflexivity. }
  cbn [orb]. destruct (Js.startsWith "/" p); [done|]. cbn [negb andb].
  destruct (3 <=? length (Js.split "/" p))%nat eqn:Hlen; [|done]. cbn [andb].
  destruct (Js.includes "." (Js.at_ (Js.split "/" p) 0)) eqn:Hdot; [|done].
  cbn [negb andb].
  apply Nat.leb_le in Hlen.
  destruct (parseCloudPath_segments p Hlen) as (h & b & k & ks & Hs & ->).
  rewrite Hs. cbn [host Js.at_ nth]. apply detectCloudProvider_S3.
Qed.

(** A path whose host is Google's has four segments and a dot in the first,
    and is not taken as Remote. *)
Lemma isRemote_gcs :
  let p := "storage.googleapis.com/bucket/u1/a.jpg" in
  Js.startsWith "/" p = false ∧
  ¬ (isRemote (Some p) = true ↔
     (3 ≤ length (Js.split "/" p))%nat ∧
     Js.includes "." (Js.at_ (Js.split "/" p) 0) = true).
Proof.
  cbv zeta. split; [reflexivity|]. intros [_ H].
  assert (isRemote (Some "storage.googleapis.com/bucket/u1/a.jpg") = true) as Hr.
  { apply H. split; [simpl; lia | reflexivity]. }
  vm_compute in Hr. discriminate Hr.
Qed.

Lemma isRemote_parse p : isRemote (Some p) = true → ∃ parsed, parseCloudPath p = Ok parsed.
Proof.
  unfold isRemote. destruct (Js.falsy _ || _); [done|].
  destruct (parseCloudPath p); [eauto|done].
Qed.

(** ** Running programs *)

Lemma run_pbind {E : Type → Type} {W O A B : Type} (observe : ∀ X, E X → X → O)
    (h : handler E W) (p : prog E A) (k : A → prog E B) (w : W) :
  run observe h (pbind p k) w =
  let r1 := run observe h p w in
  let r2 := run observe h (k r1.1.1) r1.1.2 in
  (r2.1.1, r2.1.2, (r1.2 ++ r2.2)%list).
Proof.
  revert w. induction p as [a | X e f IH]; intros w; cbn.
  - by destruct (run observe h (k a) w) as [[? ?] ?].
  - rewrite IH. reflexivity.
Qed.

Lemma Buffer_equals_eq (a b : Buffer) : Buffer_equals a b = true ↔ a = b.
Proof.
  revert b. induction a as [|x a IH]; intros [|y b]; cbn; try done.
  rewrite andb_true_iff, IH. split.
  - intros [Hxy ->]. f_equal. by apply Byte.byte_dec_bl.
  - intros [= -> ->]. split; [|done]. by apply Byte.byte_dec_lb.
Qed.

Lemma Buffer_equals_neq (a b : Buffer) : Buffer_equals a b = false ↔ a ≠ b.
Proof. rewrite <- Buffer_equals_eq. destruct (Buffer_equals a b); naive_solver. Qed.

(** Symbolic execution of a method against an arbitrary environment [h]:
    unfold the monad, compute up to the next call, name its answer, and
    split on every test the method makes. *)
Ltac unfold_m :=
  cbv [exec result_of state_of world_of trace_of catch finally mbind M_bind call ask
       mret M_ret throw lift_result gets modify
       StorageCore.logger StorageRepository.logger].

Ltac answer h :=
  match goal with
  | |- context [h ?X ?e ?w] =>
      is_var w;
      let x := fresh "x" in let w' := fresh "w" in
      destruct (h X e w) as [x w'] eqn:?
  end.

Ltac branch :=
  match goal with
  | |- context [match ?r with Ok _ => _ | Throw _ => _ end] => destruct r eqn:?
  | |- context [match ?o with Some _ => _ | None => _ end] => destruct o eqn:?
  | |- context [if ?b then _ else _] => is_var b; destruct b
  | |- context [if ?b then _ else _] =>
      lazymatch b with
      | true => fail
      | false => fail
      | negb ?c => destruct c eqn:?
      | _ => destruct b eqn:?
      end
  | |- context [match ?p with (_, _) => _ end] => destruct p eqn:?
  | |- context [match ?t with Original => _ | _ => _ end] => destruct t
  end.

Ltac compute_run :=
  cbn [run pbind fst snd app core_observe io_observe negb andb orb default
       List.filter is_logger is_network_call
       MoveRequest.entityId MoveRequest.pathType MoveRequest.oldPath
       MoveRequest.newPath MoveRequest.assetInfo].

Ltac sym h :=
  unfold_m;
  repeat (first [ progress compute_run | answer h | branch ]).

Ltac decided :=
  repeat match goal with
         | H : bool_decide _ = true |- _ => apply bool_decide_eq_true in H
         | H : bool_decide _ = false |- _ => apply bool_decide_eq_false in H
         | H : negb _ = true |- _ => apply negb_true_iff in H
         | H : negb _ = false |- _ => apply negb_false_iff in H
         | H : (_ =? _) = true |- _ => apply Z.eqb_eq in H
         | H : (_ =? _) = false |- _ => apply Z.eqb_neq in H
         | H : Buffer_equals _ _ = true |- _ => apply Buffer_equals_eq in H
         | H : Buffer_equals _ _ = false |- _ => apply Buffer_equals_neq in H
         | u : unit |- _ => destruct u
         end.

(** Name the outcome of the run in the goal and keep the run as a premise. *)
Ltac start :=
  match goal with
  | |- context [exec ?o ?hh ?m ?s ?w] =>
      let Hrun := fresh "Hrun" in
      destruct (exec o hh m s w) as [[[? ?] ?] ?] eqn:Hrun; revert Hrun;
      cbn [result_of state_of world_of trace_of fst snd]
  end.

(** ** Properties of every position of a trace *)

Lemma each_split_nil {O} (P : list O → O → list O → Prop) : each_split P [].
Proof. intros [|] ? ? ?; discriminate. Qed.

Lemma each_split_start {O} (P : list O → O → list O → Prop) tr :
  each_split (λ pre x post, P ([] ++ pre)%list x post) tr → each_split P tr.
Proof. done. Qed.

Lemma each_split_step {O} (P : list O → O → list O → Prop) pre0 a tr :
  P pre0 a tr →
  each_split (λ pre x post, P ((pre0 ++ [a]) ++ pre)%list x post) tr →
  each_split (λ pre x post, P (pre0 ++ pre)%list x post) (a :: tr).
Proof.
  intros Ha Htr [|b pre] x post Heq; injection Heq as -> ->.
  - by rewrite app_nil_r.
  - pose proof (Htr pre x post eq_refl) as H'. cbv beta in H'.
    replace (pre0 ++ b :: pre)%list with ((pre0 ++ [b]) ++ pre)%list; [done|].
    by rewrite <- app_assoc.
Qed.

Lemma each_split_Forall {O} (Q : O → Prop) (P : list O → O → list O → Prop) tr :
  Forall Q tr → (∀ pre x post, Q x → P pre x post) → each_split P tr.
Proof.
  intros Hall HP pre x post ->. apply HP.
  rewrite Forall_app, Forall_cons in Hall. tauto.
Qed.

(** Walk a trace whose head is known, proving the property at each call
    with [tac] where it is not trivially true. *)
Ltac walk tac :=
  repeat (apply each_split_step;
          [first [exact I | rewrite <- ?app_assoc; cbn [app]; tac]|]);
  try apply each_split_nil.

Ltac solve_sublist :=
  repeat first [ apply sublist_nil_l | apply sublist_skip | apply sublist_cons ].

(** ** StorageRepository *)

Section Repository.
Context {W : Type} (h : handler ioE W).

(** [getS3Client] makes no call to the file system or the object store, only
    adds to the cache, and answers the cache's entry for the endpoint; it
    throws only when the cache has none. *)
Lemma getS3Client_run endpoint (c : gmap string S3Client) w rc c' w' t :
  run io_observe h (StorageRepository.getS3Client endpoint c) w = (rc, c', w', t) →
  Forall local_call t ∧ c ⊆ c' ∧
  match rc with
  | Ok client => c' !! endpoint = Some client
  | Throw _ => c !! endpoint = None
  end.
Proof.
  unfold StorageRepository.getS3Client, StorageRepository.getS3Credentials.
  sym h; intros [= <- <- <- <-]; decided.
  all: repeat match goal with H : ¬ is_Some _ |- _ => apply eq_None_not_Some in H end.
  all: split; [repeat constructor|].
  all: split; [first [done | by apply insert_subseteq]|].
  all: first [done | by simplify_map_eq | idtac].
  all: try (exfalso; simplify_map_eq; done).
Qed.

(** The client that [getS3Client] answers is the one [client_had] tells, by
    the cache and by what the environment answered; the cache is left with
    it. *)
Lemma getS3Client_had endpoint (c : gmap string S3Client) w rc c' w' t :
  run io_observe h (StorageRepository.getS3Client endpoint c) w = (rc, c', w', t) →
  Forall local_call t ∧
  ∃ client,
    client_had endpoint c (io_calls t) client ∧
    c' = cache_after endpoint c client ∧
    client = match rc with Ok x => Some x | Throw _ => None end.
Proof.
  unfold StorageRepository.getS3Client, StorageRepository.getS3Credentials.
  sym h; intros [= <- <- <- <-]; decided.
  all: repeat match goal with H : ¬ is_Some _ |- _ => apply eq_None_not_Some in H end.
  all: try (exfalso; simplify_map_eq; done).
  all: split; [repeat constructor|].
  all: refine (ex_intro _ _ (conj _ (conj _ eq_refl))).
  all: unfold client_had, provider_of, io_calls;
       cbn [List.filter is_io_logger negb app cache_after].
  all: repeat match goal with
              | H : ?b = _ |- context [if ?b then _ else _] => rewrite H
              | H : ?o = _ |- context [match ?o with Some _ => _ | None => _ end] =>
                  rewrite H
              end.
  all: try done.
  all: try (symmetry; by apply insert_id).
  all: try (simplify_map_eq; done).
  all: eexists _, _; split; [reflexivity|];
       repeat match goal with
              | H : ?b = _ |- context [if ?b then _ else _] => rewrite H
              end;
       first [ reflexivity | simplify_map_eq; reflexivity ].
Qed.

Lemma local_calls_no_network l :
  Forall local_call l → List.filter is_network_call l = [].
Proof. induction 1 as [|x l [_ Hx] _ IH]; [done|]. cbn. by rewrite Hx. Qed.

Lemma local_calls_no_fs l :
  Forall local_call l → Forall (λ x, is_fs_call x = false) l.
Proof. intros H. eapply Forall_impl; [exact H|]. by intros x [? _]. Qed.

Lemma io_calls_app (l k : list ioObs) : io_calls (l ++ k) = (io_calls l ++ io_calls k)%list.
Proof. apply List.filter_app. Qed.

Ltac with_client :=
  rewrite !run_pbind; cbv zeta;
  match goal with
  | |- context [run io_observe h (StorageRepository.getS3Client ?e ?c) ?w] =>
      let H := fresh "Hclient" in
      let r := fresh "r" in
      destruct (run io_observe h (StorageRepository.getS3Client e c) w)
        as [[[r ?] ?] ?] eqn:H;
      apply getS3Client_run in H as (? & ? & ?); destruct r
  end.

(** Run [getS3Client] where the method calls it, and keep how the client
    was had. *)
Ltac had_client :=
  rewrite !run_pbind; cbv zeta;
  match goal with
  | |- context [run io_observe h (StorageRepository.getS3Client ?e ?c) ?w] =>
      let H := fresh "Hclient" in
      let Hhad := fresh "Hhad" in
      let r := fresh "r" in
      let cl := fresh "client" in
      destruct (run io_observe h (StorageRepository.getS3Client e c) w)
        as [[[r ?] ?] ?] eqn:H;
      apply getS3Client_had in H as (_ & cl & Hhad & -> & ->); destruct r
  end.

Ltac finish_io :=
  intros [= <- <- <- <-]; unfold network; cbn [fst snd app];
  rewrite ?app_nil_r, ?List.filter_app;
  repeat match goal with u : unit |- _ => destruct u end;
  repeat match goal with
         | H : Forall local_call ?l |- context [List.filter is_network_call ?l] =>
             rewrite (local_calls_no_network l H)
         end;
  cbn [List.filter is_network_call app].

(** The calls of a run that ended, other than to the logger *)
Ltac finish_calls :=
  intros [= <- <- <- <-]; cbn [run fst snd app] in *; simplify_eq;
  rewrite ?app_nil_r, ?io_calls_app;
  repeat match goal with u : unit |- _ => destruct u end;
  cbn [io_calls List.filter is_io_logger negb app]; rewrite ?app_nil_r.

(** C10: [checkFileExists] never throws and says where its answer comes
    from, on every path and in every environment. On a path that is not
    Remote (a malformed cloud path is one) it makes one call, [fs.access],
    and answers [true] exactly when the call succeeds. On a Remote path it
    has the client for the host and sends one Head through it, and answers
    [true] exactly when the Head succeeds; when no client is had (a provider
    that is not known, a credential that is not set) nothing is sent and the
    answer is [false]. *)
Theorem checkFileExists_total (filepath : string) (mode : Z)
    (clients : gmap string S3Client) (w : W) :
  let r := exec io_observe h (StorageRepository.checkFileExists filepath mode) clients w in
  if isRemote (Some filepath)
  then match parseCloudPath filepath with
       | Ok s => probe_object s clients (result_of r) (io_calls (trace_of r))
       | Throw _ => False
       end
  else ∃ a, trace_of r = [IoAccess filepath mode a] ∧ result_of r = Ok (is_ok a).
Proof.
  cbv zeta. start. unfold StorageRepository.checkFileExists.
  destruct (isRemote (Some filepath)) eqn:Hs; cbn [negb].
  - destruct (isRemote_parse _ Hs) as [s Hps]. rewrite Hps. unfold probe_object.
    sym h. had_client; sym h; finish_calls.
    all: eexists _, _; (split; [eassumption|]); cbv beta iota.
    all: first [ by eexists | done ].
  - sym h; intros [= <- <- <- <-]; by eexists.
Qed.

Lemma unlink_remote_run file s (c : gmap string S3Client) w res c' w' tr :
  isRemote (Some file) = true → parseCloudPath file = Ok s →
  run io_observe h (StorageRepository.unlink file c) w = (res, c', w', tr) →
  delete_object s c res (io_calls tr).
Proof.
  intros Hs Hps. unfold StorageRepository.unlink, delete_object. rewrite Hs, Hps.
  sym h. had_client; sym h; finish_calls.
  all: eexists _, _; (split; [eassumption|]); cbv beta iota.
  all: first [ by eexists | done ].
Qed.

(** [rename] in every environment: between two paths that are not Remote it
    is the file system's rename; between a Remote path and one that is not it
    throws before any call; between two Remote paths whose bucket names
    differ it throws before any call; between two Remote paths whose bucket
    names are equal, whatever their hosts, it is the Copy and the Delete of
    [copy_then_delete]. *)
Theorem rename_dispatch (source target : string) (clients : gmap string S3Client) (w : W) :
  let r := exec io_observe h (StorageRepository.rename source target) clients w in
  match isRemote (Some source), isRemote (Some target) with
  | false, false =>
      ∃ a, trace_of r = [IoRename source target a] ∧ result_of r = a
  | true, true =>
      match parseCloudPath source, parseCloudPath target with
      | Ok s, Ok t =>
          if bool_decide (bucket s = bucket t)
          then copy_then_delete s t clients (result_of r) (io_calls (trace_of r))
          else trace_of r = [] ∧ is_ok (result_of r) = false
      | _, _ => False
      end
  | _, _ => trace_of r = [] ∧ is_ok (result_of r) = false
  end.
Proof.
  cbv zeta. start. unfold StorageRepository.rename.
  destruct (isRemote (Some source)) eqn:Hs, (isRemote (Some target)) eqn:Ht;
    cbn [negb andb]; try (sym h; intros [= <- <- <- <-]; by eauto).
  destruct (isRemote_parse _ Hs) as [s Hps], (isRemote_parse _ Ht) as [t Hpt].
  unfold getS3BucketAndKey. rewrite Hps, Hpt.
  case_bool_decide as Hb; [|sym h; decided; try done; by intros [= <- <- <- <-]].
  unfold copy_then_delete.
  sym h; decided; try done.
  had_client; sym h.
  - destruct (run io_observe h (StorageRepository.unlink source _) _)
      as [[[ru cu] wu] tu] eqn:Hu.
    apply (unlink_remote_run _ s) in Hu; [|done..].
    finish_calls.
    eexists _, _. split; [eassumption|]. cbv beta iota.
    eexists _, _. split; [reflexivity|]. exact Hu.
  - finish_calls.
    eexists _, _. split; [eassumption|]. cbv beta iota.
    by eexists _, _.
  - finish_calls. eexists _, _. split; [eassumption|]. done.
Qed.

End Repository.

(** An endpoint of no known provider: [stat] throws the configuration error
    and [checkFileExists] answers [false]. *)
Example checkFileExists_unsupported_endpoint :
  let p := "s3.example.com/bucket/a.jpg" in
  result_of (Model.repository (StorageRepository.checkFileExists p F_OK) Scenario.cloud)
  = Ok false ∧
  is_ok (result_of (Model.repository (StorageRepository.stat Model.posix p)
                      Scenario.cloud))
  = false.
Proof. vm_compute. done. Qed.

(** A rename between two buckets is refused before any call. *)
Example rename_across_buckets :
  let r := Model.repository
             (StorageRepository.rename Scenario.u1_object
                "s3.us-west-2.amazonaws.com/other/upload/u1/a.jpg")
             Scenario.cloud in
  is_ok (result_of r) = false ∧ trace_of r = [].
Proof. vm_compute. done. Qed.

(** The temporary name is a function of the temporary directory, the clock
    and the base name of the path, and of nothing else. *)
Lemma tempFile_same_basename node tmp now p q :
  path_basename node p = path_basename node q →
  StorageRepository.writeFile_tempFile node tmp now p
  = StorageRepository.writeFile_tempFile node tmp now q
  ∧ StorageRepository.withLocalPath_tempFile node tmp now p
    = StorageRepository.withLocalPath_tempFile node tmp now q.
Proof.
  unfold StorageRepository.writeFile_tempFile, StorageRepository.withLocalPath_tempFile.
  by intros ->.
Qed.

(** C9, as the code has it: two invocations of [writeFile] within one
    millisecond, on two different Remote paths with the same file name (and
    so also two on the same path), are given the same temporary file; and so
    for [withLocalPath]. *)
Theorem temp_names_collide :
  Scenario.u1_object ≠ Scenario.u2_object ∧
  result_of (Model.repository
               (StorageRepository.writeFile Model.posix Scenario.u1_object
                  Scenario.write_one) Scenario.cloud)
  = Ok "/tmp/immich-write-1000-a.jpg" ∧
  result_of (Model.repository
               (StorageRepository.writeFile Model.posix Scenario.u2_object
                  Scenario.write_one) Scenario.cloud)
  = Ok "/tmp/immich-write-1000-a.jpg" ∧
  result_of (Model.repository
               (StorageRepository.withLocalPath Model.posix Scenario.u1_object
                  Scenario.tell) Scenario.cloud)
  = Ok "/tmp/immich-1000-a.jpg" ∧
  result_of (Model.repository
               (StorageRepository.withLocalPath Model.posix Scenario.u2_object
                  Scenario.tell) Scenario.cloud)
  = Ok "/tmp/immich-1000-a.jpg".
Proof. split; [discriminate|]. vm_compute. done. Qed.

(** ** StorageCore.moveFile *)


Section Core.
Context {W : Type} (h : handler coreE W) (node : NodeLib).

Ltac unfold_finish :=
  unfold StorageCore.moveFile_finish, StorageCore.moveFile_relocate,
    StorageCore.verifyNewPathContentsMatchesExpected, StorageCore.savePath.

Ltac unfold_moveFile :=
  unfold StorageCore.moveFile, StorageCore.ensureFolders, StorageCore.moveFile_resume,
    StorageCore.verifyNewPathContentsMatchesExpected.

(** *** The source is deleted only after a verified copy *)

Ltac guard_solver :=
  first
    [ by intros []
    | intros _; decided;
      eexists _, _, _, _; split; [eassumption|];
      split; [apply sublist_inserts_l; solve_sublist|];
      split; [done|];
      intros ? ? ?; simplify_eq;
      first [ congruence
            | eexists; split; [apply sublist_inserts_l; solve_sublist|done] ] ].

Lemma finish_source_guard pathType entityId newPath assetInfo move w pre0 :
  each_split (λ pre x post, source_guard assetInfo newPath (pre0 ++ pre)%list x post)
    (trace_of (exec core_observe h
       (StorageCore.moveFile_finish pathType entityId newPath assetInfo move) tt w)).
Proof. unfold_finish. sym h. all: walk guard_solver. Qed.

Lemma moveFile_source_guard request w :
  each_split (source_guard (MoveRequest.assetInfo request) (MoveRequest.newPath request))
    (trace_of (exec core_observe h (StorageCore.moveFile node request) tt w)).
Proof.
  destruct request as [entityId pathType oldPath newPath assetInfo].
  unfold_moveFile. sym h.
  all: apply each_split_start; walk ltac:(fail).
  all: apply finish_source_guard.
Qed.

(** C1, as amended: in every run of [moveFile], in every environment, a call
    that deletes a file other than the destination comes after these calls,
    in this order: the rename of that file to the destination failed with
    [EXDEV], the copy succeeded, the sizes of source and destination were
    read and the destination's is the expected one, the configuration was
    read and, where it enables the checksum and the caller gave one, the
    destination was hashed to that checksum. A move done by the rename alone
    deletes nothing. *)
Theorem moveFile_deletes_source_only_after_verified
    (request : MoveRequest.t) (w : W) (pre : list coreObs) (p : string)
    (r : result unit) (post : list coreObs) :
  trace_of (exec core_observe h (StorageCore.moveFile node request) tt w)
    = (pre ++ OUnlink p r :: post)%list →
  p ≠ MoveRequest.newPath request →
  verified_copy (MoveRequest.assetInfo request) p (MoveRequest.newPath request) pre.
Proof.
  intros Htr Hp. by apply (moveFile_source_guard request w pre (OUnlink p r) post).
Qed.

(** *** The verification gate *)






(** *** After a rename that failed *)

Ltac use_tests :=
  repeat match goal with
         | H : hashVerificationEnabled ?c = _ |- context [hashVerificationEnabled ?c] =>
             rewrite H
         | H : ?a = ?b |- context [Buffer_equals ?a ?b] =>
             rewrite (proj2 (Buffer_equals_eq a b) H)
         | H : ?a ≠ ?b |- context [Buffer_equals ?a ?b] =>
             rewrite (proj2 (Buffer_equals_neq a b) H)
         end.

Ltac hashing_solver :=
  unfold hashing; use_tests;
  first [ by split
        | eexists; split; [reflexivity|]; cbv beta iota; use_tests; reflexivity ].

Ltac verdict_solver :=
  unfold verification;
  first
    [ left; by eexists
    | right; left; by eexists _, _
    | right; right; left; eexists _, _; by repeat split
    | right; right; right; left; eexists _, _, _; by repeat split
    | right; right; right; right; eexists _, _, _, _;
      split; [reflexivity|]; split; [done|]; hashing_solver ].

Ltac commit_calls_solver :=
  match goal with
  | |- commit_calls _ _ _ _ (?x :: _) => exists x
  end;
  split; [by repeat split|]; cbn [thrown];
  first [ by split | by eexists _, _ ].

Ltac tail_solver :=
  cbv beta iota;
  first
    [ by split
    | by eexists
    | unfold times_then_delete;
      first
        [ left; by eexists
        | right; left; by eexists _, _
        | right; right; eexists _, _, _; split; [reflexivity|]; cbn [app];
          commit_calls_solver ] ].

Ltac verified_split vs :=
  solve [ exists vs; eexists _, _; split; [reflexivity|]; split; [verdict_solver|];
          tail_solver ].

Ltac fallback_solver :=
  unfold on_rename_failure; decided;
  first
    [ by exfalso
    | rewrite bool_decide_eq_true_2 by done;
      unfold fallback;
      first
        [ left; by eexists
        | right;
          match goal with
          | |- ∃ vs v tail, (_ :: ?a :: ?b :: ?c :: ?d :: _) = _ ∧ _ =>
              first [ verified_split [a; b; c; d] | verified_split [a; b; c]
                    | verified_split [a; b] | verified_split [a] ]
          | |- ∃ vs v tail, (_ :: ?a :: ?b :: ?c :: _) = _ ∧ _ =>
              first [ verified_split [a; b; c] | verified_split [a; b]
                    | verified_split [a] ]
          | |- ∃ vs v tail, (_ :: ?a :: ?b :: _) = _ ∧ _ =>
              first [ verified_split [a; b] | verified_split [a] ]
          | |- ∃ vs v tail, (_ :: ?a :: _) = _ ∧ _ => verified_split [a]
          end ]
    | rewrite bool_decide_eq_false_2 by done;
      split; [reflexivity|]; split; [reflexivity|];
      first [ assumption
            | rewrite ?Forall_app; split; [assumption|repeat constructor] ] ].

Lemma finish_on_rename_failure pathType entityId newPath assetInfo move w pre0 :
  Forall quiet pre0 →
  let r := exec core_observe h
             (StorageCore.moveFile_finish pathType entityId newPath assetInfo move) tt w in
  each_split
    (λ pre x post,
       on_rename_failure (result_of r) pathType entityId assetInfo newPath
         (pre0 ++ pre)%list x post)
    (calls (trace_of r)).
Proof.
  intros Hpre. cbv zeta. unfold calls. unfold_finish. sym h.
  all: walk fallback_solver.
Qed.

Lemma moveFile_on_rename_failure request w :
  let r := exec core_observe h (StorageCore.moveFile node request) tt w in
  each_split
    (on_rename_failure (result_of r) (MoveRequest.pathType request)
       (MoveRequest.entityId request) (MoveRequest.assetInfo request)
       (MoveRequest.newPath request))
    (calls (trace_of r)).
Proof.
  destruct request as [entityId pathType oldPath newPath assetInfo].
  cbv zeta. unfold calls. unfold_moveFile. sym h.
  all: apply each_split_start; walk ltac:(fail).
  all: apply finish_on_rename_failure; cbn [app]; repeat constructor.
Qed.

(** C4: what follows a rename that failed, in every run of [moveFile] and in
    every environment, [post] being the calls after it. After the code
    [EXDEV], [post] is the fallback and nothing else: the copy of the source
    to the destination; the verification (the size of the source and that of
    the destination are read and compared with the expected size and, when
    they agree, the configuration is read and the destination is hashed and
    compared where that is enabled and the caller gave a checksum); after a
    verification that passed, the [stat] of the source, its access and
    modification times set on the destination, the deletion of the source
    and the commit; after a verification that failed, the deletion of the
    destination as the last call, whose outcome is the outcome. A call of the
    fallback that throws is the last call and its error is thrown, but for
    the deletion of the source, whose error is ignored. After any other code
    nothing more is called, [moveFile] returns, and nothing before the rename
    deleted, moved or overwrote a file, saved the new path or removed the row
    of the move. *)
Theorem moveFile_rename_failure
    (request : MoveRequest.t) (w : W) (pre : list coreObs) (src : string)
    (error : JsError) (post : list coreObs) :
  let r := exec core_observe h (StorageCore.moveFile node request) tt w in
  let dst := MoveRequest.newPath request in
  calls (trace_of r) = (pre ++ ORename src dst (Throw error) :: post)%list →
  if bool_decide (err_code error = Some "EXDEV")
  then fallback (result_of r) (MoveRequest.pathType request)
         (MoveRequest.entityId request) (MoveRequest.assetInfo request) src dst post
  else post = [] ∧ result_of r = Ok tt ∧
       Forall (λ y, destructive y = false ∧ commits y = false) pre.
Proof.
  cbv zeta. intros Htr.
  exact (moveFile_on_rename_failure request w _ _ _ Htr).
Qed.

(** *** A move that has nothing to do *)

(** C7, as amended: a call of [moveFile] whose old path is absent, empty or
    equal to the new path returns without a single call to a collaborator;
    such is the call repeated, after a move that succeeded, with the path
    the entity now records. *)
Theorem moveFile_noop (request : MoveRequest.t) (w : W) :
  Js.falsy (MoveRequest.oldPath request) = true
  ∨ MoveRequest.oldPath request = Some (MoveRequest.newPath request) →
  exec core_observe h (StorageCore.moveFile node request) tt w = (Ok tt, tt, w, []).
Proof.
  intros Hguard. unfold StorageCore.moveFile.
  assert (Js.falsy (MoveRequest.oldPath request)
          || bool_decide (MoveRequest.oldPath request
                          = Some (MoveRequest.newPath request)) = true) as ->.
  { destruct Hguard as [->| ->]; [done|]. rewrite bool_decide_eq_true_2 by done.
    apply orb_true_r. }
  reflexivity.
Qed.

(** *** Resuming a move of which only the new file is there *)

Lemma finish_no_lookup pathType entityId newPath assetInfo move w :
  Forall resume_event
    (calls (trace_of (exec core_observe h
       (StorageCore.moveFile_finish pathType entityId newPath assetInfo move) tt w))).
Proof. unfold calls. unfold_finish. sym h. all: repeat constructor. Qed.

Ltac resume_solver :=
  intros ? Hpost ?; simplify_eq;
  first
    [ eexists _, _; split; [reflexivity|]; intros ? ?; by simplify_eq
    | exfalso; cbn [Js.falsy] in *; decided; repeat case_decide; simplify_eq;
      congruence ].

(** In every environment: when the row of an unfinished move is found, the
    old path is reported absent and the new path present, the next call is
    the [stat] of the old path, and when that throws, [moveFile] throws the
    same error and calls nothing more. *)
Lemma moveFile_resume_stats_old_path request w :
  let r := exec core_observe h (StorageCore.moveFile node request) tt w in
  each_split (resume_only_new (result_of r)) (calls (trace_of r)).
Proof.
  destruct request as [entityId pathType oldPath newPath assetInfo].
  cbv zeta. unfold calls. unfold_moveFile. sym h.
  all: apply each_split_start; walk resume_solver.
  all: eapply each_split_Forall; [apply finish_no_lookup|]; by intros ? [].
Qed.

End Core.

(** ** The scenarios of the specification, on the model *)

Section Scenarios.
Import Scenario.

(** Scenario 2: old and new path on different volumes. The source is deleted
    at position 15 of the trace, after the verified copy. *)
Lemma moveFile_deletes_source_only_after_verified_witness :
  verified_copy (Some a1_info) old_path far_path
    (take 15 (trace_of (Model.moveFile (request far_path) fresh))).
Proof.
  apply (moveFile_deletes_source_only_after_verified Model.system Model.posix
           (request far_path) fresh
           (take 15 (trace_of (Model.moveFile (request far_path) fresh)))
           old_path (Ok tt)
           (drop 16 (trace_of (Model.moveFile (request far_path) fresh)))).
  - vm_compute. reflexivity.
  - vm_compute. discriminate.
Defined.

(** Where every configuration read enables the checksum and nothing was
    hashed, the guard as the claim words it allows no deletion of a file other
    than the destination. *)
Lemma unhashed_deletion (assetInfo : option AssetInfo) (dst : string)
    (tr pre : list coreObs) (p : string) (r : result unit) (post : list coreObs) :
  each_split (source_guard_as_claimed assetInfo dst) tr →
  tr = (pre ++ OUnlink p r :: post)%list → p ≠ dst →
  Forall no_hash pre → False.
Proof.
  intros Hguard Htr Hp Hpre.
  destruct (Hguard _ _ _ Htr Hp)
    as (error & oldStat & newStat & config & _ & Hsub & _ & Hhash).
  rewrite Forall_forall in Hpre.
  assert (hashVerificationEnabled config = true) as Hon.
  { apply (Hpre (OGetConfig (Ok config))).
    eapply elem_of_sublist; [|exact Hsub]. repeat constructor. }
  destruct (Hhash Hon) as (newChecksum & Hsub').
  apply (Hpre (OHashFile dst (Ok newChecksum))).
  eapply elem_of_sublist; [|exact Hsub']. repeat constructor.
Qed.

Lemma preview_unlinks_source :
  let tr := trace_of (Model.moveFile preview_request fresh_corrupting) in
  tr = (take 13 tr ++ OUnlink old_path (Ok tt) :: drop 14 tr)%list ∧
  Forall no_hash (take 13 tr).
Proof. vm_compute. split; [reflexivity|repeat constructor]. Qed.

(** C1, as stated, fails: a preview is moved across devices while the
    configuration enables the checksum. The caller gives no checksum, the
    copy has the size of the source and other bytes, and the source is
    deleted without the destination having been hashed: the content of the
    file is lost. *)
Lemma moveFile_unhashed_delete_counterexample :
  let r := Model.moveFile preview_request fresh_corrupting in
  hashVerificationEnabled (Model.config fresh_corrupting) = true ∧
  ¬ each_split
      (source_guard_as_claimed (MoveRequest.assetInfo preview_request) far_path)
      (trace_of r) ∧
  result_of r = Ok tt ∧
  Model.files (Model.node (world_of r)) !! old_path = None ∧
  Model.f_content <$> Model.files (Model.node (world_of r)) !! far_path
  = Some [Byte.x00; Byte.x00; Byte.x00] ∧
  Model.f_content a1 = [Byte.x01; Byte.x02; Byte.x03].
Proof.
  cbv zeta. split; [reflexivity|]. split; [|by vm_compute].
  intros Hguard. destruct preview_unlinks_source as [Htr Hpre].
  eapply unhashed_deletion; [exact Hguard|exact Htr|discriminate|exact Hpre].
Qed.


(** The copy has the right size and the wrong content: the checksum gate. *)
Example moveFile_checksum_gate :
  let r := Model.moveFile (request far_path) fresh_corrupting in
  result_of r = Ok tt ∧
  drop 4 (calls (trace_of r)) =
    [OCopyFile old_path far_path (Ok tt);
     OStat old_path (Ok (mkStats 3 (ValidDate 20) (ValidDate 10) (ValidDate 20)));
     OStat far_path (Ok (mkStats 3 (ValidDate 20) (ValidDate 10) (ValidDate 20)));
     OGetConfig (Ok (mkConfig true));
     OHashFile far_path (Ok [Byte.x00; Byte.x00; Byte.x00]);
     OUnlink far_path (Ok tt)] ∧
  Model.files (Model.node (world_of r)) !! old_path = Some a1 ∧
  Model.files (Model.node (world_of r)) !! far_path = None ∧
  Model.saved (world_of r) = [] ∧
  length (Model.moves (world_of r)) = 1%nat.
Proof. vm_compute. done. Qed.

(** Scenario 2 for the rename across devices, the same with a copy of the
    wrong size, and a rename that fails because the old path is not there. *)
Lemma moveFile_rename_failure_witness :
  fallback (result_of (Model.moveFile (request far_path) fresh)) Original "a1"
    (Some a1_info) old_path far_path
    (drop 4 (calls (trace_of (Model.moveFile (request far_path) fresh))))
  ∧ fallback (result_of (Model.moveFile (request far_path) fresh_truncating)) Original
      "a1" (Some a1_info) old_path far_path
      (drop 4 (calls (trace_of (Model.moveFile (request far_path) fresh_truncating))))
  ∧ (drop 4 (calls (trace_of (Model.moveFile (request new_path) missing))) = []
     ∧ result_of (Model.moveFile (request new_path) missing) = Ok tt
     ∧ Forall (λ y, destructive y = false ∧ commits y = false)
         (take 3 (calls (trace_of (Model.moveFile (request new_path) missing))))).
Proof.
  split; [|split].
  - apply (moveFile_rename_failure Model.system Model.posix (request far_path) fresh
             (take 3 (calls (trace_of (Model.moveFile (request far_path) fresh))))
             old_path Model.EXDEV
             (drop 4 (calls (trace_of (Model.moveFile (request far_path) fresh))))).
    vm_compute. reflexivity.
  - apply (moveFile_rename_failure Model.system Model.posix (request far_path)
             fresh_truncating
             (take 3 (calls (trace_of
                               (Model.moveFile (request far_path) fresh_truncating))))
             old_path Model.EXDEV
             (drop 4 (calls (trace_of
                               (Model.moveFile (request far_path) fresh_truncating))))).
    vm_compute. reflexivity.
  - apply (moveFile_rename_failure Model.system Model.posix (request new_path) missing
             (take 3 (calls (trace_of (Model.moveFile (request new_path) missing))))
             old_path Model.ENOENT
             (drop 4 (calls (trace_of (Model.moveFile (request new_path) missing))))).
    vm_compute. reflexivity.
Defined.

Lemma moveFile_noop_witness :
  exec core_observe Model.system (StorageCore.moveFile Model.posix settled) tt fresh
  = (Ok tt, tt, fresh, []).
Proof.
  apply (moveFile_noop Model.system Model.posix settled fresh).
  right. reflexivity.
Defined.

(** C7, as stated, fails: after a move that succeeded, the same call made
    again looks up the move table, creates a row in it and attempts the
    rename, which fails since the old path is gone; the row stays. *)
Lemma moveFile_repeat_counterexample :
  let first := Model.moveFile (request new_path) fresh in
  let second := Model.moveFile (request new_path) (world_of first) in
  result_of first = Ok tt ∧
  calls (trace_of second) =
    [OMkdirSync "/data/lib/u1/2024" (Ok tt);
     OMoveGetByEntity "a1" Original (Ok None);
     OMoveCreate "a1" Original old_path new_path
       (Ok (Move.mk "move-1" "a1" Original old_path new_path));
     ORename old_path new_path (Throw Model.ENOENT)] ∧
  Model.moves (world_of first) = [] ∧
  Model.moves (world_of second) = [Move.mk "move-1" "a1" Original old_path new_path].
Proof. vm_compute. done. Qed.

(** C3 on the code: the file has reached the new path with the expected size
    and checksum, the old path is gone and the row of the move is still
    there. [moveFile] asks for the [stat] of the old path first, which
    throws; it throws with it, saves no path and leaves the row. *)
Theorem moveFile_resume_only_new_fails :
  let r := Model.moveFile (request new_path) interrupted in
  Model.files (Model.node interrupted) !! old_path = None ∧
  Model.files (Model.node interrupted) !! new_path = Some a1 ∧
  Model.f_size a1 = sizeInBytes a1_info ∧
  Model.f_content a1 = checksum a1_info ∧
  result_of r = Throw Model.ENOENT ∧
  calls (trace_of r) =
    [OMkdirSync "/data/lib/u1/2024" (Ok tt);
     OMoveGetByEntity "a1" Original
       (Ok (Some (Move.mk "move-0" "a1" Original old_path new_path)));
     OCheckFileExists old_path (Ok false);
     OCheckFileExists new_path (Ok true);
     OStat old_path (Throw Model.ENOENT)] ∧
  Model.saved (world_of r) = [] ∧
  Model.moves (world_of r) = Model.moves interrupted.
Proof. vm_compute. done. Qed.

(** [checkFileExists] on an object that is there, on an endpoint of no known
    provider, and on a local file that is not there *)
Lemma checkFileExists_total_witness :
  probe_object u1_parsed ∅
    (result_of (Model.repository (StorageRepository.checkFileExists u1_object F_OK) cloud))
    (io_calls (trace_of (Model.repository
                           (StorageRepository.checkFileExists u1_object F_OK) cloud)))
  ∧ probe_object minio_parsed ∅
      (result_of (Model.repository (StorageRepository.checkFileExists minio_object F_OK)
                    cloud))
      (io_calls (trace_of (Model.repository
                             (StorageRepository.checkFileExists minio_object F_OK) cloud)))
  ∧ ∃ a, trace_of (Model.repository (StorageRepository.checkFileExists old_path F_OK)
                     cloud)
         = [IoAccess old_path F_OK a] ∧
         result_of (Model.repository (StorageRepository.checkFileExists old_path F_OK)
                      cloud)
         = Ok (is_ok a).
Proof.
  split; [|split].
  - exact (checkFileExists_total Model.fs u1_object F_OK ∅ cloud).
  - exact (checkFileExists_total Model.fs minio_object F_OK ∅ cloud).
  - exact (checkFileExists_total Model.fs old_path F_OK ∅ cloud).
Defined.

(** C5 on the code: two Remote paths at two hosts whose buckets have the
    same name. [rename] compares the names of the buckets and not the hosts:
    it does not refuse, it sends the Copy to the host of the target, where
    the source named by bucket and key is another object, and then deletes
    the object at the host of the source. Afterwards the target holds the
    bytes of the other object, and the bytes of the source are in none of the
    two objects that are left. *)
Theorem rename_across_hosts :
  let r := Model.repository (StorageRepository.rename tigris_object amazon_target)
             two_stores in
  isRemote (Some tigris_object) = true ∧ isRemote (Some amazon_target) = true ∧
  parseCloudPath tigris_object
  = Ok (mkParsed "fly.storage.tigris.dev" "bucket" "upload/u1/a.jpg") ∧
  parseCloudPath amazon_target
  = Ok (mkParsed "s3.us-west-2.amazonaws.com" "bucket" "upload/u9/a.jpg") ∧
  Model.objects two_stores !! tigris_object = Some t1 ∧
  result_of r = Ok tt ∧
  network (trace_of r) =
    [IoS3Send u1_client
       (CopyObjectCommand "bucket" "bucket/upload/u1/a.jpg" "upload/u9/a.jpg" None None)
       (Ok Model.empty_response);
     IoS3Send tigris_client (DeleteObjectCommand "bucket" "upload/u1/a.jpg")
       (Ok Model.empty_response)] ∧
  Model.objects (world_of r) !! tigris_object = None ∧
  Model.objects (world_of r) !! amazon_target = Some a1 ∧
  Model.objects (world_of r) !! u1_object = Some a1 ∧
  base.size (Model.objects (world_of r)) = 2%nat ∧
  Model.f_content t1 = [Byte.x0a; Byte.x0b] ∧
  Model.f_content a1 = [Byte.x01; Byte.x02; Byte.x03].
Proof. vm_compute. done. Qed.

(** C6 on the code: a path at Google Cloud Storage and a path at Azure Blob
    Storage, each of four segments with a dot in the first. The test for a
    cloud path takes them as cloud paths and [detectCloudProvider] knows
    their providers; [isRemote] answers [false] for them, so that the
    repository hands them to the local file system: [checkFileExists] asks
    [fs.access] for them. *)
Theorem isRemote_refuses_known_providers :
  detectCloudProvider "storage.googleapis.com" = GCS ∧
  detectCloudProvider "account.blob.core.windows.net" = Azure ∧
  (Js.startsWith "/" google_object = false ∧
   length (Js.split "/" google_object) = 4%nat ∧
   Js.includes "." (Js.at_ (Js.split "/" google_object) 0) = true ∧
   isCloudPath (Some google_object) = true ∧
   isRemote (Some google_object) = false ∧
   trace_of (Model.repository (StorageRepository.checkFileExists google_object F_OK)
               cloud)
   = [IoAccess google_object F_OK (Throw Model.ENOENT)]) ∧
  (Js.startsWith "/" azure_object = false ∧
   length (Js.split "/" azure_object) = 4%nat ∧
   Js.includes "." (Js.at_ (Js.split "/" azure_object) 0) = true ∧
   isCloudPath (Some azure_object) = true ∧
   isRemote (Some azure_object) = false ∧
   trace_of (Model.repository (StorageRepository.checkFileExists azure_object F_OK)
               cloud)
   = [IoAccess azure_object F_OK (Throw Model.ENOENT)]).
Proof. vm_compute. done. Qed.

End Scenarios.

(** * Further properties of the code *)

(** ** Strings *)

Lemma split_app (c : ascii) (a b : string) :
  Js.split c (a +:+ String c b) = (Js.split c a ++ Js.split c b)%list.
Proof.
  induction a as [|d a IH]; simpl.
  - by rewrite Ascii.eqb_refl.
  - rewrite IH. destruct (Ascii.eqb d c); [done|].
    pose proof (split_nonempty c a) as Ha.
    by destruct (Js.split c a).
Qed.

Lemma split_no_separator (c : ascii) (s : string) :
  Js.includes c s = false → Js.split c s = [s].
Proof.
  induction s as [|d s IH]; cbn [Js.includes Js.split]; [done|].
  destruct (Ascii.eqb d c); [done|]. intros H. by rewrite (IH H).
Qed.

Lemma startsWith_first (c d : ascii) (s : string) :
  Js.startsWith (String c "") (String d s) = bool_decide (c = d).
Proof.
  unfold Js.startsWith. cbn. destruct (ascii_dec c d); case_bool_decide; try done.
  by destruct s.
Qed.

Lemma startsWith_no_separator (c : ascii) (h t : string) :
  h ≠ "" → Js.includes c h = false → Js.startsWith (String c "") (h +:+ t) = false.
Proof.
  destruct h as [|d h]; [done|]. intros _. cbn [Js.includes].
  destruct (Ascii.eqb_spec d c) as [->|Hd]; [done|]. intros _.
  change (String d h +:+ t) with (String d (h +:+ t)).
  rewrite startsWith_first. by apply bool_decide_eq_false_2.
Qed.

(** ** PathClassifier, continued *)

(** The round trip on a path of four segments *)
Lemma parseCloudPath_roundtrip_witness :
  "s3.example.com" +:+ "/" +:+ "bucket" +:+ "/" +:+ "u1/a.jpg"
  = "s3.example.com/bucket/u1/a.jpg".
Proof.
  apply (parseCloudPath_roundtrip "s3.example.com/bucket/u1/a.jpg"
           (mkParsed "s3.example.com" "bucket" "u1/a.jpg")).
  reflexivity.
Defined.

Lemma parseCloudPath_join (h b k : string) :
  Js.includes "/" h = false → Js.includes "/" b = false →
  parseCloudPath (h +:+ "/" +:+ b +:+ "/" +:+ k) = Ok (mkParsed h b k).
Proof.
  intros Hh Hb. unfold parseCloudPath.
  change (h +:+ "/" +:+ b +:+ "/" +:+ k)
    with (h +:+ String "/" (b +:+ String "/" k)).
  rewrite !split_app, (split_no_separator _ _ Hh), (split_no_separator _ _ Hb).
  cbn [app length]. pose proof (split_nonempty "/" k) as Hk.
  pose proof (join_split "/" k) as Hj.
  destruct (Js.split "/" k) as [|k0 ks]; [done|].
  cbn -[Js.join]. by rewrite Hj.
Qed.

(** A path put together from a host and a bucket without [/] and any key
    parses back into that host, bucket and key. *)
Theorem parseCloudPath_build (h b k : string) :
  Js.includes "/" h = false → Js.includes "/" b = false →
  parseCloudPath (h +:+ "/" +:+ b +:+ "/" +:+ k) = Ok (mkParsed h b k).
Proof. apply parseCloudPath_join. Qed.

Lemma parseCloudPath_build_witness :
  parseCloudPath ("s3.example.com" +:+ "/" +:+ "bucket" +:+ "/" +:+ "u1//a.jpg")
  = Ok (mkParsed "s3.example.com" "bucket" "u1//a.jpg").
Proof.
  apply (parseCloudPath_build "s3.example.com" "bucket" "u1//a.jpg"); reflexivity.
Defined.

Lemma isCloudPath_unfold (p : string) :
  isCloudPath (Some p) =
    negb (Js.startsWith "/" p)
    && (3 <=? length (Js.split "/" p))%nat
    && Js.includes "." (Js.at_ (Js.split "/" p) 0).
Proof.
  unfold isCloudPath. cbn [Js.falsy]. case_decide as Hp; [by subst p|].
  destruct (Js.startsWith "/" p); [done|]. cbn [negb andb].
  by destruct (_ && _).
Qed.

(** The test for a cloud path is written in the storage repository, in
    [utils/file.ts] and in [StorageCore.isImmichPath]. The three agree on
    every string: the first two everywhere, and [isImmichPath] answers the
    same for every path that does not start with [/], whatever the media
    location, set or not. *)
Theorem isCloudPath_agree (p : string) :
  FileUtil.isCloudPath p = isCloudPath (Some p) ∧
  ∀ resolve mediaLocation,
    Js.startsWith "/" p = true ∨
    StorageCore.isImmichPath resolve mediaLocation p = Ok (isCloudPath (Some p)).
Proof.
  rewrite isCloudPath_unfold. split.
  - unfold FileUtil.isCloudPath. destruct (Js.startsWith "/" p); [done|].
    by destruct (_ && _).
  - intros resolve mediaLocation. unfold StorageCore.isImmichPath.
    destruct (Js.startsWith "/" p); [by left|right].
    cbn [negb andb]. by destruct (_ && _).
Qed.

Lemma isRemote_unfold (p : string) :
  isRemote (Some p) =
    isCloudPath (Some p)
    && negb (Js.endsWith ".blob.core.windows.net" (Js.at_ (Js.split "/" p) 0))
    && negb (bool_decide (Js.at_ (Js.split "/" p) 0 = "storage.googleapis.com")).
Proof.
  unfold isRemote. cbn [Js.falsy]. case_decide as Hp; [by subst p|]. cbn [orb].
  rewrite isCloudPath_unfold.
  destruct (Js.startsWith "/" p); [done|]. cbn [negb andb].
  destruct (3 <=? length (Js.split "/" p))%nat eqn:Hlen; [|done]. cbn [andb].
  destruct (Js.includes "." (Js.at_ (Js.split "/" p) 0)) eqn:Hdot; [|done].
  cbn [negb andb].
  apply Nat.leb_le in Hlen.
  destruct (parseCloudPath_segments p Hlen) as (h & b & k & ks & Hs & ->).
  rewrite Hs. cbn [host Js.at_ nth]. apply detectCloudProvider_S3.
Qed.

(** ** The path helpers of [StorageCore] *)

(** Under a media location [host/bucket] (a host that is not empty, and no
    further [/]), [addStoragePrefix] answers a path that parses into that
    host, that bucket and, as key, the local path without its first [/]; the
    storage repository takes it as Remote exactly when the host has a dot
    and is neither an Azure Blob host nor Google's. *)
Theorem addStoragePrefix_parse (h b localPath : string) :
  h ≠ "" → Js.includes "/" h = false → Js.includes "/" b = false →
  ∃ path,
    StorageCore.addStoragePrefix (Some (h +:+ "/" +:+ b)) localPath = Ok path ∧
    parseCloudPath path
    = Ok (mkParsed h b (if Js.startsWith "/" localPath then JsMore.slice 1 localPath
                        else localPath)) ∧
    isRemote (Some path) =
      Js.includes "." h
      && negb (Js.endsWith ".blob.core.windows.net" h)
      && negb (bool_decide (h = "storage.googleapis.com")).
Proof.
  intros Hne Hh Hb. unfold StorageCore.addStoragePrefix, StorageCore.getMediaLocation.
  assert (Js.startsWith "/" (h +:+ "/" +:+ b) = false) as ->.
  { by apply startsWith_no_separator. }
  cbn [negb]. eexists. split; [reflexivity|].
  set (key := if Js.startsWith "/" localPath then _ else _).
  assert (Js.split "/" ((h +:+ "/" +:+ b) +:+ "/" +:+ key)
          = (h :: b :: Js.split "/" key)) as Hsplit.
  { change ((h +:+ "/" +:+ b) +:+ "/" +:+ key)
      with ((h +:+ String "/" b) +:+ String "/" key).
    rewrite !split_app, (split_no_separator _ _ Hh), (split_no_separator _ _ Hb).
    reflexivity. }
  pose proof (split_nonempty "/" key) as Hk.
  split.
  - unfold parseCloudPath. rewrite Hsplit.
    pose proof (join_split "/" key) as Hj.
    destruct (Js.split "/" key) as [|k0 ks]; [done|].
    cbn -[Js.join]. by rewrite Hj.
  - rewrite isRemote_unfold, isCloudPath_unfold, Hsplit.
    cbn [Js.at_ nth length].
    assert (Js.startsWith "/" ((h +:+ "/" +:+ b) +:+ "/" +:+ key) = false) as ->.
    { destruct h as [|d h]; [done|]. cbn [Js.includes] in Hh.
      destruct (Ascii.eqb_spec d "/") as [->|Hd]; [done|].
      change ((String d h +:+ "/" +:+ b) +:+ "/" +:+ key)
        with (String d ((h +:+ "/" +:+ b) +:+ "/" +:+ key)).
      rewrite startsWith_first. by apply bool_decide_eq_false_2. }
    destruct (Js.split "/" key); [done|]. reflexivity.
Qed.

Lemma addStoragePrefix_parse_witness :
  ∃ path,
    StorageCore.addStoragePrefix (Some ("fly.storage.tigris.dev" +:+ "/" +:+ "photos"))
      "/thumbs/u1/ab/cd/a.jpeg" = Ok path ∧
    parseCloudPath path
    = Ok (mkParsed "fly.storage.tigris.dev" "photos"
            (if Js.startsWith "/" "/thumbs/u1/ab/cd/a.jpeg"
             then JsMore.slice 1 "/thumbs/u1/ab/cd/a.jpeg"
             else "/thumbs/u1/ab/cd/a.jpeg")) ∧
    isRemote (Some path) =
      Js.includes "." "fly.storage.tigris.dev"
      && negb (Js.endsWith ".blob.core.windows.net" "fly.storage.tigris.dev")
      && negb (bool_decide ("fly.storage.tigris.dev" = "storage.googleapis.com")).
Proof.
  apply (addStoragePrefix_parse "fly.storage.tigris.dev" "photos"
           "/thumbs/u1/ab/cd/a.jpeg"); [discriminate|reflexivity..].
Defined.

(** ** StorageRepository, continued *)

Lemma string_app_assoc (a b c : string) : (a +:+ b) +:+ c = a +:+ (b +:+ c).
Proof.
  induction a as [|d a IH]; [done|].
  change (String d ((a +:+ b) +:+ c) = String d (a +:+ (b +:+ c))). by rewrite IH.
Qed.

Lemma rev_app_acc (a c : string) : String.rev_app a c = String.rev a +:+ c.
Proof.
  unfold String.rev. revert c. induction a as [|d a IH]; intros c; [done|].
  change (String.rev_app a (String d c) = String.rev_app a (String d "") +:+ c).
  rewrite (IH (String d c)), (IH (String d "")), string_app_assoc. reflexivity.
Qed.
Lemma rev_app_app (a b c : string) :
  String.rev_app (a +:+ b) c = String.rev_app b (String.rev_app a c).
Proof. revert c. induction a as [|d a IH]; intros c; [done|]. apply IH. Qed.

Lemma rev_app_r (a b : string) : String.rev (a +:+ b) = String.rev b +:+ String.rev a.
Proof. unfold String.rev at 1. by rewrite rev_app_app, rev_app_acc. Qed.

Lemma prefix_app (a b : string) : String.prefix a (a +:+ b) = true.
Proof.
  induction a as [|d a IH]; [by destruct b|].
  change (String.prefix (String d a) (String d (a +:+ b)) = true). cbn [String.prefix].
  destruct (ascii_dec d d); [done|congruence].
Qed.

Lemma endsWith_app (suf s : string) : Js.endsWith suf (s +:+ suf) = true.
Proof. unfold Js.endsWith. rewrite rev_app_r. apply prefix_app. Qed.

Lemma length_app_string (a b : string) :
  String.length (a +:+ b) = (String.length a + String.length b)%nat.
Proof.
  induction a as [|d a IH]; [done|].
  change (S (String.length (a +:+ b)) = S (String.length a + String.length b)).
  by rewrite IH.
Qed.

Lemma substring_app (a b : string) : substring 0 (String.length a) (a +:+ b) = a.
Proof.
  induction a as [|d a IH]; [by destruct b|].
  change (String d (substring 0 (String.length a) (a +:+ b)) = String d a).
  by rewrite IH.
Qed.

(** The region is read off an endpoint [s3.<region>.<domain>]. *)
Lemma match_s3_region_of (suffix region : string) :
  region ≠ "" → Js.includes "." region = false →
  match_s3_region suffix ("s3." +:+ region +:+ suffix) = Some region.
Proof.
  intros Hne Hdot. unfold match_s3_region.
  assert (Js.startsWith "s3." ("s3." +:+ region +:+ suffix) = true) as ->
    by apply prefix_app.
  assert (Js.endsWith suffix ("s3." +:+ region +:+ suffix) = true) as ->.
  { change ("s3." +:+ region +:+ suffix) with ("s3." +:+ (region +:+ suffix)).
    replace ("s3." +:+ (region +:+ suffix)) with (("s3." +:+ region) +:+ suffix).
    - apply endsWith_app.
    - reflexivity. }
  rewrite !length_app_string. cbn [String.length andb].
  assert ((3 + String.length suffix
           <? 3 + (String.length region + String.length suffix))%nat = true) as ->.
  { apply Nat.ltb_lt. destruct region; [done|]. cbn. lia. }
  replace (3 + (String.length region + String.length suffix) - 3 - String.length suffix)%nat
    with (String.length region) by lia.
  change (substring 3 (String.length region) ("s3." +:+ region +:+ suffix))
    with (substring 0 (String.length region) (region +:+ suffix)).
  by rewrite substring_app, Hdot.
Qed.

Lemma falsy_false (o : option string) :
  Js.falsy o = false ↔ ∃ s, o = Some s ∧ s ≠ "".
Proof.
  destruct o as [s|]; cbn; [|split; [done|by intros (? & ? & ?)]].
  case_decide; split; try done.
  - by intros (? & [= <-] & ?).
  - eauto.
Qed.

Section RepositoryMethods.
Context {W : Type} (h : handler ioE W) (node : NodeLib).

(** [getS3Credentials] on an endpoint [s3.<region>.amazonaws.com], and on
    [s3.<region>.wasabisys.com], for a region that is not empty and has no
    dot: it reads the two variables of that provider and of no other, in this
    order, answers what they hold and the region of the endpoint, and throws
    when one of them is absent or empty. *)
Theorem getS3Credentials_region (region : string) (clients : gmap string S3Client)
    (w : W) :
  region ≠ "" → Js.includes "." region = false →
  reads_credentials "AWS_ACCESS_KEY_ID" "AWS_SECRET_ACCESS_KEY" region
    (exec io_observe h
       (StorageRepository.getS3Credentials ("s3." +:+ region +:+ ".amazonaws.com"))
       clients w)
  ∧ reads_credentials "WASABI_ACCESS_KEY_ID" "WASABI_SECRET_ACCESS_KEY" region
      (exec io_observe h
         (StorageRepository.getS3Credentials ("s3." +:+ region +:+ ".wasabisys.com"))
         clients w).
Proof.
  intros Hne Hdot. unfold reads_credentials, StorageRepository.getS3Credentials.
  rewrite !(match_s3_region_of _ _ Hne Hdot).
  assert (∀ suffix, Js.endsWith suffix ("s3." +:+ region +:+ suffix) = true) as Hends.
  { intros suffix. apply (endsWith_app suffix ("s3." +:+ region)). }
  rewrite !Hends.
  assert (Js.endsWith ".wasabisys.com" ("s3." +:+ region +:+ ".amazonaws.com") = false)
    as ->.
  { unfold Js.endsWith.
    change ("s3." +:+ region +:+ ".amazonaws.com")
      with (("s3." +:+ region) +:+ ".amazonaws.com").
    rewrite rev_app_r. reflexivity. }
  rewrite !bool_decide_eq_false_2 by discriminate.
  split; sym h; eexists _, _; (split; [reflexivity|]); try done.
  all: match goal with
       | H : Js.falsy _ || Js.falsy _ = false |- _ =>
           apply orb_false_iff in H as [(? & -> & ?)%falsy_false (? & -> & ?)%falsy_false]
       end.
  all: by simplify_eq/=.
Qed.

Lemma getS3Client_cached endpoint (c : gmap string S3Client) (cached : S3Client) w :
  c !! endpoint = Some cached →
  run io_observe h (StorageRepository.getS3Client endpoint c) w = (Ok cached, c, w, []).
Proof.
  intros Hc. unfold StorageRepository.getS3Client, StorageRepository.getS3Credentials.
  sym h; decided.
  all: repeat match goal with
              | H : ¬ is_Some _ |- _ => apply eq_None_not_Some in H
              end.
  all: by simplify_map_eq.
Qed.

(** [getS3Client] makes no call to the file system or the object store, and
    the client it answers is the one [client_had] tells. On an endpoint that
    has a client in the cache it makes no call at all, reads no credentials
    again and answers that client. On another endpoint it reads the two
    credentials of the provider of the endpoint, answers a client for
    [https://<endpoint>] made of them and caches it; it throws, and leaves
    the cache as it was, when the provider is not known or a credential is
    not set. *)
Theorem getS3Client_cache (endpoint : string) (clients : gmap string S3Client) (w : W) :
  let r := exec io_observe h (StorageRepository.getS3Client endpoint) clients w in
  let client := match result_of r with Ok x => Some x | Throw _ => None end in
  Forall local_call (trace_of r) ∧
  client_had endpoint clients (io_calls (trace_of r)) client ∧
  state_of r = cache_after endpoint clients client ∧
  match clients !! endpoint with
  | Some cached => r = (Ok cached, clients, w, [])
  | None => True
  end.
Proof.
  cbv zeta. unfold exec.
  destruct (clients !! endpoint) as [cached|] eqn:Hc.
  - rewrite (getS3Client_cached _ _ _ _ Hc). cbn [result_of state_of trace_of fst snd].
    split; [constructor|]. unfold client_had. rewrite Hc.
    repeat split. cbn [cache_after]. symmetry. by apply insert_id.
  - destruct (run io_observe h (StorageRepository.getS3Client endpoint clients) w)
      as [[[rc c'] w'] t] eqn:Hrun.
    apply getS3Client_had in Hrun as (Hlocal & client & Hhad & -> & ->).
    cbn [result_of state_of trace_of fst snd]. done.
Qed.

Ltac had_client :=
  rewrite !run_pbind; cbv zeta;
  match goal with
  | |- context [run io_observe h (StorageRepository.getS3Client ?e ?c) ?w] =>
      let H := fresh "Hclient" in
      let Hhad := fresh "Hhad" in
      let r := fresh "r" in
      let cl := fresh "client" in
      destruct (run io_observe h (StorageRepository.getS3Client e c) w)
        as [[[r ?] ?] ?] eqn:H;
      apply getS3Client_had in H as (_ & cl & Hhad & -> & ->); destruct r
  end.

Ltac finish_calls :=
  intros [= <- <- <- <-]; cbn [run fst snd app] in *; simplify_eq;
  rewrite ?app_nil_r, ?io_calls_app;
  repeat match goal with u : unit |- _ => destruct u end;
  cbn [io_calls List.filter is_io_logger negb app]; rewrite ?app_nil_r.

Ltac client_run :=
  rewrite !run_pbind; cbv zeta;
  match goal with
  | |- context [run io_observe h (StorageRepository.getS3Client ?e ?c) ?w] =>
      let H := fresh "Hclient" in
      let r := fresh "r" in
      destruct (run io_observe h (StorageRepository.getS3Client e c) w)
        as [[[r ?] ?] ?] eqn:H;
      apply getS3Client_run in H as (? & ? & ?); destruct r
  end.

Ltac finish_run :=
  intros [= <- <- <- <-]; unfold network; cbn [fst snd app];
  rewrite ?app_nil_r, ?List.filter_app;
  repeat match goal with u : unit |- _ => destruct u end;
  repeat match goal with
         | H : Forall local_call ?l |- context [List.filter is_network_call ?l] =>
             rewrite (local_calls_no_network l H)
         end;
  cbn [List.filter is_network_call app].

Ltac no_fs :=
  rewrite ?Forall_app; repeat split;
  first [by apply local_calls_no_fs | by repeat constructor].

(** [unlink] on a Local path is one call of the file system; the error
    [ENOENT] is not thrown (the file was not there), any other error is. *)
Theorem unlink_local (file : string) (clients : gmap string S3Client) (w : W) :
  isRemote (Some file) = false →
  let r := exec io_observe h (StorageRepository.unlink file) clients w in
  ∃ a, io_calls (trace_of r) = [IoUnlink file a] ∧
       result_of r =
         match a with
         | Ok _ => Ok tt
         | Throw e => if bool_decide (err_code e = Some "ENOENT") then Ok tt else Throw e
         end.
Proof.
  intros Hs. cbv zeta. start. unfold StorageRepository.unlink. rewrite Hs.
  sym h; intros [= <- <- <- <-]; eexists; (split; [reflexivity|]); decided.
  all: cbv beta iota; repeat case_bool_decide; try done.
  all: by destruct x.
Qed.

(** [copyFile] between two paths that are not Remote is the file system's
    copy; between two Remote paths whose bucket names are equal it is one
    Copy, sent through the client for the host of the target; between a
    Remote path and one that is not, or between two bucket names, it throws
    before any call. In no case does it delete or rename anything. *)
Theorem copyFile_dispatch (source target : string) (clients : gmap string S3Client) (w : W) :
  let r := exec io_observe h (StorageRepository.copyFile source target) clients w in
  match isRemote (Some source), isRemote (Some target) with
  | false, false =>
      ∃ a, trace_of r = [IoCopyFile source target a] ∧ result_of r = a
  | true, true =>
      match parseCloudPath source, parseCloudPath target with
      | Ok s, Ok t =>
          if bool_decide (bucket s = bucket t)
          then copy_object s t clients (result_of r) (io_calls (trace_of r))
          else trace_of r = [] ∧ is_ok (result_of r) = false
      | _, _ => False
      end
  | _, _ => trace_of r = [] ∧ is_ok (result_of r) = false
  end.
Proof.
  cbv zeta. start. unfold StorageRepository.copyFile.
  destruct (isRemote (Some source)) eqn:Hs, (isRemote (Some target)) eqn:Ht;
    cbn [negb andb]; try (sym h; intros [= <- <- <- <-]; by eauto).
  destruct (isRemote_parse _ Hs) as [s Hps], (isRemote_parse _ Ht) as [t Hpt].
  unfold getS3BucketAndKey. rewrite Hps, Hpt.
  case_bool_decide as Hb; [|sym h; decided; try done; by intros [= <- <- <- <-]].
  unfold copy_object.
  sym h; decided; try done.
  had_client; sym h; finish_calls.
  all: eexists _, _; (split; [eassumption|]); cbv beta iota.
  all: first [ by eexists | done ].
Qed.

Ltac unfold_repo :=
  unfold StorageRepository.stat, StorageRepository.utimes, StorageRepository.unlink,
    StorageRepository.copyFile, StorageRepository.checkFileExists,
    StorageRepository.writeFile, StorageRepository.withLocalPath,
    StorageRepository.getS3Client, StorageRepository.getS3Credentials, getS3BucketAndKey.

(** A path whose host is not one of the providers [getS3Credentials] knows
    is still taken as Remote (any host with a dot is, but Azure's and
    Google's). With no client cached for that host, every method fails on
    it, with the same error, before any call to the file system or the object
    store, and a callback is not invoked; [checkFileExists] answers
    [false]. *)
Theorem unsupported_endpoint (filepath : string) (parsed : ParsedCloudPath)
    (atime mtime : JsDate) (clients : gmap string S3Client) (w : W) :
  isRemote (Some filepath) = true → parseCloudPath filepath = Ok parsed →
  supported_endpoint (host parsed) = false → clients !! host parsed = None →
  ∃ e,
    exec io_observe h (StorageRepository.stat node filepath) clients w
    = (Throw e, clients, w, []) ∧
    exec io_observe h (StorageRepository.utimes node filepath atime mtime) clients w
    = (Throw e, clients, w, []) ∧
    exec io_observe h (StorageRepository.copyFile filepath filepath) clients w
    = (Throw e, clients, w, []) ∧
    (∀ T (callback : string → StorageRepository.repo T),
       exec io_observe h (StorageRepository.writeFile node filepath callback) clients w
       = (Throw e, clients, w, []) ∧
       exec io_observe h (StorageRepository.withLocalPath node filepath callback) clients w
       = (Throw e, clients, w, [])) ∧
    exec io_observe h (StorageRepository.checkFileExists filepath F_OK) clients w
    = (Ok false, clients, w, []) ∧
    ∃ msg w',
      exec io_observe h (StorageRepository.unlink filepath) clients w
      = (Throw e, clients, w', [IoLogger Warn msg]).
Proof.
  intros Hs Hps Hsup Hc. unfold supported_endpoint in Hsup.
  apply orb_false_iff in Hsup as [Hsup Haws].
  apply orb_false_iff in Hsup as [Htigris Hwasabi].
  exists (new_Error ("Unsupported S3 endpoint: " +:+ host parsed +:+ ". "
                     +:+ "Supported providers: Tigris (fly.storage.tigris.dev, t3.storage.dev), Wasabi (*.wasabisys.com), AWS S3 (*.amazonaws.com)")).
  repeat match goal with
         | |- _ ∧ _ => split
         | |- ∀ _, _ => intro
         end.
  all: unfold_repo; rewrite ?Hs, ?Hps; sym h; try congruence.
  all: decided; try done.
  all: try match goal with H : is_Some _ |- _ => rewrite Hc in H; by destruct H end.
  by eexists _, _.
Qed.
End RepositoryMethods.

(** ** Timestamps of remote objects *)

Section RepositoryTimes.
Context {W : Type} (h : handler ioE W) (node : NodeLib).

Ltac client_run :=
  rewrite !run_pbind; cbv zeta;
  match goal with
  | |- context [run io_observe h (StorageRepository.getS3Client ?e ?c) ?w] =>
      let H := fresh "Hclient" in
      let r := fresh "r" in
      destruct (run io_observe h (StorageRepository.getS3Client e c) w)
        as [[[r ?] ?] ?] eqn:H;
      apply getS3Client_run in H as (? & ? & ?); destruct r
  end.

Ltac finish_run :=
  intros [= <- <- <- <-]; unfold network; cbn [fst snd app];
  rewrite ?app_nil_r, ?List.filter_app;
  repeat match goal with u : unit |- _ => destruct u end;
  repeat match goal with
         | H : Forall local_call ?l |- context [List.filter is_network_call ?l] =>
             rewrite (local_calls_no_network l H)
         end;
  cbn [List.filter is_network_call app].

Ltac no_fs :=
  rewrite ?Forall_app; repeat split;
  first [by apply local_calls_no_fs | by repeat constructor].

Ltac had_client :=
  rewrite !run_pbind; cbv zeta;
  match goal with
  | |- context [run io_observe h (StorageRepository.getS3Client ?e ?c) ?w] =>
      let H := fresh "Hclient" in
      let Hhad := fresh "Hhad" in
      let r := fresh "r" in
      let cl := fresh "client" in
      destruct (run io_observe h (StorageRepository.getS3Client e c) w)
        as [[[r ?] ?] ?] eqn:H;
      apply getS3Client_had in H as (_ & cl & Hhad & -> & ->); destruct r
  end.

Ltac finish_calls :=
  intros [= <- <- <- <-]; cbn [run fst snd app] in *; simplify_eq;
  rewrite ?app_nil_r, ?io_calls_app;
  repeat match goal with u : unit |- _ => destruct u end;
  cbn [io_calls List.filter is_io_logger negb app]; rewrite ?app_nil_r.

(** [utimes] on a Remote path touches no file. It asks for the object's
    metadata through the client for the host; with two valid dates it then
    copies the object onto itself with the directive [REPLACE] and the
    metadata it found, in which [immich-last-accessed] and
    [immich-last-modified] are set to the two dates in ISO form and every
    other key is kept; with an invalid date it throws after the Head and
    sends no Copy. *)
Theorem utimes_remote (filepath : string) (s : ParsedCloudPath) (atime mtime : JsDate)
    (clients : gmap string S3Client) (w : W) :
  isRemote (Some filepath) = true → parseCloudPath filepath = Ok s →
  let r := exec io_observe h (StorageRepository.utimes node filepath atime mtime)
             clients w in
  touch_object node s atime mtime clients (result_of r) (io_calls (trace_of r)).
Proof.
  intros Hs Hps. cbv zeta. start. unfold StorageRepository.utimes, touch_object, toISOString.
  rewrite Hs, Hps. destruct atime, mtime; sym h; had_client; sym h.
  all: finish_calls; eexists _, _; (split; [eassumption|]); cbv beta iota.
  all: try match goal with
           | |- context [IoS3Send _ (HeadObjectCommand _ _) ?x] => exists x
           end;
       cbv zeta beta iota.
  all: first [ done | by eexists ].
Qed.

Lemma metadata_get_insert (md : gmap string string) (name v : string) :
  v ≠ "" → StorageRepository.metadata_get (<[name := v]> md) name = Some v.
Proof.
  intros Hv. unfold StorageRepository.metadata_get. rewrite lookup_insert_eq.
  cbn. by case_decide.
Qed.

Lemma metadata_get_insert_ne (md : gmap string string) (name name' v : string) :
  name ≠ name' →
  StorageRepository.metadata_get (<[name := v]> md) name'
  = StorageRepository.metadata_get md name'.
Proof.
  intros Hne. unfold StorageRepository.metadata_get. by rewrite lookup_insert_ne.
Qed.

Lemma touched_metadata_get (lastAccessed lastModified : string)
    (old : option (gmap string string)) :
  lastAccessed ≠ "" → lastModified ≠ "" →
  StorageRepository.metadata_get (touched_metadata lastAccessed lastModified old)
    "immich-last-modified" = Some lastModified ∧
  StorageRepository.metadata_get (touched_metadata lastAccessed lastModified old)
    "immich-last-accessed" = Some lastAccessed.
Proof.
  intros Ha Hm. unfold touched_metadata. split.
  - by apply metadata_get_insert.
  - rewrite metadata_get_insert_ne by done. by apply metadata_get_insert.
Qed.

Lemma local_call_not_network l x :
  Forall local_call l → In x l → is_network_call x = false.
Proof.
  intros Hall Hin. apply Forall_forall with (x := x) in Hall; [by destruct Hall|].
  by apply list_elem_of_In.
Qed.

(** The timestamps written by [utimes] are read back by [stat]: when the
    object store answers the Head of [stat] with the metadata that [utimes]
    sent in its Copy, [stat] answers as access and modification times the
    dates parsed from the ISO forms of the dates given to [utimes] (an ISO
    form is never empty), and as size the content length. *)
Theorem stat_after_utimes (filepath : string) (s : ParsedCloudPath) (a m : Z)
    (clients clients' : gmap string S3Client) (w w' : W)
    (client client' : S3Client) (b src k : string) (md : gmap string string)
    (directive : option string) (answer : result S3Response) (response : S3Response) :
  isRemote (Some filepath) = true → parseCloudPath filepath = Ok s →
  iso_of_ms node a ≠ "" → iso_of_ms node m ≠ "" →
  let touch := exec io_observe h
                 (StorageRepository.utimes node filepath (ValidDate a) (ValidDate m))
                 clients w in
  let read := exec io_observe h (StorageRepository.stat node filepath) clients' w' in
  In (IoS3Send client (CopyObjectCommand b src k (Some md) directive) answer)
     (trace_of touch) →
  network (trace_of read)
  = [IoS3Send client' (HeadObjectCommand (bucket s) (key s)) (Ok response)] →
  Metadata response = Some md →
  ∃ stats,
    result_of read = Ok stats ∧
    atime stats = Date_parse node (iso_of_ms node a) ∧
    mtime stats = Date_parse node (iso_of_ms node m) ∧
    size stats = default 0 (ContentLength response).
Proof.
  intros Hs Hps Ha Hm. cbv zeta. intros Hin Hnet Hmd.
  assert (∃ old, md = touched_metadata (iso_of_ms node a) (iso_of_ms node m) old)
    as [old ->].
  { clear Hnet Hmd. revert Hin. start.
    unfold StorageRepository.utimes, toISOString. rewrite Hs, Hps.
    sym h; client_run; sym h; intros [= _ _ _ <-].
    all: rewrite ?in_app_iff; cbn [In].
    all: intros Hin; repeat destruct Hin as [Hin|Hin]; simplify_eq; try done.
    all: try (apply (local_call_not_network _ _ ltac:(eassumption)) in Hin; done).
    all: by eexists. }
  revert Hnet. start. unfold StorageRepository.stat, StorageRepository.or_now.
  rewrite Hs, Hps.
  sym h; client_run; sym h; intros [= <- _ _ <-].
  all: unfold network; rewrite ?List.filter_app;
    repeat match goal with
           | H : Forall local_call ?l |- context [List.filter is_network_call ?l] =>
               rewrite (local_calls_no_network l H)
           end;
    cbn [List.filter is_network_call app].
  all: intros Hnet; simplify_eq.
  all: destruct (touched_metadata_get (iso_of_ms node a) (iso_of_ms node m) old Ha Hm)
         as [Hlm Hla].
  all: rewrite Hmd in *; cbn [from_option id] in *; simplify_eq.
  all: by eexists.
Qed.
End RepositoryTimes.

(** ** Methods that take a callback *)

Lemma run_pbind_assoc {E : Type → Type} {W' O A B C : Type}
    (observe : ∀ X, E X → X → O) (h' : handler E W')
    (p : prog E A) (k1 : A → prog E B) (k2 : B → prog E C) (w : W') :
  run observe h' (pbind (pbind p k1) k2) w
  = run observe h' (pbind p (λ a, pbind (k1 a) k2)) w.
Proof.
  revert w. induction p as [a | X e f IH]; intros w; cbn; [done|]. by rewrite IH.
Qed.

Section RepositoryCallbacks.
Context {W : Type} (h : handler ioE W) (node : NodeLib).
Context {T : Type} (callback : string → StorageRepository.repo T).

(** [writeFile] on a Remote path. When no client can be had it throws
    before the callback is invoked. Otherwise the callback runs on a
    temporary file; after a callback that succeeded the file is read and
    its bytes are put under the bucket and key of the path, and the answer of
    the callback is the answer when the upload succeeds; after a callback
    that threw, nothing is read or uploaded and its error is thrown. In every
    case the temporary file is deleted last, and an error of the deletion is
    ignored. *)
Theorem writeFile_remote (filepath : string) (s : ParsedCloudPath) (clients : gmap string S3Client) (w : W) :
  isRemote (Some filepath) = true → parseCloudPath filepath = Ok s →
  let r := exec io_observe h (StorageRepository.writeFile node filepath callback)
             clients w in
  let g := exec io_observe h (StorageRepository.getS3Client (host s)) clients w in
  match result_of g with
  | Throw e => r = (Throw e, state_of g, world_of g, trace_of g)
  | Ok client =>
      ∃ tmp now w1 post,
        let tempFile := StorageRepository.writeFile_tempFile node tmp now filepath in
        let cb := exec io_observe h (callback tempFile) (state_of g) w1 in
        trace_of r =
          (trace_of g
           ++ [IoTmpdir tmp; IoDateNow now;
               IoLogger Debug ("Writing to temporary file for S3 upload: " +:+ tempFile)]
           ++ trace_of cb ++ post)%list ∧
        state_of r = state_of cb ∧
        upload_and_cleanup client s tempFile (result_of cb) (result_of r) (io_calls post)
  end.
Proof.
  intros Hs Hps. cbv zeta. unfold StorageRepository.writeFile, StorageRepository.cleanup.
  rewrite Hs, Hps. unfold_m. cbn [negb pbind fst snd].
  rewrite !run_pbind. cbv zeta.
  destruct (run io_observe h (StorageRepository.getS3Client (host s) clients) w)
    as [[[rg cg] wg] tg] eqn:Hg.
  cbn [fst snd]. destruct rg as [client|e]; cbn [run fst snd].
  2: { by rewrite app_nil_r. }
  repeat (first [ progress compute_run | answer h ]).
  exists x, x0, w2.
  rewrite !run_pbind_assoc, run_pbind. cbv zeta.
  match goal with
  | |- context [run io_observe h (callback ?p ?c) ?w'] =>
      destruct (run io_observe h (callback p c) w') as [[[rcb ccb] wcb] tcb]
  end.
  cbn [fst snd]. destruct rcb; sym h.
  all: eexists; (split; [rewrite <- ?app_assoc; reflexivity|]); (split; [reflexivity|]).
  all: unfold upload_and_cleanup, io_calls; cbn [List.filter is_io_logger negb app].
  all: eexists; first [ by split
                      | left; by eexists
                      | right; by eexists _, _ ].
Qed.

(** [withLocalPath] on a Remote path. When no client can be had it throws
    before anything. Otherwise the object at the bucket and key of the path
    is requested; the callback is invoked only after the body was written to
    the temporary file, and its outcome is then the outcome; a request that
    fails, a response without body and a write that fails are thrown without
    the callback being invoked. In every case the temporary file is deleted
    last, an error of the deletion is ignored, and nothing is uploaded: what
    the callback writes to the temporary file does not reach the object. *)
Theorem withLocalPath_remote (filepath : string) (s : ParsedCloudPath) (clients : gmap string S3Client) (w : W) :
  isRemote (Some filepath) = true → parseCloudPath filepath = Ok s →
  let r := exec io_observe h (StorageRepository.withLocalPath node filepath callback)
             clients w in
  let g := exec io_observe h (StorageRepository.getS3Client (host s)) clients w in
  match result_of g with
  | Throw e => r = (Throw e, state_of g, world_of g, trace_of g)
  | Ok client =>
      ∃ tmp now rest,
        let tempFile := StorageRepository.withLocalPath_tempFile node tmp now filepath in
        trace_of r =
          (trace_of g
           ++ [IoTmpdir tmp; IoDateNow now;
               IoLogger Debug ("Downloading file from S3: bucket=" +:+ bucket s
                               +:+ ", key=" +:+ key s)]
           ++ rest)%list ∧
        download_and_cleanup client s filepath tempFile (state_of g)
          (exec io_observe h (callback tempFile)) (result_of r) (state_of r) rest
  end.
Proof.
  intros Hs Hps. cbv zeta.
  unfold StorageRepository.withLocalPath, StorageRepository.cleanup, download_and_cleanup.
  rewrite Hs, Hps. unfold_m. cbn [negb pbind fst snd].
  rewrite !run_pbind. cbv zeta.
  destruct (run io_observe h (StorageRepository.getS3Client (host s) clients) w)
    as [[[rg cg] wg] tg] eqn:Hg.
  cbn [fst snd]. destruct rg as [client|e]; cbn [run fst snd].
  2: { by rewrite app_nil_r. }
  repeat (first [ progress compute_run | answer h | branch ]).
  all: exists x, x0.
  all: try (rewrite !run_pbind_assoc, run_pbind; cbv zeta;
            match goal with
            | |- context [run io_observe h (callback ?p ?c) ?w'] =>
                destruct (run io_observe h (callback p c) w')
                  as [[[rcb ccb] wcb] tcb] eqn:Hcb
            end;
            destruct rcb; sym h).
  all: eexists; (split; [reflexivity|]).
  all: unfold io_calls; cbn [List.filter is_io_logger negb app fst snd]; eexists.
  all: try (first [ left; eexists; by repeat split
             | right; left; eexists; by repeat split
             | right; right; left; by eexists _, _, _ ]).
  all: do 3 right.
  all: repeat match goal with u : unit |- _ => destruct u end.
  all: match goal with
       | Hcb : run io_observe h (callback _ _) ?w' = _ |- _ =>
           eexists _, _, w', _; cbv beta zeta; rewrite Hcb
       end.
  all: cbn [trace_of result_of state_of fst snd].
  all: split; [eassumption|].
  all: split; [rewrite <- ?app_assoc; reflexivity|].
  all: by cbn.
Qed.
End RepositoryCallbacks.

(** ** Whole files, and [walk] *)

Lemma run_plift {W A} (h : handler fileE W) (p : prog ioE A) (w : W) :
  run file_observe h (plift p) w =
  let r := run io_observe (base h) p w in (r.1.1, r.1.2, List.map FIo r.2).
Proof.
  revert w. induction p as [a | X e f IH]; intros w; cbn; [done|].
  rewrite IH. reflexivity.
Qed.

Lemma subarray_range (body : Buffer) (start len : Z) :
  0 ≤ start → 0 ≤ len →
  JsMore.subarray body start (Some (start + len))
  = take (Z.to_nat len) (drop (Z.to_nat start) body).
Proof.
  intros Hs Hl. unfold JsMore.subarray.
  assert ((start <? 0) = false) as -> by lia.
  assert ((start + len <? 0) = false) as -> by lia.
  destruct (decide (start ≤ Z.of_nat (length body))) as [Hle|Hgt].
  - rewrite (Z.min_l start) by lia.
    destruct (decide (start + len ≤ Z.of_nat (length body))) as [Hle'|Hgt'].
    + rewrite Z.min_l by lia. f_equal. lia.
    + rewrite Z.min_r by lia.
      rewrite !take_ge; [done|rewrite length_drop; lia..].
  - rewrite !Z.min_r by lia.
    rewrite Z.sub_diag. cbn [Z.to_nat take].
    rewrite (drop_ge body (Z.to_nat start)) by lia. by rewrite take_nil.
Qed.

Lemma subarray_from (body : Buffer) (start : Z) :
  0 ≤ start → JsMore.subarray body start None = drop (Z.to_nat start) body.
Proof.
  intros Hs. unfold JsMore.subarray.
  assert ((start <? 0) = false) as -> by lia.
  destruct (decide (start ≤ Z.of_nat (length body))) as [Hle|Hgt].
  - rewrite Z.min_l by lia. rewrite take_ge; [done|rewrite length_drop; lia].
  - rewrite Z.min_r by lia. rewrite Z.sub_diag. cbn [Z.to_nat take].
    by rewrite (drop_ge body (Z.to_nat start)) by lia.
Qed.

Lemma map_FIo_inj (l io : list ioObs) : List.map FIo l = List.map FIo io → l = io.
Proof.
  revert io. induction l as [|x l IH]; intros [|y io]; cbn; try done.
  intros [= -> ?]. f_equal. by apply IH.
Qed.

Lemma map_FIo_snoc (l io : list ioObs) (x : ioObs) :
  (List.map FIo l ++ [FIo x])%list = List.map FIo io → (l ++ [x])%list = io.
Proof. intros H. apply map_FIo_inj. by rewrite List.map_app. Qed.

(** The loop of [walk] loses and reorders nothing. *)
Lemma walk_loop_concat (take : Z) (stream batch : list string) :
  let loop := StorageRepository.walk_loop take stream batch in
  (concat loop.1 ++ loop.2)%list = (batch ++ stream)%list.
Proof.
  cbv zeta. revert batch. induction stream as [|value stream IH]; intros batch.
  - cbn. by rewrite app_nil_r.
  - cbn [StorageRepository.walk_loop]. cbv zeta.
    destruct (Z.of_nat (length (batch ++ [value])) =? take).
    + cbn [fst snd concat]. rewrite <- (app_assoc (batch ++ [value])), IH.
      cbn [app]. by rewrite <- app_assoc.
    + rewrite IH. by rewrite <- app_assoc.
Qed.

(** With a batch size of at least one: every batch it yields has that size,
    and the batch at hand stays below it. *)
Lemma walk_loop_sizes (take : Z) (stream batch : list string) :
  Z.of_nat (length batch) < take →
  let loop := StorageRepository.walk_loop take stream batch in
  Forall (λ b, Z.of_nat (length b) = take) loop.1 ∧ Z.of_nat (length loop.2) < take.
Proof.
  cbv zeta. revert batch. induction stream as [|value stream IH]; intros batch Hb.
  - by split; [constructor|].
  - cbn [StorageRepository.walk_loop]. cbv zeta.
    destruct (Z.of_nat (length (batch ++ [value])) =? take) eqn:E.
    + apply Z.eqb_eq in E. cbn [fst snd].
      destruct (IH [] ltac:(cbn; lia)) as [Hall Hlast].
      split; [by constructor|done].
    + apply Z.eqb_neq in E. apply IH. rewrite length_app in *. cbn in *. lia.
Qed.

Lemma walk_loop_nonempty (take : Z) (stream batch : list string) :
  Forall (λ b, b ≠ []) (StorageRepository.walk_loop take stream batch).1.
Proof.
  revert batch. induction stream as [|value stream IH]; intros batch.
  - constructor.
  - cbn [StorageRepository.walk_loop]. cbv zeta.
    destruct (Z.of_nat (length (batch ++ [value])) =? take); [|apply IH].
    cbn [fst]. constructor; [|apply IH]. by destruct batch.
Qed.

Section RepositoryFiles.
Context {W : Type} (h : handler fileE W).

Ltac unfold_files :=
  cbv [exec result_of state_of world_of trace_of catch finally try_finally mbind M_bind
       call ask mret M_ret throw lift_result gets modify lift].

Ltac compute_files :=
  cbn [run pbind plift fst snd app file_observe io_observe negb andb orb default].

Ltac sym_files :=
  unfold_files; repeat (first [ progress compute_files | answer h | branch ]).

Ltac client_files :=
  rewrite !run_pbind; cbv zeta;
  match goal with
  | |- context [run file_observe h (plift (StorageRepository.getS3Client ?e ?c)) ?w] =>
      let H := fresh "Hclient" in
      let r := fresh "r" in
      rewrite (run_plift h (StorageRepository.getS3Client e c) w); cbv zeta;
      destruct (run io_observe (base h) (StorageRepository.getS3Client e c) w)
        as [[[r ?] ?] ?] eqn:H;
      apply getS3Client_run in H as (? & ? & ?); destruct r
  end.

Ltac no_fs_files :=
  rewrite ?Forall_app; repeat split;
  first [by apply local_calls_no_fs | by repeat constructor].

Ltac net_files :=
  unfold network; rewrite ?List.filter_app;
  repeat match goal with
         | H : Forall local_call ?l |- context [List.filter is_network_call ?l] =>
             rewrite (local_calls_no_network l H)
         end;
  cbn [List.filter is_network_call app].

Ltac had_files :=
  rewrite !run_pbind; cbv zeta;
  match goal with
  | |- context [run file_observe h (plift (StorageRepository.getS3Client ?e ?c)) ?w] =>
      let H := fresh "Hclient" in
      let Hhad := fresh "Hhad" in
      let r := fresh "r" in
      let cl := fresh "client" in
      rewrite (run_plift h (StorageRepository.getS3Client e c) w); cbv zeta;
      destruct (run io_observe (base h) (StorageRepository.getS3Client e c) w)
        as [[[r ?] ?] ?] eqn:H;
      apply getS3Client_had in H as (_ & cl & Hhad & -> & ->); destruct r
  end.

(** On a Remote path [createFile], [createOrOverwriteFile] and
    [overwriteFile] run alike in every environment: no call but those of
    [ioE], and one Put of the buffer under the bucket and key of the path,
    sent through the client for the host, whose outcome is the outcome. The
    flags that tell them apart on a Local path ([wx], [w], [r+]) have no
    counterpart: [createFile] does not refuse an object that exists, nor
    [overwriteFile] one that does not. *)
Theorem createFile_remote (filepath : string) (s : ParsedCloudPath) (buffer : Buffer)
    (clients : gmap string S3Client) (w : W) :
  isRemote (Some filepath) = true → parseCloudPath filepath = Ok s →
  let r := exec file_observe h (StorageRepository.createFile filepath buffer) clients w in
  exec file_observe h (StorageRepository.createOrOverwriteFile filepath buffer) clients w
  = r ∧
  exec file_observe h (StorageRepository.overwriteFile filepath buffer) clients w = r ∧
  put_object s buffer clients (result_of r) (trace_of r).
Proof.
  intros Hs Hps. cbv zeta.
  unfold StorageRepository.createFile, StorageRepository.createOrOverwriteFile,
    StorageRepository.overwriteFile.
  rewrite Hs, Hps. cbn [negb]. split; [done|]. split; [done|].
  start. unfold put_object. sym_files. had_files; sym_files.
  all: intros [= <- _ _ <-]; rewrite ?app_nil_r.
  all: match goal with
       | |- ∃ io, ∃ _, ∃ _, (List.map FIo ?l ++ [FIo ?x])%list = _ ∧ _ =>
           exists (l ++ [x])%list
       | |- ∃ io, ∃ _, ∃ _, List.map FIo ?l = _ ∧ _ => exists l
       end.
  all: eexists _, _; (split; [by rewrite ?List.map_app|]); (split; [eassumption|]).
  all: cbv beta iota; rewrite ?io_calls_app;
       cbn [io_calls List.filter is_io_logger negb app]; rewrite ?app_nil_r.
  all: first [ done | by eexists ].
Qed.

(** [readFile] on a Remote path whose object is delivered with a body
    answers, for a position and a length that are not negative, the bytes of
    the body from the position on, [length] of them (or as many as there
    are) when a length is given and is not zero, and all of them otherwise:
    so a length of zero reads up to the end. A response without body is an
    error. *)
Theorem readFile_remote (filepath : string) (s : ParsedCloudPath)
    (options : option ReadOptions) (clients : gmap string S3Client) (w : W)
    (io : list ioObs) (client : S3Client) (response : S3Response) :
  isRemote (Some filepath) = true → parseCloudPath filepath = Ok s →
  0 ≤ default 0 (options ≫= ro_position) → 0 ≤ default 0 (options ≫= ro_length) →
  let r := exec file_observe h (StorageRepository.readFile filepath options) clients w in
  trace_of r = List.map FIo io →
  network io = [IoS3Send client (GetObjectCommand (bucket s) (key s)) (Ok response)] →
  match Body response with
  | Some body => result_of r = Ok (requested_range options body)
  | None => result_of r = Throw (new_Error ("Failed to read file from S3: " +:+ filepath))
  end.
Proof.
  intros Hs Hps Hpos Hlen. cbv zeta. start. unfold StorageRepository.readFile.
  rewrite Hs, Hps. sym_files; client_files; sym_files.
  all: intros [= <- _ _ <-]; rewrite ?app_nil_r.
  all: first [ intros <-%map_FIo_snoc | intros <-%map_FIo_inj ].
  all: net_files; intros [= <- <-].
  all: simplify_eq; try done.
  all: f_equal; unfold requested_range.
  all: change (option_bind ReadOptions Z ro_position options)
         with (options ≫= ro_position) in *;
       change (option_bind ReadOptions Z ro_length options)
         with (options ≫= ro_length) in *.
  all: destruct (options ≫= ro_position) as [p|], (options ≫= ro_length) as [n|];
       cbn [from_option id] in *; decided; simplify_eq.
  all: repeat match goal with
              | H : _ || _ = false |- _ => apply orb_false_iff in H as [? ?]
              end; decided.
  all: try (exfalso; naive_solver).
  all: rewrite ?subarray_range, ?subarray_from by lia.
  all: first [ rewrite (bool_decide_eq_true_2 (0 < _)) by lia
             | rewrite (bool_decide_eq_false_2 (0 < _)) by lia ]; done.
Qed.

(** [readFile] on a path that is not Remote never leaves the file open:
    in every environment, after an open that failed nothing more is called;
    after an open that succeeded the handle is read once and then closed,
    whether the read succeeded or threw. The answer is that of the read,
    unless the close throws: then its error is thrown. *)
Theorem readFile_local (filepath : string) (options : option ReadOptions)
    (clients : gmap string S3Client) (w : W) :
  isRemote (Some filepath) = false →
  let r := exec file_observe h (StorageRepository.readFile filepath options) clients w in
  state_of r = clients ∧
  ((∃ e, trace_of r = [FOpen filepath (Throw e)] ∧ result_of r = Throw e)
   ∨ (∃ fd a c,
        trace_of r = [FOpen filepath (Ok fd); FRead fd options a; FClose fd c] ∧
        result_of r = match c with Ok _ => a | Throw e => Throw e end)).
Proof.
  intros Hs. cbv zeta. start. unfold StorageRepository.readFile. rewrite Hs.
  sym_files.
  all: intros [= <- <- _ <-]; (split; [done|]).
  all: first [ left; by eexists | right; by eexists _, _, _ ].
Qed.

(** [walk] with no path to crawl yields nothing and does not call
    [globStream]. Otherwise it calls it once, on the globs of the paths; all
    its batches are non-empty; when the stream ends normally the batches,
    put end to end, are the values of the stream, in order; when the stream
    fails they are a prefix of them (the batch at hand is not yielded). *)
Theorem walk_batches (lib : GlobLib) (walkOptions : WalkOptionsDto)
    (clients : gmap string S3Client) (w : W) :
  let r := exec file_observe h (StorageRepository.walk lib walkOptions) clients w in
  let paths := pathsToCrawl (walk_crawl walkOptions) in
  ∃ batches error,
    result_of r = Ok (batches, error) ∧
    Forall (λ b, b ≠ []) batches ∧
    if bool_decide (paths = [])
    then batches = [] ∧ error = None ∧ trace_of r = []
    else ∃ values,
           trace_of r =
             [FGlobStream (List.map (StorageRepository.asGlob lib) paths)
                (StorageRepository.globOptions (walk_crawl walkOptions))
                (values, error)] ∧
           match error with
           | None => concat batches = values
           | Some _ => ∃ pending, (concat batches ++ pending)%list = values
           end.
Proof.
  cbv zeta. start. unfold StorageRepository.walk.
  destruct (pathsToCrawl (walk_crawl walkOptions)) as [|path paths] eqn:Hpaths.
  - rewrite !bool_decide_eq_true_2 by done.
    sym_files. intros [= <- _ _ <-]. eexists _, _. split; [done|]. by split.
  - rewrite !bool_decide_eq_false_2 by done.
    unfold_files. compute_files. answer h. compute_files.
    destruct x as [values error]. cbn [fst snd].
    pose proof (walk_loop_concat (walk_take walkOptions) values []) as Hcat.
    pose proof (walk_loop_nonempty (walk_take walkOptions) values []) as Hne.
    cbv zeta in Hcat. cbn [app] in Hcat.
    destruct (StorageRepository.walk_loop (walk_take walkOptions) values [])
      as [yielded pending].
    cbn [fst snd] in *.
    destruct error as [e|].
    + cbn [run]. intros [= <- _ _ <-]. eexists _, _. split; [done|]. split; [done|].
      eexists. split; [done|]. by exists pending.
    + destruct (0 <? length pending)%nat eqn:Hp; cbn [run];
        intros [= <- _ _ <-]; eexists _, _; (split; [done|]).
      * split.
        { apply Forall_app. split; [done|]. constructor; [|constructor].
          destruct pending; [done|done]. }
        eexists. split; [done|]. rewrite concat_app. cbn. by rewrite app_nil_r.
      * split; [done|]. eexists. split; [done|].
        destruct pending; [by rewrite app_nil_r in Hcat|done].
Qed.

(** With a batch size [take] of at least one, every batch that [walk]
    yields has at most [take] paths, and every batch but the last exactly
    [take]. *)
Theorem walk_batch_sizes (lib : GlobLib) (walkOptions : WalkOptionsDto)
    (clients : gmap string S3Client) (w : W) (batches : list (list string))
    (error : option JsError) :
  0 < walk_take walkOptions →
  result_of (exec file_observe h (StorageRepository.walk lib walkOptions) clients w)
  = Ok (batches, error) →
  ∀ i b, batches !! i = Some b →
    0 < Z.of_nat (length b) ≤ walk_take walkOptions ∧
    ((i + 1 < length batches)%nat → Z.of_nat (length b) = walk_take walkOptions).
Proof.
  intros Htake. start. unfold StorageRepository.walk.
  destruct (pathsToCrawl (walk_crawl walkOptions)) as [|path paths] eqn:Hpaths.
  - rewrite !bool_decide_eq_true_2 by done.
    sym_files. intros [= <- _ _ _] [= <- _] i b Hi. done.
  - rewrite !bool_decide_eq_false_2 by done.
    unfold_files. compute_files. answer h. compute_files.
    destruct x as [values err]. cbn [fst snd].
    destruct (walk_loop_sizes (walk_take walkOptions) values [] ltac:(cbn; lia))
      as [Hall Hlast].
    pose proof (walk_loop_nonempty (walk_take walkOptions) values []) as Hne.
    destruct (StorageRepository.walk_loop (walk_take walkOptions) values [])
      as [yielded pending].
    cbn [fst snd] in *.
    assert (∀ i b, yielded !! i = Some b →
                   0 < Z.of_nat (length b) ≤ walk_take walkOptions ∧
                   Z.of_nat (length b) = walk_take walkOptions) as Hy.
    { intros i b Hi. rewrite Forall_lookup in Hall. specialize (Hall i b Hi).
      split; [lia|done]. }
    destruct err as [e|].
    + cbn [run]. intros [= <- _ _ _] [= <- _] i b Hi.
      destruct (Hy i b Hi). done.
    + destruct (0 <? length pending)%nat eqn:Hp; cbn [run];
        intros [= <- _ _ _] [= <- _] i b Hi.
      * apply Nat.ltb_lt in Hp. rewrite length_app. cbn [length].
        apply lookup_app_Some in Hi as [Hi|[Hge Hi]].
        { destruct (Hy i b Hi). done. }
        apply list_lookup_singleton_Some in Hi as [Hi <-].
        split; [lia|]. intros ?. lia.
      * destruct (Hy i b Hi). done.
Qed.
End RepositoryFiles.

(** ** [StorageCore.moveFile], continued *)


Section CoreMore.
Context {W : Type} (h : handler coreE W) (node : NodeLib).

Ltac unfold_finish :=
  unfold StorageCore.moveFile_finish, StorageCore.moveFile_relocate,
    StorageCore.verifyNewPathContentsMatchesExpected, StorageCore.savePath.

Ltac unfold_moveFile :=
  unfold StorageCore.moveFile, StorageCore.ensureFolders, StorageCore.moveFile_resume,
    StorageCore.verifyNewPathContentsMatchesExpected.

Ltac commit_solver :=
  first
    [ by left
    | right; left; eexists _, _; by repeat split
    | right; right; eexists _, _; by repeat split ].

Lemma finish_commit pathType entityId newPath assetInfo move w :
  let r := exec core_observe h
             (StorageCore.moveFile_finish pathType entityId newPath assetInfo move) tt w in
  commit_shape pathType entityId newPath (Move.id move) (result_of r)
    (List.filter commits (trace_of r)).
Proof.
  cbv zeta. start. unfold commit_shape. unfold_finish. sym h.
  all: intros [= <- _ _ <-]; cbn [List.filter commits]; decided.
  all: commit_solver.
Qed.

Ltac find_row :=
  match goal with
  | |- context [OMoveCreate ?a ?b ?c ?d (Ok ?m)] =>
      exists m; split;
      [exists (OMoveCreate a b c d (Ok m)); split;
       [cbn [In]; repeat first [left; reflexivity | right]|done]|]
  | |- context [OMoveUpdate ?a ?b ?c (Ok ?m)] =>
      exists m; split;
      [exists (OMoveUpdate a b c (Ok m)); split;
       [cbn [In]; repeat first [left; reflexivity | right]|done]|]
  end.

(** In every run of [moveFile], in every environment: the calls that commit
    are none; or the save of the new path on the entity, by the kind of the
    path, which threw, and its error is thrown; or that save, which
    succeeded, followed by the deletion of the row of the move, whose outcome
    is the outcome. The row deleted is the one this run created or updated,
    and the row is never deleted before the path is saved. *)
Theorem moveFile_commit (request : MoveRequest.t) (w : W) :
  let r := exec core_observe h (StorageCore.moveFile node request) tt w in
  let committed := List.filter commits (trace_of r) in
  committed = [] ∨
  ∃ move,
    row_of move (trace_of r) ∧
    commit_shape (MoveRequest.pathType request) (MoveRequest.entityId request)
      (MoveRequest.newPath request) (Move.id move) (result_of r) committed.
Proof.
  destruct request as [entityId pathType oldPath newPath assetInfo].
  cbv zeta. start. unfold_moveFile. sym h.
  all: try match goal with
           | |- context [run core_observe h
                           (StorageCore.moveFile_finish ?a ?b ?c ?d ?m tt) ?w'] =>
               pose proof (finish_commit a b c d m w') as Hfin;
               cbv zeta in Hfin; unfold exec in Hfin;
               destruct (run core_observe h (StorageCore.moveFile_finish a b c d m tt) w')
                 as [[[rf sf] wf] tf];
               cbn [fst snd result_of trace_of] in *
           end.
  all: intros [= <- _ _ <-]; cbn [List.filter commits].
  all: try (by left).
  all: right; find_row; exact Hfin.
Qed.


Ltac quiet_trace :=
  rewrite ?Forall_app; repeat split;
  first [ assumption
        | repeat (apply Forall_cons; split; [by split|]); exact (Forall_nil_2 _) ].






Ltac dispatch_solver :=
  intros ? ? ? Hpost; simplify_eq;
  (split;
   [ intros; simplify_eq;
     first [ by split
           | exfalso; cbn [Js.falsy] in *; decided; repeat case_decide; simplify_eq;
             congruence ]
   | intros; simplify_eq;
     first [ by eexists _, _
           | exfalso; cbn [Js.falsy] in *; decided; repeat case_decide; simplify_eq;
             congruence ] ]).

Lemma moveFile_resume_dispatch_split request w :
  let r := exec core_observe h (StorageCore.moveFile node request) tt w in
  each_split (resume_dispatch (result_of r) (MoveRequest.newPath request))
    (calls (trace_of r)).
Proof.
  destruct request as [entityId pathType oldPath newPath assetInfo].
  cbv zeta. unfold calls. unfold_moveFile. sym h.
  all: apply each_split_start; walk dispatch_solver.
  all: eapply each_split_Forall; [apply finish_no_lookup|]; by intros ? [].
Qed.

(** In every environment: when the row of an unfinished move is found and
    both paths are reported absent, nothing more is called and [moveFile]
    returns, the row left in place; when the old path is reported present
    (and is a path other than the row's new path), the next call updates the
    row to lead from the row's old path to the new path asked for, without
    any verification. *)
Theorem moveFile_resume_dispatch
    (request : MoveRequest.t) (w : W) (pre : list coreObs) (move : Move.t)
    (i : string) (t : PathType) (o n : bool) (rest : list coreObs) :
  let r := exec core_observe h (StorageCore.moveFile node request) tt w in
  calls (trace_of r)
  = (pre ++ OMoveGetByEntity i t (Ok (Some move))
         :: OCheckFileExists (Move.oldPath move) (Ok o)
         :: OCheckFileExists (Move.newPath move) (Ok n) :: rest)%list →
  (o = false → n = false → rest = [] ∧ result_of r = Ok tt) ∧
  (o = true → Move.oldPath move ≠ "" → Move.oldPath move ≠ Move.newPath move →
     ∃ ru rest', rest = OMoveUpdate (Move.id move) (Move.oldPath move)
                          (MoveRequest.newPath request) ru :: rest').
Proof.
  cbv zeta. intros Htr.
  exact (moveFile_resume_dispatch_split request w _ _ _ Htr o n rest eq_refl).
Qed.

Ltac rename_solver :=
  first
    [ by exfalso
    | split; [reflexivity|];
      split;
      [ quiet_trace
      | unfold calls; cbn [List.filter is_logger negb]; decided;
        match goal with
        | |- commit_calls _ _ _ _ (?x :: _) => exists x
        end;
        split; [by repeat split|]; cbn [thrown];
        first [ by split | by eexists _, _ ] ] ].

Lemma finish_after_rename pathType entityId newPath assetInfo move w pre0 :
  Forall quiet pre0 →
  let r := exec core_observe h
             (StorageCore.moveFile_finish pathType entityId newPath assetInfo move) tt w in
  each_split
    (λ pre x post,
       after_rename (result_of r) pathType entityId newPath (pre0 ++ pre)%list x post)
    (trace_of r).
Proof. intros Hpre. cbv zeta. unfold_finish. sym h. all: walk rename_solver. Qed.

Lemma moveFile_after_rename_split request w :
  let r := exec core_observe h (StorageCore.moveFile node request) tt w in
  each_split
    (after_rename (result_of r) (MoveRequest.pathType request)
       (MoveRequest.entityId request) (MoveRequest.newPath request))
    (trace_of r).
Proof.
  destruct request as [entityId pathType oldPath newPath assetInfo].
  cbv zeta. unfold_moveFile. sym h.
  all: apply each_split_start; walk ltac:(fail).
  all: apply finish_after_rename.
  all: cbn [app]; repeat (apply Forall_cons; split; [by split|]); exact (Forall_nil_2 _).
Qed.

(** In every run of [moveFile], in every environment: a rename that
    succeeded is the rename to the new path asked for; no call before it
    deleted, copied over or retimed a file or saved a path; and what follows it
    is the commit and nothing else: the new path is saved on the entity and,
    when that succeeded, the row of the move is deleted, the outcome of the
    last of these calls being the outcome of [moveFile]. *)
Theorem moveFile_after_rename
    (request : MoveRequest.t) (w : W) (pre : list coreObs) (src dst : string)
    (post : list coreObs) :
  let r := exec core_observe h (StorageCore.moveFile node request) tt w in
  trace_of r = (pre ++ ORename src dst (Ok tt) :: post)%list →
  dst = MoveRequest.newPath request ∧ Forall quiet pre ∧
  commit_calls (MoveRequest.pathType request) (MoveRequest.entityId request) dst
    (result_of r) (calls post).
Proof.
  cbv zeta. intros Htr.
  destruct (moveFile_after_rename_split request w _ _ _ Htr) as (-> & Hpre & Hpost).
  done.
Qed.

Lemma finish_no_mkdir pathType entityId newPath assetInfo move w :
  Forall (λ x, is_mkdir x = false)
    (trace_of (exec core_observe h
       (StorageCore.moveFile_finish pathType entityId newPath assetInfo move) tt w)).
Proof.
  unfold_finish. sym h.
  all: repeat (apply Forall_cons; split; [reflexivity|]); exact (Forall_nil_2 _).
Qed.

(** [ensureFolders] in [moveFile]: a move that is not a no-op first makes the
    directory of the new path, and makes no other directory; when the new
    path is a cloud path for the storage repository, no directory is made
    at all. *)
Theorem moveFile_ensureFolders (request : MoveRequest.t) (w : W) :
  Js.falsy (MoveRequest.oldPath request) = false →
  MoveRequest.oldPath request ≠ Some (MoveRequest.newPath request) →
  let r := exec core_observe h (StorageCore.moveFile node request) tt w in
  if isCloudPath (Some (MoveRequest.newPath request))
  then Forall (λ x, is_mkdir x = false) (trace_of r)
  else ∃ a rest,
         trace_of r = OMkdirSync (path_dirname node (MoveRequest.newPath request)) a :: rest
         ∧ Forall (λ x, is_mkdir x = false) rest.
Proof.
  destruct request as [entityId pathType oldPath newPath assetInfo].
  cbn [MoveRequest.oldPath MoveRequest.newPath]. intros Hold Hne. cbv zeta.
  rewrite isCloudPath_unfold. start.
  unfold StorageCore.moveFile, StorageCore.ensureFolders, StorageCore.moveFile_resume,
    StorageCore.verifyNewPathContentsMatchesExpected.
  cbn [MoveRequest.oldPath MoveRequest.newPath MoveRequest.entityId
       MoveRequest.pathType MoveRequest.assetInfo].
  rewrite Hold, (bool_decide_eq_false_2 _ Hne). cbn [orb].
  destruct (negb (Js.startsWith "/" newPath)
            && (3 <=? length (Js.split "/" newPath))%nat
            && Js.includes "." (Js.at_ (Js.split "/" newPath) 0)); cbn [negb].
  all: sym h.
  all: try match goal with
           | |- context [run core_observe h
                           (StorageCore.moveFile_finish ?a ?b ?c ?d ?m tt) ?w'] =>
               pose proof (finish_no_mkdir a b c d m w') as Hfin;
               unfold exec in Hfin;
               destruct (run core_observe h (StorageCore.moveFile_finish a b c d m tt) w')
                 as [[[rf sf] wf] tf];
               cbn [fst snd result_of trace_of] in *
           end.
  all: intros [= _ _ _ <-].
  all: try (eexists _, _; split; [reflexivity|]).
  all: repeat (apply Forall_cons; split; [reflexivity|]).
  all: first [ assumption | exact (Forall_nil_2 _) ].
Qed.
End CoreMore.

(** ** The theorems above, on the model *)

Import Scenario.

Lemma getS3Credentials_region_witness :
  reads_credentials "AWS_ACCESS_KEY_ID" "AWS_SECRET_ACCESS_KEY" "us-west-2"
    (exec io_observe Model.fs
       (StorageRepository.getS3Credentials ("s3." +:+ "us-west-2" +:+ ".amazonaws.com"))
       ∅ cloud)
  ∧ reads_credentials "WASABI_ACCESS_KEY_ID" "WASABI_SECRET_ACCESS_KEY" "us-west-2"
      (exec io_observe Model.fs
         (StorageRepository.getS3Credentials ("s3." +:+ "us-west-2" +:+ ".wasabisys.com"))
         ∅ cloud).
Proof.
  apply (getS3Credentials_region Model.fs "us-west-2" ∅ cloud); [discriminate|reflexivity].
Defined.

Lemma unlink_local_witness :
  let r := exec io_observe Model.fs (StorageRepository.unlink old_path) ∅
             (Model.node fresh) in
  ∃ a, io_calls (trace_of r) = [IoUnlink old_path a] ∧
       result_of r =
         match a with
         | Ok _ => Ok tt
         | Throw e => if bool_decide (err_code e = Some "ENOENT") then Ok tt else Throw e
         end.
Proof. apply (unlink_local Model.fs old_path ∅ (Model.node fresh)). reflexivity. Defined.

Lemma unsupported_endpoint_witness :
  ∃ e,
    exec io_observe Model.fs (StorageRepository.stat Model.posix minio_object) ∅ cloud
    = (Throw e, ∅, cloud, []) ∧
    exec io_observe Model.fs
      (StorageRepository.utimes Model.posix minio_object (ValidDate 10) (ValidDate 20))
      ∅ cloud
    = (Throw e, ∅, cloud, []) ∧
    exec io_observe Model.fs (StorageRepository.copyFile minio_object minio_object) ∅ cloud
    = (Throw e, ∅, cloud, []) ∧
    (∀ T (callback : string → StorageRepository.repo T),
       exec io_observe Model.fs
         (StorageRepository.writeFile Model.posix minio_object callback) ∅ cloud
       = (Throw e, ∅, cloud, []) ∧
       exec io_observe Model.fs
         (StorageRepository.withLocalPath Model.posix minio_object callback) ∅ cloud
       = (Throw e, ∅, cloud, [])) ∧
    exec io_observe Model.fs (StorageRepository.checkFileExists minio_object F_OK) ∅ cloud
    = (Ok false, ∅, cloud, []) ∧
    ∃ msg w',
      exec io_observe Model.fs (StorageRepository.unlink minio_object) ∅ cloud
      = (Throw e, ∅, w', [IoLogger Warn msg]).
Proof.
  apply (unsupported_endpoint Model.fs Model.posix minio_object minio_parsed
           (ValidDate 10) (ValidDate 20) ∅ cloud); reflexivity.
Defined.

Lemma utimes_remote_witness :
  let r := exec io_observe Model.fs
             (StorageRepository.utimes Model.posix u1_object (ValidDate 10) (ValidDate 20))
             ∅ cloud in
  touch_object Model.posix u1_parsed (ValidDate 10) (ValidDate 20) ∅
    (result_of r) (io_calls (trace_of r)).
Proof.
  apply (utimes_remote Model.fs Model.posix u1_object u1_parsed (ValidDate 10)
           (ValidDate 20) ∅ cloud); reflexivity.
Defined.

(** On the object store that keeps metadata, the times read back after
    [utimes] are those it wrote. *)
Lemma stat_after_utimes_witness :
  let touch := exec io_observe Model.fs_tagged
                 (StorageRepository.utimes Model.posix u1_object (ValidDate 10)
                    (ValidDate 20))
                 ∅ (cloud, ∅) in
  let read := exec io_observe Model.fs_tagged (StorageRepository.stat Model.posix u1_object)
                (state_of touch) (world_of touch) in
  ∃ stats,
    result_of read = Ok stats ∧
    atime stats = Date_parse Model.posix (iso_of_ms Model.posix 10) ∧
    mtime stats = Date_parse Model.posix (iso_of_ms Model.posix 20) ∧
    size stats = default 0 (ContentLength retimed_head).
Proof.
  cbv zeta.
  apply (stat_after_utimes Model.fs_tagged Model.posix u1_object u1_parsed 10 20 ∅ _
           (cloud, ∅) _ u1_client u1_client "bucket" "bucket/upload/u1/a.jpg"
           "upload/u1/a.jpg" retimed (Some "REPLACE") (Ok Model.empty_response)
           retimed_head).
  - reflexivity.
  - reflexivity.
  - discriminate.
  - discriminate.
  - vm_compute. do 4 right. left. reflexivity.
  - vm_compute. reflexivity.
  - reflexivity.
Defined.

Lemma writeFile_remote_witness :
  let r := exec io_observe Model.fs
             (StorageRepository.writeFile Model.posix u1_object write_one) ∅ cloud in
  let g := exec io_observe Model.fs (StorageRepository.getS3Client (host u1_parsed))
             ∅ cloud in
  match result_of g with
  | Throw e => r = (Throw e, state_of g, world_of g, trace_of g)
  | Ok client =>
      ∃ tmp now w1 post,
        let tempFile := StorageRepository.writeFile_tempFile Model.posix tmp now u1_object in
        let cb := exec io_observe Model.fs (write_one tempFile) (state_of g) w1 in
        trace_of r =
          (trace_of g
           ++ [IoTmpdir tmp; IoDateNow now;
               IoLogger Debug ("Writing to temporary file for S3 upload: " +:+ tempFile)]
           ++ trace_of cb ++ post)%list ∧
        state_of r = state_of cb ∧
        upload_and_cleanup client u1_parsed tempFile (result_of cb) (result_of r)
          (io_calls post)
  end.
Proof.
  apply (writeFile_remote Model.fs Model.posix write_one u1_object u1_parsed ∅ cloud);
    reflexivity.
Defined.

Lemma withLocalPath_remote_witness :
  let r := exec io_observe Model.fs
             (StorageRepository.withLocalPath Model.posix u1_object tell) ∅ cloud in
  let g := exec io_observe Model.fs (StorageRepository.getS3Client (host u1_parsed))
             ∅ cloud in
  match result_of g with
  | Throw e => r = (Throw e, state_of g, world_of g, trace_of g)
  | Ok client =>
      ∃ tmp now rest,
        let tempFile :=
          StorageRepository.withLocalPath_tempFile Model.posix tmp now u1_object in
        trace_of r =
          (trace_of g
           ++ [IoTmpdir tmp; IoDateNow now;
               IoLogger Debug ("Downloading file from S3: bucket=" +:+ bucket u1_parsed
                               +:+ ", key=" +:+ key u1_parsed)]
           ++ rest)%list ∧
        download_and_cleanup client u1_parsed u1_object tempFile (state_of g)
          (exec io_observe Model.fs (tell tempFile)) (result_of r) (state_of r) rest
  end.
Proof.
  apply (withLocalPath_remote Model.fs Model.posix tell u1_object u1_parsed ∅ cloud);
    reflexivity.
Defined.

Lemma createFile_remote_witness :
  let r := exec file_observe Model.fs_files
             (StorageRepository.createFile u1_object [Byte.x2a]) ∅ cloud_disk in
  exec file_observe Model.fs_files
    (StorageRepository.createOrOverwriteFile u1_object [Byte.x2a]) ∅ cloud_disk = r ∧
  exec file_observe Model.fs_files
    (StorageRepository.overwriteFile u1_object [Byte.x2a]) ∅ cloud_disk = r ∧
  put_object u1_parsed [Byte.x2a] ∅ (result_of r) (trace_of r).
Proof.
  apply (createFile_remote Model.fs_files u1_object u1_parsed [Byte.x2a] ∅ cloud_disk);
    reflexivity.
Defined.

Lemma readFile_remote_witness :
  result_of (exec file_observe Model.fs_files
               (StorageRepository.readFile u1_object second_byte) ∅ cloud_disk)
  = Ok (requested_range second_byte [Byte.x01; Byte.x02; Byte.x03]).
Proof.
  apply (readFile_remote Model.fs_files u1_object u1_parsed second_byte ∅ cloud_disk
           (io_part (trace_of (exec file_observe Model.fs_files
                                 (StorageRepository.readFile u1_object second_byte)
                                 ∅ cloud_disk)))
           u1_client u1_body).
  - reflexivity.
  - reflexivity.
  - vm_compute. discriminate.
  - vm_compute. discriminate.
  - vm_compute. reflexivity.
  - vm_compute. reflexivity.
Defined.

Lemma readFile_local_witness :
  let r := exec file_observe Model.fs_files
             (StorageRepository.readFile old_path second_byte) ∅ local_disk in
  state_of r = ∅ ∧
  ((∃ e, trace_of r = [FOpen old_path (Throw e)] ∧ result_of r = Throw e)
   ∨ (∃ fd a c,
        trace_of r = [FOpen old_path (Ok fd); FRead fd second_byte a; FClose fd c] ∧
        result_of r = match c with Ok _ => a | Throw e => Throw e end)).
Proof.
  apply (readFile_local Model.fs_files old_path second_byte ∅ local_disk). reflexivity.
Defined.

(** The first of the three batches that [walk] makes of five paths, two at
    a time *)
Lemma walk_batch_sizes_witness :
  0 < Z.of_nat (length ["/lib/a.jpg"; "/lib/b.jpg"]) ≤ walk_take by_two ∧
  ((0 + 1 < length [["/lib/a.jpg"; "/lib/b.jpg"]; ["/lib/c.jpg"; "/lib/d.jpg"];
                    ["/lib/e.jpg"]])%nat →
   Z.of_nat (length ["/lib/a.jpg"; "/lib/b.jpg"]) = walk_take by_two).
Proof.
  apply (walk_batch_sizes Model.fs_files extensions by_two ∅ cloud_disk
           [["/lib/a.jpg"; "/lib/b.jpg"]; ["/lib/c.jpg"; "/lib/d.jpg"]; ["/lib/e.jpg"]]
           None ltac:(reflexivity) ltac:(vm_compute; reflexivity) 0%nat
           ["/lib/a.jpg"; "/lib/b.jpg"]).
  reflexivity.
Defined.


(** The row is there: with the file at neither path, and with the file at
    the old path *)
Lemma moveFile_resume_dispatch_witness :
  ((false = false → false = false →
      drop 4 (calls (trace_of (Model.moveFile (request new_path) lost))) = [] ∧
      result_of (Model.moveFile (request new_path) lost) = Ok tt) ∧
   (false = true → old_path ≠ "" → old_path ≠ new_path →
      ∃ ru rest',
        drop 4 (calls (trace_of (Model.moveFile (request new_path) lost)))
        = OMoveUpdate "move-0" old_path new_path ru :: rest'))
  ∧
  ((true = false → false = false →
      drop 4 (calls (trace_of (Model.moveFile (request new_path) pending))) = [] ∧
      result_of (Model.moveFile (request new_path) pending) = Ok tt) ∧
   (true = true → old_path ≠ "" → old_path ≠ far_path →
      ∃ ru rest',
        drop 4 (calls (trace_of (Model.moveFile (request new_path) pending)))
        = OMoveUpdate "move-0" old_path new_path ru :: rest')).
Proof.
  split.
  - apply (moveFile_resume_dispatch Model.system Model.posix (request new_path) lost
             (take 1 (calls (trace_of (Model.moveFile (request new_path) lost))))
             (Move.mk "move-0" "a1" Original old_path new_path) "a1" Original false false
             (drop 4 (calls (trace_of (Model.moveFile (request new_path) lost))))).
    vm_compute. reflexivity.
  - apply (moveFile_resume_dispatch Model.system Model.posix (request new_path) pending
             (take 1 (calls (trace_of (Model.moveFile (request new_path) pending))))
             (Move.mk "move-0" "a1" Original old_path far_path) "a1" Original true false
             (drop 4 (calls (trace_of (Model.moveFile (request new_path) pending))))).
    vm_compute. reflexivity.
Defined.

Lemma moveFile_after_rename_witness :
  new_path = MoveRequest.newPath (request new_path) ∧
  Forall quiet (take 4 (trace_of (Model.moveFile (request new_path) fresh))) ∧
  commit_calls Original "a1" new_path (result_of (Model.moveFile (request new_path) fresh))
    (calls (drop 5 (trace_of (Model.moveFile (request new_path) fresh)))).
Proof.
  apply (moveFile_after_rename Model.system Model.posix (request new_path) fresh
           (take 4 (trace_of (Model.moveFile (request new_path) fresh)))
           old_path new_path
           (drop 5 (trace_of (Model.moveFile (request new_path) fresh)))).
  vm_compute. reflexivity.
Defined.

Lemma moveFile_ensureFolders_witness :
  let r := Model.moveFile (request new_path) fresh in
  if isCloudPath (Some (MoveRequest.newPath (request new_path)))
  then Forall (λ x, is_mkdir x = false) (trace_of r)
  else ∃ a rest,
         trace_of r
         = OMkdirSync (path_dirname Model.posix (MoveRequest.newPath (request new_path))) a
             :: rest
         ∧ Forall (λ x, is_mkdir x = false) rest.
Proof.
  apply (moveFile_ensureFolders Model.system Model.posix (request new_path) fresh);
    [reflexivity|discriminate].
Defined.
